(** * A shallow embedding of [retrieval/gcp_index.py]

    The class [VertexIndex] wraps a managed vector-search service: it creates
    or rebinds a named index, embeds a corpus in batches into a staging file,
    uploads it, deploys the index at an endpoint and answers top-k queries.

    The Python object is a record, the remote service, the local files and
    the bucket are a second record, and every method is a function in a
    state-and-exception monad over both.  Remote calls and calls of the
    embedding model leave an event in a trace, so that statements about
    "which calls were issued, in which order" are statements about a list.

    Modelling conventions:
    - Calls of the cloud SDK, of the storage client, of the embedding model
      and of [load_passages] are modelled on the path where the service
      answers; failures of the service itself (network, quota) are not
      exceptions of this model.  Exceptions raised on the client's side
      are: a missing attribute, an attribute of [None], a missing key,
      [response[0]] on an empty response, a division by zero, and the
      upload of a staging file that was never created.
    - [len(passages) / B] is Python's true division of two ints, the
      quotient rounded to a binary64 float, and [math.ceil] is taken of that
      float: for a long corpus or a huge batch size it is not the ceiling
      of the exact quotient.
    - Strings are sequences of code points below 256. *)

From Stdlib Require Import ZArith String Ascii List Lia Sorted.
From Stdlib Require Import DecimalString DecimalZ DecimalPos.
From stdpp Require Import base option list list_numbers gmap strings.

Local Open Scope string_scope.
Local Open Scope list_scope.
Local Open Scope Z_scope.

(** ** Python primitives *)

(** [str(n)] for a Python [int]. *)
Definition str_int (z : Z) : string := NilZero.string_of_int (Z.to_int z).

Definition dquote : ascii := "034"%char.
Definition backslash : ascii := "092"%char.
Definition newline : ascii := "010"%char.

Definition str1 (c : ascii) : string := String c EmptyString.
Definition str2 (c d : ascii) : string := String c (String d EmptyString).

Definition hex_digit (n : nat) : ascii :=
  nth n (list_ascii_of_string "0123456789abcdef") "0"%char.

(** One character of [json.dumps] output for a string, with the default
    [ensure_ascii=True]: the short escapes, printable ASCII as it is, and
    [\u00xx] for everything else. *)
Definition json_escape_char (c : ascii) : string :=
  let n := nat_of_ascii c in
  if Nat.eqb n 34 then str2 backslash dquote
  else if Nat.eqb n 92 then str2 backslash backslash
  else if Nat.eqb n 10 then str2 backslash "n"
  else if Nat.eqb n 13 then str2 backslash "r"
  else if Nat.eqb n 9 then str2 backslash "t"
  else if Nat.eqb n 8 then str2 backslash "b"
  else if Nat.eqb n 12 then str2 backslash "f"
  else if Nat.leb 32 n && Nat.leb n 126 then str1 c
  else String backslash ("u00" +:+ str2 (hex_digit (n / 16)) (hex_digit (n mod 16))).

Fixpoint json_escape (s : string) : string :=
  match s with
  | EmptyString => EmptyString
  | String c s' => json_escape_char c +:+ json_escape s'
  end.

Definition json_dumps_str (s : string) : string :=
  String dquote (json_escape s +:+ str1 dquote).

(** A string between double quotes. *)
Definition quoted (s : string) : string := String dquote (s +:+ str1 dquote).

(** No newline occurs in the string. *)
Definition one_line (s : string) : bool :=
  forallb (fun c => negb (Ascii.eqb c newline)) (list_ascii_of_string s).

(** The JSON values the client serialises: strings, lists and dicts (a dict
    keeps the order in which its keys were written). *)
#[local] Unset Elimination Schemes.
Inductive json : Type :=
| JStr (s : string)
| JList (l : list json)
| JDict (l : list (string * json)).
#[local] Set Elimination Schemes.

(** [json.dumps] with its default separators [", "] and [": "]. *)
Fixpoint json_dumps (j : json) : string :=
  match j with
  | JStr s => json_dumps_str s
  | JList l => "[" +:+ String.concat ", " (map json_dumps l) +:+ "]"
  | JDict l =>
      "{" +:+ String.concat ", "
                (map (fun kv => json_dumps_str (fst kv) +:+ ": " +:+ json_dumps (snd kv)) l)
          +:+ "}"
  end.

(** [d[key]] read on a JSON object, used to observe the records written. *)
Definition json_get (key : string) (j : json) : option json :=
  match j with
  | JDict l => snd <$> find (fun kv => String.eqb (fst kv) key) l
  | _ => None
  end.

(** The ceiling of the exact quotient [a / b], for [b > 0]. *)
Definition ceil_div (a b : Z) : Z := - ((- a) / b).

(** A finite Python [float]: the binary64 number [mantissa * 2^exponent]. *)
Record pyfloat : Type := mkFloat { mantissa : Z; exponent : Z }.

(** [n / d] rounded to the nearest integer, a tie to the even one, for
    [d > 0]. *)
Definition round_half_even (n d : Z) : Z :=
  let q := n / d in
  let r := n mod d in
  if 2 * r <? d then q
  else if d <? 2 * r then q + 1
  else if Z.even q then q else q + 1.

(** The exponent [e] with [2^e <= a / b < 2^(e+1)], for [a, b > 0]. *)
Definition quotient_exponent (a b : Z) : Z :=
  let l := Z.log2 a - Z.log2 b in
  if b * 2 ^ Z.max l 0 <=? a * 2 ^ Z.max (- l) 0 then l else l - 1.

(** [a / b] for ints [a, b > 0]: the quotient correctly rounded to 53
    significant bits, and to a multiple of [2^-1074] where it is too small
    for that (subnormal numbers; a quotient of at most [2^-1075] becomes
    [0.0]). *)
Definition pos_true_div (a b : Z) : pyfloat :=
  let scale := Z.max (quotient_exponent a b - 52) (-1074) in
  mkFloat (round_half_even (a * 2 ^ Z.max (- scale) 0) (b * 2 ^ Z.max scale 0)) scale.

(** [math.ceil(x)] for a finite float. *)
Definition math_ceil (x : pyfloat) : Z :=
  ceil_div (mantissa x * 2 ^ Z.max (exponent x) 0) (2 ^ Z.max (- exponent x) 0).

(** [l[lo:hi]] with Python's clamping of both bounds. *)
Definition clamp_index (n i : Z) : Z :=
  if i <? 0 then Z.max (i + n) 0 else Z.min i n.

Definition slice {A} (l : list A) (lo hi : Z) : list A :=
  let n := Z.of_nat (length l) in
  let a := clamp_index n lo in
  let b := clamp_index n hi in
  take (Z.to_nat (b - a)) (drop (Z.to_nat a) l).

(** [range(lo, hi)]. *)
Definition range (lo hi : Z) : list Z := seqZ lo (hi - lo).

(** Keys of a Python dict as they occur here: [int] and [str] are distinct
    keys, [0] is not ["0"]. *)
Inductive pykey : Type :=
| KInt (n : Z)
| KStr (s : string).

Global Instance pykey_eq_dec : EqDecision pykey.
Proof. solve_decision. Defined.

Global Instance pykey_countable : Countable pykey :=
  inj_countable'
    (fun k => match k with KInt n => inl n | KStr s => inr s end)
    (fun x => match x with inl n => KInt n | inr s => KStr s end)
    (fun k => match k with KInt _ => eq_refl | KStr _ => eq_refl end).

(** Exceptions the Python code can raise by itself. *)
Inductive exn : Type :=
| AttributeError (obj attr : string)
| KeyError (k : pykey)
| IndexError
| ZeroDivisionError
| FileNotFoundError (path : string)
| NotFound (name : string).

(** [a / b] on two ints.  The dividend here is the length of a list, which
    is below 2^63, so that the quotient is far below 2^1024, where Python
    raises [OverflowError] instead of rounding: that case is left out. *)
Definition int_true_div (a b : Z) : exn + pyfloat :=
  if b =? 0 then inl ZeroDivisionError
  else if a =? 0 then inr (mkFloat 0 0)
  else
    let x := pos_true_div (Z.abs a) (Z.abs b) in
    inr (mkFloat (Z.sgn a * Z.sgn b * mantissa x) (exponent x)).

(** [math.ceil(N / B)], the number of batches of [_write_embeddings] for a
    corpus of [N] passages, where the division does not raise. *)
Definition n_batch (N B : Z) : Z :=
  match int_true_div N B with
  | inl _ => 0
  | inr quotient => math_ceil quotient
  end.

(** ** Class constants *)

Definition PROJECT_ID : string := "[your_project_id]".
Definition REGION : string := "us-central1".
Definition MACHINE_TYPE : string := "e2-standard-16".
Definition GCS_BUCKET_NAME : string := "GCS_BUCKET_NAME".
Definition GCS_BUCKET_URI : string := "gs://" +:+ GCS_BUCKET_NAME.
Definition TMP_FILE_PATH : string := "tmp.json".

(** ** Data model *)

Section Client.

(** A passage of the corpus, a component of an embedding vector and the
    distance the service reports for a neighbour are values of the
    collaborating libraries; the client only stores, prints and compares
    them. *)
Context {Passage Value Distance : Type}.

(** [str(value)] on an embedding component. *)
Variable str_value : Value -> string.

(** [a < b] on distances, the only comparison [sorted] performs. *)
Variable dist_ltb : Distance -> Distance -> bool.

(** [models.model_name_as_path], imported by the module from a file that
    is not part of this development: a parameter. *)
Variable model_name_as_path : string -> string.

Definition Embedding : Type := list Value.

(** The embedding model handed to the constructor: [encode] is required,
    [encode_corpus] is the optional method [hasattr] looks for.  Both are
    called with [batch_size] and [convert_to_tensor=True]. *)
Record Model : Type := mkModel {
  encode_corpus : option (list Passage -> Z -> list Embedding);
  encode : list Passage -> Z -> list Embedding
}.

(** A [MatchingEngineIndex] handle. *)
Record MatchingEngineIndex : Type := mkIndex {
  display_name : string;
  resource_name : string
}.

(** A [MatchingEngineIndexEndpoint] handle. *)
Record MatchingEngineIndexEndpoint : Type := mkEndpoint {
  ep_display_name : string;
  ep_resource_name : string
}.

(** One neighbour of a match response. *)
Record MatchNeighbor : Type := mkNeighbor {
  neighbor_id : pykey;
  distance : Distance
}.

(** The remote and local calls a run issues, in order. *)
Inductive Event : Type :=
| EvInit (project location : string)
| EvListIndexes (filter_expr : string)
| EvGetIndex (index_name : string)
| EvCreateIndex (display_name : string) (dimensions : Z)
    (distance_measure_type shard_size index_update_method : string)
| EvLoadPassages (filenames : list string)
| EvEncodeCorpus (batch : list Passage) (batch_size : Z)
| EvEncode (batch : list Passage) (batch_size : Z)
| EvAppend (path : string) (records : list json)
| EvUpload (bucket blob filename : string)
| EvUpdateEmbeddings (index_resource contents_delta_uri : string)
| EvListEndpoints (filter_expr : string)
| EvGetEndpoint (index_endpoint_name : string)
| EvDeployIndex (endpoint_resource : string) (index : option MatchingEngineIndex)
    (deployed_index_id display_name machine_type : string)
    (min_replica_count max_replica_count : Z)
| EvMatch (endpoint_resource deployed_index_id : string)
    (queries : list (list Value)) (num_neighbors : Z).

(** Everything outside the Python object: the index and endpoint resources
    of the service, the answer of its match call, the corpus
    [load_passages] reads, the local files (a path without an entry is a
    file that does not exist yet), the blobs of the bucket, and the two
    ghost lists: the calls issued and the lines logged. *)
Record World : Type := mkWorld {
  indexes : list MatchingEngineIndex;
  endpoints : list MatchingEngineIndexEndpoint;
  match_backend : string -> list (list Value) -> Z -> list (list MatchNeighbor);
  corpus : list Passage;
  files : gmap string string;
  bucket : gmap string string;
  trace : list Event;
  logs : list string
}.

(** The attributes of a [VertexIndex] object.  [index] and [endpoint] start
    as the class attributes [None].  [doc] is the attribute [search] reads:
    neither the class body nor [__init__] defines it, so it is absent
    ([None] here) unless code outside the class has assigned it. *)
Record VertexIndex : Type := mkVertexIndex {
  index : option MatchingEngineIndex;
  endpoint : option MatchingEngineIndexEndpoint;
  dim : Z;
  model : Model;
  index_name : string;
  endpoint_name : string;
  doc_map : gmap pykey Passage;
  doc : option (gmap pykey Passage)
}.

Record St : Type := mkSt { self : VertexIndex; world : World }.

(** ** The monad: state of object and world, Python exceptions *)

Definition M (A : Type) : Type := St -> (exn + A) * St.

Definition ret {A} (a : A) : M A := fun s => (inr a, s).
Definition raise {A} (e : exn) : M A := fun s => (inl e, s).
Definition bind {A B} (m : M A) (k : A -> M B) : M B :=
  fun s => match m s with
           | (inl e, s') => (inl e, s')
           | (inr a, s') => k a s'
           end.
Definition get : M St := fun s => (inr s, s).
Definition put (s : St) : M unit := fun _ => (inr tt, s).

Notation "'let!' x ':=' m 'in' k" := (bind m (fun x => k))
  (at level 10, x name, m at level 100, k at level 200).
Notation "m '>>' k" := (bind m (fun _ => k))
  (at level 90, right associativity).

Definition modify_self (f : VertexIndex -> VertexIndex) : M unit :=
  fun s => (inr tt, mkSt (f (self s)) (world s)).
Definition modify_world (f : World -> World) : M unit :=
  fun s => (inr tt, mkSt (self s) (f (world s))).

Definition set_index (i : option MatchingEngineIndex) (c : VertexIndex) : VertexIndex :=
  mkVertexIndex i (endpoint c) (dim c) (model c) (index_name c) (endpoint_name c)
                (doc_map c) (doc c).
Definition set_endpoint (e : option MatchingEngineIndexEndpoint) (c : VertexIndex) : VertexIndex :=
  mkVertexIndex (index c) e (dim c) (model c) (index_name c) (endpoint_name c)
                (doc_map c) (doc c).
Definition set_doc_map (d : gmap pykey Passage) (c : VertexIndex) : VertexIndex :=
  mkVertexIndex (index c) (endpoint c) (dim c) (model c) (index_name c) (endpoint_name c)
                d (doc c).

Definition add_event (ev : Event) (w : World) : World :=
  mkWorld (indexes w) (endpoints w) (match_backend w) (corpus w) (files w) (bucket w)
          (trace w ++ [ev]) (logs w).
Definition add_log (msg : string) (w : World) : World :=
  mkWorld (indexes w) (endpoints w) (match_backend w) (corpus w) (files w) (bucket w)
          (trace w) (logs w ++ [msg]).
Definition add_index (i : MatchingEngineIndex) (w : World) : World :=
  mkWorld (indexes w ++ [i]) (endpoints w) (match_backend w) (corpus w) (files w) (bucket w)
          (trace w) (logs w).
Definition set_files (f : gmap string string) (w : World) : World :=
  mkWorld (indexes w) (endpoints w) (match_backend w) (corpus w) f (bucket w)
          (trace w) (logs w).
Definition set_bucket (b : gmap string string) (w : World) : World :=
  mkWorld (indexes w) (endpoints w) (match_backend w) (corpus w) (files w) b
          (trace w) (logs w).

Definition emit (ev : Event) : M unit := modify_world (add_event ev).
Definition logger_info (msg : string) : M unit := modify_world (add_log msg).

(** [for x in xs: acc = body(x, acc)], stopping at the first exception. *)
Fixpoint for_each {A T} (xs : list A) (acc : T) (body : A -> T -> M T) : M T :=
  match xs with
  | [] => ret acc
  | x :: xs' => let! acc' := body x acc in for_each xs' acc' body
  end.

(** ** Helpers for the Python idioms of the methods *)

Definition len {A} (l : list A) : Z := Z.of_nat (length l).

(** [enumerate(l)]. *)
Definition enumerate {A} (l : list A) : list (Z * A) := zip (seqZ 0 (len l)) l.

(** [{k: v for k, v in items}]: a later item replaces an earlier one. *)
Definition dict_of_items {A} (items : list (pykey * A)) : gmap pykey A :=
  foldl (fun m kv => <[fst kv := snd kv]> m) ∅ items.

(** [d[k]]. *)
Definition getitem (d : gmap pykey Passage) (k : pykey) : M Passage :=
  match d !! k with
  | Some p => ret p
  | None => raise (KeyError k)
  end.

(** [self.index.<attr>] and [self.endpoint.<attr>]: the handle, or the
    [AttributeError] of [None.<attr>]. *)
Definition index_attr (attr : string) : M MatchingEngineIndex :=
  let! s := get in
  match index (self s) with
  | Some i => ret i
  | None => raise (AttributeError "NoneType" attr)
  end.

Definition endpoint_attr (attr : string) : M MatchingEngineIndexEndpoint :=
  let! s := get in
  match endpoint (self s) with
  | Some e => ret e
  | None => raise (AttributeError "NoneType" attr)
  end.

(** [self.doc]. *)
Definition getattr_doc : M (gmap pykey Passage) :=
  let! s := get in
  match doc (self s) with
  | Some d => ret d
  | None => raise (AttributeError "VertexIndex" "doc")
  end.

(** The content of a local file as the sink sees it: a file that does not
    exist yet reads as empty, which is what opening it in append mode makes
    of it. *)
Definition read_file (path : string) (w : World) : string :=
  default EmptyString (files w !! path).

(** [sorted(l, key=lambda x: x.distance, reverse=True)]: stable, so
    neighbours at equal distance keep their order. *)
Fixpoint insert_desc (x : MatchNeighbor) (l : list MatchNeighbor) : list MatchNeighbor :=
  match l with
  | [] => [x]
  | y :: l' =>
      if dist_ltb (distance x) (distance y) then y :: insert_desc x l' else x :: l
  end.

Definition sorted_by_distance_desc (l : list MatchNeighbor) : list MatchNeighbor :=
  foldr insert_desc [] l.

(** ** The service calls *)

Definition index_resource_path (n : Z) : string :=
  "projects/" +:+ PROJECT_ID +:+ "/locations/" +:+ REGION +:+ "/indexes/" +:+ str_int n.

(** [aiplatform.MatchingEngineIndex.list(filter=...)], by display name. *)
Definition list_indexes (name : string) : M (list MatchingEngineIndex) :=
  emit (EvListIndexes ("display_name=" +:+ name)) >>
  let! s := get in
  ret (List.filter (fun i => String.eqb (display_name i) name) (indexes (world s))).

(** [aiplatform.MatchingEngineIndex(index_name=...)]. *)
Definition get_index (name : string) : M MatchingEngineIndex :=
  emit (EvGetIndex name) >>
  let! s := get in
  match List.find (fun i => String.eqb (display_name i) name) (indexes (world s)) with
  | Some i => ret i
  | None => raise (NotFound name)
  end.

(** [aiplatform.MatchingEngineIndex.create_tree_ah_index(...)]: the service
    registers the new resource under a name of its own choosing. *)
Definition create_tree_ah_index (name : string) (dimensions : Z)
    (distance_measure_type shard_size index_update_method : string)
  : M MatchingEngineIndex :=
  emit (EvCreateIndex name dimensions distance_measure_type shard_size index_update_method) >>
  let! s := get in
  let created := mkIndex name (index_resource_path (len (indexes (world s)))) in
  modify_world (add_index created) >>
  ret created.

(** [aiplatform.MatchingEngineIndexEndpoint.list(filter=...)]. *)
Definition list_endpoints (name : string) : M (list MatchingEngineIndexEndpoint) :=
  emit (EvListEndpoints ("display_name=" +:+ name)) >>
  let! s := get in
  ret (List.filter (fun e => String.eqb (ep_display_name e) name) (endpoints (world s))).

(** [aiplatform.MatchingEngineIndexEndpoint(index_endpoint_name=...)]. *)
Definition get_endpoint (name : string) : M MatchingEngineIndexEndpoint :=
  emit (EvGetEndpoint name) >>
  let! s := get in
  match List.find (fun e => String.eqb (ep_display_name e) name) (endpoints (world s)) with
  | Some e => ret e
  | None => raise (NotFound name)
  end.

(** ** The methods of [VertexIndex] *)

(** [__init__(self, dim, model_name, model)]: the object a constructor
    call leaves, next to the world after [aiplatform.init]. *)
Definition __init__ (dim : Z) (model_name : string) (model : Model) (w : World) : St :=
  let w := add_event (EvInit PROJECT_ID REGION) w in
  let model_path := model_name_as_path model_name in
  mkSt (mkVertexIndex None None dim model
          ("index_" +:+ model_path) ("endpoint_" +:+ model_path) ∅ None) w.

(** [_index_exists]: the number of listed resources, used as a truth
    value by its caller. *)
Definition _index_exists : M Z :=
  let! s := get in
  let! listed := list_indexes (index_name (self s)) in
  let index_names := map resource_name listed in
  ret (len index_names).

(** The dict handed to [json.dumps] for one pair of [zip(indices, embeddings)]. *)
Definition embedding_record (index : Z) (embedding : Embedding) : json :=
  JDict [("id", JStr (str_int index));
         ("embedding", JList (map (fun value => JStr (str_value value)) embedding))].

(** [_write_embeddings_to_tmp_file]: [open(TMP_FILE_PATH, "a")] and
    [writelines]. *)
Definition _write_embeddings_to_tmp_file
    (embeddings : list Embedding) (indices : list Z) : M unit :=
  let records :=
    map (fun p => embedding_record (fst p) (snd p)) (zip indices embeddings) in
  let embeddings_formatted := map (fun r => json_dumps r +:+ str1 newline) records in
  emit (EvAppend TMP_FILE_PATH records) >>
  modify_world (fun w =>
    set_files (<[TMP_FILE_PATH :=
                   read_file TMP_FILE_PATH w +:+ String.concat EmptyString embeddings_formatted]>
                 (files w)) w).

(** The body of the loop of [_write_embeddings] for batch [i], with the
    running [total]. *)
Definition encode_batch (passages : list Passage) (gpu_embedder_batch_size : Z)
    (i total : Z) : M Z :=
  let indices := range (i * gpu_embedder_batch_size) ((i + 1) * gpu_embedder_batch_size) in
  let batch := slice passages (i * gpu_embedder_batch_size) ((i + 1) * gpu_embedder_batch_size) in
  let! s := get in
  let! embeddings :=
    match encode_corpus (model (self s)) with
    | Some f =>
        emit (EvEncodeCorpus batch gpu_embedder_batch_size) >>
        ret (f batch gpu_embedder_batch_size)
    | None =>
        emit (EvEncode batch gpu_embedder_batch_size) >>
        ret (encode (model (self s)) batch gpu_embedder_batch_size)
    end in
  let total := total + len embeddings in
  _write_embeddings_to_tmp_file embeddings indices >>
  (if (i mod 500 =? 0) && (0 <? i)
   then logger_info ("Number of passages encoded: " +:+ str_int total)
   else ret tt) >>
  ret total.

(** [_write_embeddings(gpu_embedder_batch_size=512)]. *)
Definition _write_embeddings (gpu_embedder_batch_size : Z) : M unit :=
  emit (EvLoadPassages ["corpus.jsonl"]) >>
  let! s := get in
  let passages := corpus (world s) in
  modify_self (set_doc_map
    (dict_of_items (map (fun p => (KInt (fst p), snd p)) (enumerate passages)))) >>
  let! n_batch :=
    match int_true_div (len passages) gpu_embedder_batch_size with
    | inl e => raise e
    | inr quotient => ret (math_ceil quotient)
    end in
  let! total :=
    for_each (range 0 n_batch) 0 (encode_batch passages gpu_embedder_batch_size) in
  logger_info (str_int total +:+ " passages encoded.").

(** [_upload_embedding_file]: the staged file becomes the blob of the same
    name, replacing an earlier one.  [upload_from_filename] opens the file
    for reading before it sends anything, so that a staging file that does
    not exist raises [FileNotFoundError] and no upload is issued. *)
Definition _upload_embedding_file : M unit :=
  logger_info ("Uploading " +:+ TMP_FILE_PATH +:+ " to " +:+ GCS_BUCKET_URI) >>
  let! s := get in
  match files (world s) !! TMP_FILE_PATH with
  | None => raise (FileNotFoundError TMP_FILE_PATH)
  | Some content =>
      emit (EvUpload GCS_BUCKET_NAME TMP_FILE_PATH TMP_FILE_PATH) >>
      modify_world (fun w => set_bucket (<[TMP_FILE_PATH := content]> (bucket w)) w)
  end.

(** [_create_index]. *)
Definition _create_index : M unit :=
  let! s := get in
  logger_info ("Creating Vector Search index " +:+ index_name (self s) +:+ " ...") >>
  let! created :=
    create_tree_ah_index (index_name (self s)) (dim (self s))
      "DOT_PRODUCT_DISTANCE" "SHARD_SIZE_SMALL" "STREAM_UPDATE" in
  modify_self (set_index (Some created)) >>
  let! i := index_attr "display_name" in
  logger_info ("Vector Search index " +:+ display_name i
               +:+ " created with resource name " +:+ resource_name i) >>
  _write_embeddings 512 >>
  _upload_embedding_file >>
  let! i := index_attr "update_embeddings" in
  emit (EvUpdateEmbeddings (resource_name i) GCS_BUCKET_URI).

(** [load_index]. *)
Definition load_index : M unit :=
  let! n := _index_exists in
  if negb (n =? 0) then
    let! s := get in
    let! found := get_index (index_name (self s)) in
    modify_self (set_index (Some found)) >>
    let! i := index_attr "display_name" in
    logger_info ("Vector Search index " +:+ display_name i
                 +:+ " exists with resource name " +:+ resource_name i)
  else _create_index.

(** [_endpoint_exists]. *)
Definition _endpoint_exists : M Z :=
  let! s := get in
  let! listed := list_endpoints (endpoint_name (self s)) in
  let endpoint_names := map ep_resource_name listed in
  ret (len endpoint_names).

(** [load_endpoint].  The f-string of the "Deploying ..." log line reads
    [self.endpoint.display_name] before anything has bound [self.endpoint]
    on this path, and [deploy_index] is called on [self.endpoint] too. *)
Definition load_endpoint : M unit :=
  let! s := get in
  (match index (self s) with
   | None => load_index
   | Some _ => ret tt
   end) >>
  let! n := _endpoint_exists in
  if negb (n =? 0) then
    let! s := get in
    let! found := get_endpoint (endpoint_name (self s)) in
    modify_self (set_endpoint (Some found)) >>
    let! e := endpoint_attr "display_name" in
    logger_info ("Vector Search index endpoint " +:+ ep_display_name e
                 +:+ " exists with resource name " +:+ ep_resource_name e)
  else
    let! i := index_attr "display_name" in
    let! e := endpoint_attr "display_name" in
    logger_info ("Deploying Vector Search index " +:+ display_name i
                 +:+ " at endpoint " +:+ ep_display_name e +:+ " ...") >>
    let! e := endpoint_attr "deploy_index" in
    let! s := get in
    emit (EvDeployIndex (ep_resource_name e) (index (self s))
            (index_name (self s)) (index_name (self s)) MACHINE_TYPE 1 1) >>
    modify_self (set_endpoint (Some e)) >>
    let! i := index_attr "display_name" in
    let! e := endpoint_attr "display_name" in
    logger_info ("Vector Search index " +:+ display_name i
                 +:+ " is deployed at endpoint " +:+ ep_display_name e).

(** [search], up to and including [sorted_data = sorted(response[0], ...)]. *)
Definition search_sorted_data (query_embeds : list (list Value)) (topk : Z)
  : M (list MatchNeighbor) :=
  let! s := get in
  (match endpoint (self s) with
   | None => load_endpoint
   | Some _ => ret tt
   end) >>
  let! e := endpoint_attr "match" in
  let! s := get in
  emit (EvMatch (ep_resource_name e) (index_name (self s)) query_embeds topk) >>
  let response := match_backend (world s) (index_name (self s)) query_embeds topk in
  match response with
  | [] => raise IndexError
  | first :: _ => ret (sorted_by_distance_desc first)
  end.

(** [[self.doc[x.id] for x in sorted_data]]: [self.doc] is read once per
    element, so not at all for an empty list. *)
Fixpoint docs_of (sorted_data : list MatchNeighbor) : M (list Passage) :=
  match sorted_data with
  | [] => ret []
  | x :: rest =>
      let! d := getattr_doc in
      let! p := getitem d (neighbor_id x) in
      let! ps := docs_of rest in
      ret (p :: ps)
  end.

(** [search(self, query_embeds, topk=1)]. *)
Definition search (query_embeds : list (list Value)) (topk : Z) : M (list Passage) :=
  let! sorted_data := search_sorted_data query_embeds topk in
  docs_of sorted_data.

(** ** Observations on runs *)

(** The encoder [_write_embeddings] calls on a model, and the event the
    call leaves. *)
Definition encoder (m : Model) : list Passage -> Z -> list Embedding :=
  match encode_corpus m with
  | Some f => f
  | None => encode m
  end.

Definition encode_event (m : Model) (batch : list Passage) (batch_size : Z) : Event :=
  match encode_corpus m with
  | Some _ => EvEncodeCorpus batch batch_size
  | None => EvEncode batch batch_size
  end.

(** The records batch [i] hands to the sink, and the two calls it issues. *)
Definition batch_records (m : Model) (passages : list Passage) (B i : Z) : list json :=
  map (fun p => embedding_record (fst p) (snd p))
      (zip (range (i * B) ((i + 1) * B)) (encoder m (slice passages (i * B) ((i + 1) * B)) B)).

Definition batch_events (m : Model) (passages : list Passage) (B i : Z) : list Event :=
  [encode_event m (slice passages (i * B) ((i + 1) * B)) B;
   EvAppend TMP_FILE_PATH (batch_records m passages B i)].

(** The calls of one run of the batching and sink pipeline. *)
Definition pipeline_events (m : Model) (passages : list Passage) (B : Z) : list Event :=
  EvLoadPassages ["corpus.jsonl"]
  :: flat_map (batch_events m passages B) (range 0 (n_batch (len passages) B)).

(** The staging record format in words: one object with the field [id],
    the decimal string of the ordinal, and the field [embedding], the array
    of the components' texts, each a JSON string. *)
Definition record_text (index : Z) (embedding : Embedding) : string :=
  "{" +:+ quoted "id" +:+ ": " +:+ quoted (str_int index) +:+ ", "
      +:+ quoted "embedding" +:+ ": ["
      +:+ String.concat ", " (map (fun v => quoted (json_escape (str_value v))) embedding)
      +:+ "]}".

(** The text the sink appends for a list of records: one line each. *)
Definition record_line (r : json) : string := json_dumps r +:+ str1 newline.

Definition lines_of (records : list json) : string :=
  String.concat EmptyString (map record_line records).

(** The text one run of the pipeline appends to the staging file. *)
Definition staged_text (m : Model) (passages : list Passage) (B : Z) : string :=
  String.concat EmptyString
    (map (fun i => lines_of (batch_records m passages B i))
         (range 0 (n_batch (len passages) B))).

(** The mapping [_write_embeddings] stores in [doc_map]. *)
Definition enumerated (passages : list Passage) : gmap pykey Passage :=
  dict_of_items (map (fun p => (KInt (fst p), snd p)) (enumerate passages)).

(** The handle of the index [_create_index] creates in state [s], and the
    calls it issues after the existence check. *)
Definition created_index (s : St) : MatchingEngineIndex :=
  mkIndex (index_name (self s)) (index_resource_path (len (indexes (world s)))).

Definition creation_events (s : St) : list Event :=
  [EvCreateIndex (index_name (self s)) (dim (self s))
     "DOT_PRODUCT_DISTANCE" "SHARD_SIZE_SMALL" "STREAM_UPDATE"]
  ++ pipeline_events (model (self s)) (corpus (world s)) 512
  ++ [EvUpload GCS_BUCKET_NAME TMP_FILE_PATH TMP_FILE_PATH;
      EvUpdateEmbeddings (resource_name (created_index s)) GCS_BUCKET_URI].

(** The parts of the world no method writes. *)
Definition same_remote (w w' : World) : Prop :=
  endpoints w' = endpoints w /\
  match_backend w' = match_backend w /\ corpus w' = corpus w.

(** The batches handed to the model, in call order. *)
Definition encoded_batches (evs : list Event) : list (list Passage) :=
  omap (fun ev => match ev with
                  | EvEncodeCorpus b _ | EvEncode b _ => Some b
                  | _ => None
                  end) evs.

(** The [id] field of a record, and the ids of each append, in call order. *)
Definition record_id (r : json) : option string :=
  match json_get "id" r with
  | Some (JStr i) => Some i
  | _ => None
  end.

Definition written_ids (evs : list Event) : list (list (option string)) :=
  omap (fun ev => match ev with
                  | EvAppend _ records => Some (map record_id records)
                  | _ => None
                  end) evs.

Definition is_create (ev : Event) : bool :=
  match ev with EvCreateIndex _ _ _ _ _ => true | _ => false end.
Definition is_upload (ev : Event) : bool :=
  match ev with EvUpload _ _ _ => true | _ => false end.
Definition is_update (ev : Event) : bool :=
  match ev with EvUpdateEmbeddings _ _ => true | _ => false end.
Definition is_deploy (ev : Event) : bool :=
  match ev with EvDeployIndex _ _ _ _ _ _ _ => true | _ => false end.

Definition count_events (p : Event -> bool) (evs : list Event) : nat :=
  length (List.filter p evs).

(** An index resource of that display name is listed by the service. *)
Definition index_listed (name : string) (w : World) : Prop :=
  exists i, In i (indexes w) /\ display_name i = name.

Definition endpoint_listed (name : string) (w : World) : Prop :=
  exists e, In e (endpoints w) /\ ep_display_name e = name.

(** Two relations between the object before and after a call: the
    attributes only the constructor (or nobody) writes are the same, and
    the bound index and the DocMap are the same. *)
Definition same_identity (c c' : VertexIndex) : Prop :=
  doc c' = doc c /\ index_name c' = index_name c /\ endpoint_name c' = endpoint_name c
  /\ model c' = model c /\ dim c' = dim c.

Definition same_binding (c c' : VertexIndex) : Prop :=
  index c' = index c /\ doc_map c' = doc_map c.

(** A computation keeps [R] when the object after it is related to the
    object before it, whatever the state and the outcome. *)
Definition keeps (R : VertexIndex -> VertexIndex -> Prop) {A} (m : M A) : Prop :=
  forall s, R (self s) (self (snd (m s))).

(** The states a client goes through: built by the constructor, then
    driven by calls of its methods, while the world may change under it. *)
Inductive reachable : St -> Prop :=
| reach_init dim model_name model w :
    reachable (__init__ dim model_name model w)
| reach_world s w :
    reachable s -> reachable (mkSt (self s) w)
| reach_load_index s :
    reachable s -> reachable (snd (load_index s))
| reach_load_endpoint s :
    reachable s -> reachable (snd (load_endpoint s))
| reach_search s q k :
    reachable s -> reachable (snd (search q k s)).

(** The states after zero or more further [search] calls. *)
Inductive searched (s : St) : St -> Prop :=
| searched_refl : searched s s
| searched_step s' q k :
    searched s s' -> searched s (snd (search q k s')).

(** ** Further observations *)

Definition is_encode (ev : Event) : bool :=
  match ev with EvEncode _ _ => true | _ => false end.
Definition is_encode_corpus (ev : Event) : bool :=
  match ev with EvEncodeCorpus _ _ => true | _ => false end.

Definition is_match (ev : Event) : bool :=
  match ev with EvMatch _ _ _ _ => true | _ => false end.

(** The calls [load_index] can issue: those of the index resource, of the
    embedding pipeline and of the upload. *)
Definition is_index_side (ev : Event) : bool :=
  match ev with
  | EvListIndexes _ | EvGetIndex _ | EvCreateIndex _ _ _ _ _ | EvLoadPassages _
  | EvEncodeCorpus _ _ | EvEncode _ _ | EvAppend _ _ | EvUpload _ _ _
  | EvUpdateEmbeddings _ _ => true
  | _ => false
  end.

(** The test of the progress log line in the loop of [_write_embeddings],
    and the line. *)
Definition logs_progress (i : Z) : bool := (i mod 500 =? 0) && (0 <? i).

Definition progress_line (total : Z) : string :=
  "Number of passages encoded: " +:+ str_int total.

End Client.

(** ** Sample data *)

Module Sample.

(** A sample instance of the parameter [model_name_as_path] for the
    scenarios below: slashes become underscores.  No property depends on
    this choice. *)
Fixpoint name_as_path (s : string) : string :=
  match s with
  | EmptyString => EmptyString
  | String c s' =>
      String (if Ascii.eqb c "/"%char then "_"%char else c) (name_as_path s')
  end.

(** A model without [encode_corpus] that embeds a passage as two numbers. *)
Definition encoder_model : @Model string Z :=
  mkModel None (fun batch _ => map (fun p => [Z.of_nat (String.length p); 1]) batch).

Definition corpus10 : list string :=
  ["p0"; "p1"; "p2"; "p3"; "p4"; "p5"; "p6"; "p7"; "p8"; "p9"].

Definition the_index : MatchingEngineIndex := mkIndex "index_org_model" "indexes/7".
Definition the_endpoint : MatchingEngineIndexEndpoint :=
  mkEndpoint "endpoint_org_model" "indexEndpoints/3".

(** Answers of the service: nothing, or two neighbours for the first query. *)
Definition no_neighbors : string -> list (list Z) -> Z -> list (list (@MatchNeighbor Z)) :=
  fun _ _ _ => [[]].
Definition two_neighbors : string -> list (list Z) -> Z -> list (list (@MatchNeighbor Z)) :=
  fun _ _ _ => [[mkNeighbor (KStr "3") 5; mkNeighbor (KStr "8") 9]].

(** A service that knows neither the index nor the endpoint. *)
Definition empty_world : @World string Z Z :=
  mkWorld [] [] two_neighbors corpus10 ∅ ∅ [] [].

(** A service where the index exists and is deployed at the endpoint. *)
Definition serving_world (backend : string -> list (list Z) -> Z -> list (list MatchNeighbor))
  : @World string Z Z :=
  mkWorld [the_index] [the_endpoint] backend corpus10 ∅ ∅ [] [].

(** A service where the endpoint exists but the index does not yet. *)
Definition endpoint_only_world
    (backend : string -> list (list Z) -> Z -> list (list MatchNeighbor))
  : @World string Z Z :=
  mkWorld [] [the_endpoint] backend corpus10 ∅ ∅ [] [].

(** The same two neighbours, with the ids as integers. *)
Definition int_neighbors : string -> list (list Z) -> Z -> list (list (@MatchNeighbor Z)) :=
  fun _ _ _ => [[mkNeighbor (KInt 3) 5; mkNeighbor (KInt 8) 9]].

Definition fresh (w : @World string Z Z) : St := __init__ name_as_path 2 "org/model" encoder_model w.

(** A new client, before the service knows its index or endpoint. *)
Definition fresh_empty : St := fresh empty_world.

(** A new client whose index and endpoint exist already, and the same
    client after [load_index]. *)
Definition fresh_serving : St := fresh (serving_world no_neighbors).
Definition bound_client : St := snd (load_index str_int fresh_serving).

(** A client that has created its index, so that [doc_map] is filled,
    while the endpoint exists already. *)
Definition created_client
    (backend : string -> list (list Z) -> Z -> list (list MatchNeighbor)) : St :=
  snd (load_index str_int (fresh (endpoint_only_world backend))).

(** A client after a first [load_index] on a name the service did not know. *)
Definition loaded_once : St := snd (load_index str_int fresh_empty).

(** The same client, holding its handle, after the index was removed from
    the service by someone else. *)
Definition held_unlisted : St := mkSt (self loaded_once) empty_world.

(** A model with [encode_corpus], and one that returns a single embedding
    whatever the size of the batch. *)
Definition corpus_model : @Model string Z :=
  mkModel (Some (fun batch _ => map (fun p => [7]) batch))
          (fun batch _ => map (fun p => [Z.of_nat (String.length p); 1]) batch).
Definition lossy_model : @Model string Z :=
  mkModel None (fun batch _ => [[0]]).

(** A service that answers a match call with no list at all. *)
Definition no_response : string -> list (list Z) -> Z -> list (list (@MatchNeighbor Z)) :=
  fun _ _ _ => [].

(** Three candidates, two of them at the same distance, and a second
    query's candidates. *)
Definition tied_neighbors : string -> list (list Z) -> Z -> list (list (@MatchNeighbor Z)) :=
  fun _ _ _ => [[mkNeighbor (KStr "1") 4; mkNeighbor (KStr "2") 9; mkNeighbor (KStr "3") 4];
                [mkNeighbor (KStr "5") 1]].

(** A client that holds both handles, and the same client after the
    endpoint resource was removed from the service. *)
Definition serving_client
    (backend : string -> list (list Z) -> Z -> list (list MatchNeighbor)) : St :=
  snd (load_endpoint str_int (fresh (serving_world backend))).
(** New clients around the two other models. *)
Definition corpus_client : St :=
  __init__ name_as_path 2 "org/model" corpus_model empty_world.
Definition lossy_client : St :=
  __init__ name_as_path 2 "org/model" lossy_model empty_world.

Definition held_endpoint_unlisted : St :=
  mkSt (self (serving_client two_neighbors))
       (mkWorld [the_index] [] two_neighbors corpus10 ∅ ∅ [] []).

(** A new client where the corpus is empty and no staging file exists,
    the service knowing neither the index nor the endpoint. *)
Definition no_corpus_world : @World string Z Z :=
  mkWorld [] [] two_neighbors [] ∅ ∅ [] [].
Definition fresh_no_corpus : St := fresh no_corpus_world.

(** A batch size beyond the range of a float's exponent. *)
Definition huge_batch_size : Z := 2 ^ 1100.

End Sample.
(** * Properties *)

(** ** Strings and JSON text *)

Lemma sapp_assoc (a b c : string) : (a +:+ b) +:+ c = a +:+ (b +:+ c).
Proof. induction a as [|x a IH]; [done|]. unfold String.app in *. simpl. by rewrite IH. Qed.

Lemma sapp_nil_r (a : string) : a +:+ EmptyString = a.
Proof. induction a as [|x a IH]; [done|]. unfold String.app in *. simpl. by rewrite IH. Qed.

Lemma concat_empty_cons (x : string) (l : list string) :
  String.concat EmptyString (x :: l) = x +:+ String.concat EmptyString l.
Proof. destruct l; simpl; [by rewrite sapp_nil_r|done]. Qed.

Lemma sapp_cons (c : ascii) (a b : string) : String c a +:+ b = String c (a +:+ b).
Proof. reflexivity. Qed.
Lemma json_escape_uint (d : Decimal.uint) :
  json_escape (NilEmpty.string_of_uint d) = NilEmpty.string_of_uint d.
Proof.
  induction d; simpl; [done|..]; rewrite IHd; reflexivity.
Qed.

Lemma json_escape_str_int (z : Z) : json_escape (str_int z) = str_int z.
Proof.
  unfold str_int, NilZero.string_of_int, NilZero.string_of_uint.
  destruct (Z.to_int z) as [d|d]; destruct d; simpl; rewrite ?json_escape_uint; try reflexivity.
Qed.

Lemma str_int_inj (a b : Z) : str_int a = str_int b -> a = b.
Proof.
  unfold str_int. intros H.
  assert (Hn : forall z, Z.to_int z <> Decimal.Pos Decimal.Nil
                         /\ Z.to_int z <> Decimal.Neg Decimal.Nil).
  { intros [|p|p]; simpl; split; try discriminate;
      intros [= E]; by apply Unsigned.to_uint_nonnil in E. }
  apply DecimalZ.to_int_inj.
  assert (E : Some (Z.to_int a) = Some (Z.to_int b)); [|by injection E].
  rewrite <- (NilZero.isi (Z.to_int a)), <- (NilZero.isi (Z.to_int b));
    try apply Hn. by rewrite H.
Qed.

Example str_int_examples : str_int 0 = "0" /\ str_int 42 = "42" /\ str_int (-7) = "-7".
Proof. repeat split. Qed.

Lemma one_line_app (a b : string) : one_line (a +:+ b) = one_line a && one_line b.
Proof.
  induction a as [|c a IH]; [done|].
  rewrite sapp_cons. unfold one_line in *. simpl. by rewrite IH, andb_assoc.
Qed.

Lemma one_line_escape_char (c : ascii) : one_line (json_escape_char c) = true.
Proof. destruct c as [[] [] [] [] [] [] [] []]; vm_compute; reflexivity. Qed.

Lemma one_line_escape (s : string) : one_line (json_escape s) = true.
Proof.
  induction s as [|c s IH]; [done|].
  simpl. by rewrite one_line_app, one_line_escape_char, IH.
Qed.

Lemma one_line_quoted (s : string) : one_line (quoted s) = one_line s.
Proof.
  unfold quoted. change (String dquote ?x) with (str1 dquote +:+ x).
  rewrite !one_line_app. change (one_line (str1 dquote)) with true.
  simpl. by rewrite andb_true_r.
Qed.

Lemma one_line_concat (sep : string) (l : list string) :
  one_line sep = true -> Forall (fun x => one_line x = true) l ->
  one_line (String.concat sep l) = true.
Proof.
  intros Hsep Hl. induction Hl as [|x l Hx Hl IH]; [done|].
  simpl. destruct l as [|y l]; [done|].
  by rewrite !one_line_app, Hx, Hsep, IH.
Qed.

(** ** The float quotient and the number of batches *)

Lemma ceil_div_bounds (N B : Z) :
  0 < B -> N <= ceil_div N B * B < N + B.
Proof.
  intros HB. unfold ceil_div.
  pose proof (Z.div_mod (- N) B ltac:(lia)) as Hdm.
  pose proof (Z.mod_pos_bound (- N) B HB) as Hm.
  nia.
Qed.

Lemma ceil_div_nonneg (N B : Z) : 0 < B -> 0 <= N -> 0 <= ceil_div N B.
Proof. intros HB HN. pose proof (ceil_div_bounds N B HB). nia. Qed.

Lemma ceil_div_unique (N B k : Z) :
  0 < B -> (k - 1) * B < N <= k * B -> ceil_div N B = k.
Proof.
  intros HB Hk. pose proof (ceil_div_bounds N B HB). nia.
Qed.

(** The exponent chosen for a quotient is not above the quotient. *)
Lemma quotient_exponent_le (a b : Z) :
  0 < a -> 0 < b ->
  b * 2 ^ Z.max (quotient_exponent a b) 0 <= a * 2 ^ Z.max (- quotient_exponent a b) 0.
Proof.
  intros Ha Hb. unfold quotient_exponent.
  destruct (Z.leb_spec (b * 2 ^ Z.max (Z.log2 a - Z.log2 b) 0)
                       (a * 2 ^ Z.max (- (Z.log2 a - Z.log2 b)) 0)) as [H|_]; [exact H|].
  destruct (Z.log2_spec a Ha) as [Ha1 _]. destruct (Z.log2_spec b Hb) as [_ Hb2].
  pose proof (Z.log2_nonneg a) as Hla. pose proof (Z.log2_nonneg b) as Hlb.
  set (la := Z.log2 a) in *. set (lb := Z.log2 b) in *.
  destruct (Z.le_gt_cases (la - lb - 1) 0) as [Hl|Hl].
  - rewrite Z.max_r by lia. rewrite Z.pow_0_r, Z.mul_1_r.
    rewrite Z.max_l by lia.
    assert (E : 2 ^ la * 2 ^ (- (la - lb - 1)) = 2 ^ Z.succ lb).
    { rewrite <- Z.pow_add_r by lia. f_equal. lia. }
    assert (0 < 2 ^ (- (la - lb - 1))) by (apply Z.pow_pos_nonneg; lia).
    nia.
  - rewrite Z.max_l by lia. rewrite (Z.max_r (- _)) by lia. rewrite Z.pow_0_r, Z.mul_1_r.
    assert (E : 2 ^ Z.succ lb * 2 ^ (la - lb - 1) = 2 ^ la).
    { rewrite <- Z.pow_add_r by lia. f_equal. lia. }
    assert (0 < 2 ^ (la - lb - 1)) by (apply Z.pow_pos_nonneg; lia).
    nia.
Qed.

(** And it is the largest such exponent. *)
Lemma quotient_exponent_lt (a b : Z) :
  0 < a -> 0 < b ->
  a * 2 ^ Z.max (- (quotient_exponent a b + 1)) 0
  < b * 2 ^ Z.max (quotient_exponent a b + 1) 0.
Proof.
  intros Ha Hb. unfold quotient_exponent.
  destruct (Z.leb_spec (b * 2 ^ Z.max (Z.log2 a - Z.log2 b) 0)
                       (a * 2 ^ Z.max (- (Z.log2 a - Z.log2 b)) 0)) as [_|H].
  - destruct (Z.log2_spec a Ha) as [_ Ha2]. destruct (Z.log2_spec b Hb) as [Hb1 _].
    pose proof (Z.log2_nonneg a) as Hla. pose proof (Z.log2_nonneg b) as Hlb.
    set (la := Z.log2 a) in *. set (lb := Z.log2 b) in *.
    destruct (Z.le_gt_cases 0 (la - lb + 1)) as [Hl|Hl].
    + rewrite Z.max_r by lia. rewrite Z.pow_0_r, Z.mul_1_r. rewrite Z.max_l by lia.
      assert (E : 2 ^ lb * 2 ^ (la - lb + 1) = 2 ^ Z.succ la).
      { rewrite <- Z.pow_add_r by lia. f_equal; lia. }
      assert (0 < 2 ^ (la - lb + 1)) by (apply Z.pow_pos_nonneg; lia).
      nia.
    + rewrite Z.max_l by lia. rewrite (Z.max_r (_ + 1)) by lia. rewrite Z.pow_0_r, Z.mul_1_r.
      assert (E : 2 ^ Z.succ la * 2 ^ (- (la - lb + 1)) = 2 ^ lb).
      { rewrite <- Z.pow_add_r by lia. f_equal; lia. }
      assert (0 < 2 ^ (- (la - lb + 1))) by (apply Z.pow_pos_nonneg; lia).
      nia.
  - replace (Z.log2 a - Z.log2 b - 1 + 1) with (Z.log2 a - Z.log2 b) by lia. exact H.
Qed.

Lemma round_half_even_cases (n d : Z) :
  round_half_even n d = n / d
  \/ (round_half_even n d = n / d + 1 /\ d <= 2 * (n mod d)).
Proof.
  unfold round_half_even.
  destruct (Z.ltb_spec (2 * (n mod d)) d); [auto|].
  destruct (Z.ltb_spec d (2 * (n mod d))); [right; lia|].
  destruct (Z.even (n / d)); [auto|right; lia].
Qed.

Lemma round_half_even_up (n d : Z) :
  d < 2 * (n mod d) -> round_half_even n d = n / d + 1.
Proof.
  intros H. unfold round_half_even.
  destruct (Z.ltb_spec (2 * (n mod d)) d); [lia|].
  destruct (Z.ltb_spec d (2 * (n mod d))); [done|lia].
Qed.

Lemma round_half_even_ge (n d : Z) : 0 < d -> n / d <= round_half_even n d.
Proof. intros Hd. destruct (round_half_even_cases n d) as [->|[-> _]]; lia. Qed.

Lemma round_half_even_nonneg (n d : Z) : 0 <= n -> 0 < d -> 0 <= round_half_even n d.
Proof.
  intros Hn Hd. pose proof (round_half_even_ge n d Hd).
  pose proof (Z.div_pos n d Hn Hd). lia.
Qed.

Lemma round_half_even_pos (n d : Z) : 0 < d <= n -> 0 < round_half_even n d.
Proof.
  intros Hd. pose proof (round_half_even_ge n d ltac:(lia)).
  assert (1 <= n / d); [|lia]. apply Z.div_le_lower_bound; lia.
Qed.

(** Rounding the quotient at a grid finer than half the divisor does not
    move it across an integer. *)
Lemma ceil_div_round_half_even (a b T : Z) :
  0 <= a -> 0 < b -> 0 < T -> b < 2 * T ->
  ceil_div (round_half_even (a * T) b) T = ceil_div a b.
Proof.
  intros Ha Hb HT HbT.
  pose proof (ceil_div_bounds a b Hb) as Hk.
  set (k := ceil_div a b) in *.
  apply ceil_div_unique; [done|].
  pose proof (Z.div_mod (a * T) b ltac:(lia)) as Hdm.
  pose proof (Z.mod_pos_bound (a * T) b Hb) as Hr.
  pose proof (round_half_even_cases (a * T) b) as Hcases.
  pose proof (round_half_even_up (a * T) b) as Hup.
  pose proof (round_half_even_ge (a * T) b Hb) as Hge.
  remember (a * T / b) as q eqn:Eq. remember ((a * T) mod b) as r eqn:Er.
  remember (round_half_even (a * T) b) as m eqn:Em.
  clear Eq Er Em.
  assert (Hq1 : (k - 1) * T <= q) by nia.
  assert (Hq2 : q <= k * T) by nia.
  split.
  - destruct (Z.le_gt_cases q ((k - 1) * T)) as [Hle|Hgt]; [|lia].
    assert (Hq : q = (k - 1) * T) by lia.
    rewrite Hup; nia.
  - destruct Hcases as [->|[-> Hhalf]]; [lia|]. nia.
Qed.

Lemma int_true_div_nonzero (a b : Z) :
  b <> 0 -> exists x, int_true_div a b = inr x /\ n_batch a b = math_ceil x.
Proof.
  intros Hb. unfold n_batch, int_true_div.
  destruct (Z.eqb_spec b 0); [done|]. destruct (a =? 0); eauto.
Qed.

Lemma n_batch_zero (b : Z) : b <> 0 -> n_batch 0 b = 0.
Proof.
  intros Hb. unfold n_batch, int_true_div. by destruct (Z.eqb_spec b 0).
Qed.

(** A negative batch size gives no batch. *)
Lemma n_batch_nonpos (a b : Z) : 0 <= a -> b < 0 -> n_batch a b <= 0.
Proof.
  intros Ha Hb. unfold n_batch, int_true_div.
  destruct (Z.eqb_spec b 0); [lia|].
  destruct (Z.eqb_spec a 0) as [->|Hne]; [done|].
  unfold math_ceil, pos_true_div, ceil_div. cbn [mantissa exponent].
  set (s := Z.max _ (-1074)).
  assert (Hm : 0 <= round_half_even (Z.abs a * 2 ^ Z.max (- s) 0) (Z.abs b * 2 ^ Z.max s 0)).
  { assert (0 < 2 ^ Z.max (- s) 0) by (apply Z.pow_pos_nonneg; lia).
    assert (0 < 2 ^ Z.max s 0) by (apply Z.pow_pos_nonneg; lia).
    apply round_half_even_nonneg; nia. }
  assert (Hp : 0 < 2 ^ Z.max s 0) by (apply Z.pow_pos_nonneg; lia).
  assert (Hp' : 0 < 2 ^ Z.max (- s) 0) by (apply Z.pow_pos_nonneg; lia).
  assert (0 <= - (Z.sgn a * Z.sgn b * round_half_even (Z.abs a * 2 ^ Z.max (- s) 0)
                                         (Z.abs b * 2 ^ Z.max s 0) * 2 ^ Z.max s 0)
               / 2 ^ Z.max (- s) 0); [|lia].
  apply Z.div_pos; [|done].
  rewrite (Z.sgn_pos a), (Z.sgn_neg b) by lia. nia.
Qed.

(** A corpus that is not empty gives at least one batch, unless the batch
    size is beyond the smallest positive float. *)
Lemma n_batch_pos (a b : Z) : 0 < a -> 0 < b <= 2 ^ 1074 -> 0 < n_batch a b.
Proof.
  intros Ha Hb. unfold n_batch, int_true_div.
  destruct (Z.eqb_spec b 0); [lia|]. destruct (Z.eqb_spec a 0); [lia|].
  rewrite (Z.abs_eq a), (Z.abs_eq b), (Z.sgn_pos a), (Z.sgn_pos b) by lia.
  pose proof (quotient_exponent_le a b Ha ltac:(lia)) as He.
  unfold math_ceil, pos_true_div. cbn [mantissa exponent].
  set (e := quotient_exponent a b) in *. set (s := Z.max (e - 52) (-1074)).
  assert (Hp : 0 < 2 ^ Z.max s 0) by (apply Z.pow_pos_nonneg; lia).
  assert (Hp' : 0 < 2 ^ Z.max (- s) 0) by (apply Z.pow_pos_nonneg; lia).
  assert (Hm : 0 < round_half_even (a * 2 ^ Z.max (- s) 0) (b * 2 ^ Z.max s 0)).
  { apply round_half_even_pos. split; [nia|].
    destruct (Z.le_gt_cases s 0) as [Hs|Hs].
    - rewrite (Z.max_r s) by lia. rewrite Z.pow_0_r, Z.mul_1_r.
      rewrite Z.max_l by lia.
      destruct (Z.le_gt_cases (e - 52) (-1074)) as [Hc|Hc].
      + replace s with (-1074) by lia. change (- -1074) with 1074. nia.
      + replace s with (e - 52) by lia.
        destruct (Z.le_gt_cases 0 e) as [He0|He0].
        * rewrite Z.max_l, (Z.max_r (- e)) in He by lia.
          rewrite Z.pow_0_r, Z.mul_1_r in He.
          assert (0 < 2 ^ e) by (apply Z.pow_pos_nonneg; lia).
          assert (0 < 2 ^ (- (e - 52))) by (apply Z.pow_pos_nonneg; lia). nia.
        * rewrite Z.max_r, (Z.max_l (- e)) in He by lia.
          rewrite Z.pow_0_r, Z.mul_1_r in He.
          assert (2 ^ (- e) <= 2 ^ (- (e - 52))) by (apply Z.pow_le_mono_r; lia).
          nia.
    - rewrite (Z.max_l s) by lia. rewrite (Z.max_r (- s)) by lia.
      rewrite Z.pow_0_r, Z.mul_1_r.
      assert (Hs' : s = e - 52) by lia. rewrite Hs'.
      rewrite Z.max_l, (Z.max_r (- e)) in He by lia.
      rewrite Z.pow_0_r, Z.mul_1_r in He.
      assert (2 ^ (e - 52) <= 2 ^ e) by (apply Z.pow_le_mono_r; lia).
      assert (0 < 2 ^ (e - 52)) by (apply Z.pow_pos_nonneg; lia). nia. }
  pose proof (ceil_div_bounds
                (1 * 1 * round_half_even (a * 2 ^ Z.max (- s) 0) (b * 2 ^ Z.max s 0)
                 * 2 ^ Z.max s 0) (2 ^ Z.max (- s) 0) Hp') as Hc.
  nia.
Qed.

(** Where the float quotient is exact enough: below 2^53 passages and a
    batch size below 2^1075, the number of batches is the ceiling of the
    exact quotient. *)
Lemma n_batch_exact (a b : Z) :
  0 <= a < 2 ^ 53 -> 0 < b < 2 ^ 1075 -> n_batch a b = ceil_div a b.
Proof.
  intros Ha Hb. unfold n_batch, int_true_div.
  destruct (Z.eqb_spec b 0); [lia|].
  destruct (Z.eqb_spec a 0) as [->|Hne]; [done|].
  rewrite (Z.abs_eq a), (Z.abs_eq b), (Z.sgn_pos a), (Z.sgn_pos b) by lia.
  pose proof (quotient_exponent_le a b ltac:(lia) ltac:(lia)) as He.
  unfold math_ceil, pos_true_div. cbn [mantissa exponent].
  set (e := quotient_exponent a b) in *. set (s := Z.max (e - 52) (-1074)).
  assert (H53 : 0 < 2 ^ 53) by (apply Z.pow_pos_nonneg; lia).
  assert (He52 : e <= 52).
  { destruct (Z.le_gt_cases e 52) as [|Hgt]; [done|]. exfalso.
    rewrite Z.max_l, (Z.max_r (- e)) in He by lia.
    rewrite Z.pow_0_r, Z.mul_1_r in He.
    assert (2 ^ 53 <= 2 ^ e) by (apply Z.pow_le_mono_r; lia). nia. }
  assert (Hs : s <= 0) by lia.
  rewrite (Z.max_r s), (Z.max_l (- s)) by lia.
  rewrite Z.pow_0_r, !Z.mul_1_r, !Z.mul_1_l.
  assert (HT : 0 < 2 ^ (- s)) by (apply Z.pow_pos_nonneg; lia).
  apply ceil_div_round_half_even; [lia|lia|done|].
  destruct (Z.le_gt_cases (e - 52) (-1074)) as [Hc|Hc].
  - replace s with (-1074) by lia. change (- -1074) with 1074.
    change 1075 with (Z.succ 1074) in Hb. rewrite Z.pow_succ_r in Hb by lia. lia.
  - replace s with (e - 52) by lia.
    assert (E : 2 * 2 ^ (- (e - 52)) = 2 ^ (53 - e)).
    { rewrite <- Z.pow_succ_r by lia. f_equal. lia. }
    rewrite E.
    destruct (Z.le_gt_cases 0 e) as [He0|He0].
    + rewrite Z.max_l, (Z.max_r (- e)) in He by lia.
      rewrite Z.pow_0_r, Z.mul_1_r in He.
      assert (E2 : 2 ^ e * 2 ^ (53 - e) = 2 ^ 53).
      { rewrite <- Z.pow_add_r by lia. f_equal. lia. }
      assert (0 < 2 ^ e) by (apply Z.pow_pos_nonneg; lia). nia.
    + rewrite Z.max_r, (Z.max_l (- e)) in He by lia.
      rewrite Z.pow_0_r, Z.mul_1_r in He.
      assert (E2 : 2 ^ 53 * 2 ^ (- e) = 2 ^ (53 - e)).
      { rewrite <- Z.pow_add_r by lia. reflexivity. }
      assert (0 < 2 ^ (- e)) by (apply Z.pow_pos_nonneg; lia). nia.
Qed.

(** Beyond that it is not: a batch size of 2^1100 gives no batch at all,
    and a corpus of 2^53 + 1 passages cut into batches of one has one batch
    too few. *)
Example n_batch_underflow :
  n_batch 10 Sample.huge_batch_size = 0 /\ ceil_div 10 Sample.huge_batch_size = 1.
Proof. split; vm_compute; reflexivity. Qed.

Example n_batch_long_corpus : n_batch (2 ^ 53 + 1) 1 = 2 ^ 53.
Proof. vm_compute. reflexivity. Qed.

(** Some quotients as Python computes them: [10 / 4 = 2.5],
    [1 / 3 = 6004799503160661 * 2^-54], the smallest positive float for
    [1 / (2^1075 - 1)], and [0.0] for the tie [1 / 2^1075]. *)
Example int_true_div_examples :
  int_true_div 10 4 = inr (mkFloat (5 * 2 ^ 50) (-51))
  /\ int_true_div 1 3 = inr (mkFloat 6004799503160661 (-54))
  /\ int_true_div 10 (-4) = inr (mkFloat (- (5 * 2 ^ 50)) (-51))
  /\ int_true_div 1 (2 ^ 1075 - 1) = inr (mkFloat 1 (-1074))
  /\ int_true_div 1 (2 ^ 1075) = inr (mkFloat 0 (-1074))
  /\ int_true_div 10 0 = inl ZeroDivisionError.
Proof. repeat split; vm_compute; reflexivity. Qed.

Example n_batch_examples :
  n_batch 10 4 = 3 /\ n_batch 10 512 = 1 /\ n_batch 0 512 = 0 /\ n_batch 10 (-4) = -2
  /\ n_batch 1 (2 ^ 1075 - 1) = 1 /\ n_batch 1 (2 ^ 1075) = 0.
Proof. repeat split; vm_compute; reflexivity. Qed.

(** ** The client *)

Section Properties.
Context {Passage Value Distance : Type}.
Variable str_value : Value -> string.
Variable dist_ltb : Distance -> Distance -> bool.
Variable model_name_as_path : string -> string.

Local Abbreviation St := (@St Passage Value Distance).
Local Abbreviation World := (@World Passage Value Distance).
Local Abbreviation Model := (@Model Passage Value).
Local Abbreviation Event := (@Event Passage Value).
Local Abbreviation VertexIndex := (@VertexIndex Passage Value).
Local Abbreviation MatchNeighbor := (@MatchNeighbor Distance).
Local Abbreviation Embedding := (@Embedding Value).
Local Abbreviation M := (@M Passage Value Distance).

(** Runs the monad's plumbing on the goal and leaves the calls of methods
    and of the service as they are. *)
Ltac run :=
  cbv beta iota zeta delta
    [bind ret raise get put emit logger_info modify_self modify_world];
  cbn [self world].

(** *** Runs of the pipeline and of the index loader *)

Ltac unfold_monad :=
  unfold bind, ret, raise, get, put, emit, logger_info, modify_self, modify_world in *.

Lemma filter_nil_iff (name : string) (l : list MatchingEngineIndex) :
  List.filter (fun i => String.eqb (display_name i) name) l = [] <->
  forall i, In i l -> display_name i <> name.
Proof.
  induction l as [|a l IH]; simpl.
  - split; [intros _ i []|done].
  - destruct (String.eqb_spec (display_name a) name) as [E|E].
    + split; [done|]. intros H. exfalso. apply (H a); auto.
    + rewrite IH. split.
      * intros H i [<-|Hi]; auto.
      * intros H i Hi. apply H. auto.
Qed.

Lemma find_some_listed (name : string) (l : list MatchingEngineIndex) :
  (exists i, In i l /\ display_name i = name) ->
  exists found, List.find (fun i => String.eqb (display_name i) name) l = Some found
                /\ In found l /\ display_name found = name.
Proof.
  induction l as [|a l IH]; simpl.
  - intros (i & [] & _).
  - intros (i & Hi & Hn).
    destruct (String.eqb_spec (display_name a) name) as [E|E].
    + exists a. auto.
    + destruct Hi as [->|Hi]; [done|].
      destruct IH as (f & Hf & Hin & Hd); [eauto|]. exists f. auto.
Qed.

Lemma find_app_absent (name : string) (l : list MatchingEngineIndex) (x : MatchingEngineIndex) :
  (forall i, In i l -> display_name i <> name) ->
  display_name x = name ->
  List.find (fun i => String.eqb (display_name i) name) (l ++ [x]) = Some x.
Proof.
  intros Hl Hx. induction l as [|a l IH]; simpl.
  - by rewrite Hx, String.eqb_refl.
  - destruct (String.eqb_spec (display_name a) name) as [E|E].
    + exfalso. apply (Hl a); simpl; auto.
    + apply IH. intros i Hi. apply Hl. simpl; auto.
Qed.

Lemma index_listed_dec (name : string) (w : World) :
  index_listed name w \/ ~ index_listed name w.
Proof.
  destruct (List.filter (fun i => String.eqb (display_name i) name) (indexes w)) as [|x xs] eqn:E.
  - right. intros (i & Hi & Hd). rewrite filter_nil_iff in E. by apply (E i).
  - left. exists x. assert (Hx : In x (x :: xs)) by (simpl; auto).
    rewrite <- E in Hx. apply filter_In in Hx as [Hin Heq].
    split; [done|]. by apply String.eqb_eq.
Qed.

Lemma load_index_present (s : St) :
  index_listed (index_name (self s)) (world s) ->
  exists found s',
    load_index str_value s = (inr tt, s')
    /\ List.find (fun i => String.eqb (display_name i) (index_name (self s)))
                 (indexes (world s)) = Some found
    /\ In found (indexes (world s)) /\ display_name found = index_name (self s)
    /\ self s' = set_index (Some found) (self s)
    /\ trace (world s') = trace (world s) ++
         [EvListIndexes ("display_name=" +:+ index_name (self s)); EvGetIndex (index_name (self s))]
    /\ indexes (world s') = indexes (world s)
    /\ endpoints (world s') = endpoints (world s)
    /\ files (world s') = files (world s)
    /\ bucket (world s') = bucket (world s)
    /\ corpus (world s') = corpus (world s)
    /\ match_backend (world s') = match_backend (world s).
Proof.
  intros Hl.
  destruct (find_some_listed _ _ Hl) as (found & Hfind & Hin & Hd).
  assert (Hne : List.filter (fun i => String.eqb (display_name i) (index_name (self s)))
                  (indexes (world s)) <> []).
  { intros E. rewrite filter_nil_iff in E. by apply (E found). }
  exists found.
  unfold load_index, _index_exists, list_indexes, get_index, index_attr.
  unfold_monad. simpl.
  destruct (List.filter _ _) as [|x xs] eqn:E; [done|]. simpl.
  rewrite Hfind. simpl. eexists. split; [reflexivity|]. simpl.
  rewrite <- app_assoc. simpl. repeat split; auto.
Qed.


Lemma encode_batch_run (passages : list Passage) (B i total : Z) (s : St) :
  exists total' s',
    encode_batch str_value passages B i total s = (inr total', s')
    /\ self s' = self s
    /\ trace (world s') = trace (world s) ++ batch_events str_value (model (self s)) passages B i
    /\ read_file TMP_FILE_PATH (world s') =
         read_file TMP_FILE_PATH (world s) +:+ lines_of (batch_records str_value (model (self s)) passages B i)
    /\ bucket (world s') = bucket (world s)
    /\ indexes (world s') = indexes (world s)
    /\ same_remote (world s) (world s').
Proof.
  unfold encode_batch, _write_embeddings_to_tmp_file, batch_events, batch_records,
    encode_event, encoder, same_remote.
  unfold_monad.
  destruct (encode_corpus (model (self s))) as [f|]; simpl;
    destruct ((i mod 500 =? 0) && (0 <? i)); simpl;
    (do 2 eexists; split; [reflexivity|]; simpl;
     rewrite <- app_assoc; simpl; unfold read_file at 1; simpl;
     rewrite lookup_insert_eq; simpl; auto 10).
Qed.

Lemma for_each_encode_batch (passages : list Passage) (B : Z) (batches : list Z) :
  forall (total : Z) (s : St),
  exists total' s',
    for_each batches total (encode_batch str_value passages B) s = (inr total', s')
    /\ self s' = self s
    /\ trace (world s') =
         trace (world s) ++ flat_map (batch_events str_value (model (self s)) passages B) batches
    /\ read_file TMP_FILE_PATH (world s') =
         read_file TMP_FILE_PATH (world s)
         +:+ String.concat EmptyString
               (map (fun i => lines_of (batch_records str_value (model (self s)) passages B i)) batches)
    /\ bucket (world s') = bucket (world s)
    /\ indexes (world s') = indexes (world s)
    /\ same_remote (world s) (world s').
Proof.
  induction batches as [|i batches IH]; intros total s.
  - exists total, s. simpl. rewrite app_nil_r, sapp_nil_r. unfold same_remote. auto 10.
  - destruct (encode_batch_run passages B i total s)
      as (t1 & s1 & Hrun & Hself & Htr & Hfile & Hb & Hr1 & Hr2 & Hr3 & Hr4).
    destruct (IH t1 s1) as (t2 & s2 & Hrun2 & Hself2 & Htr2 & Hfile2 & Hb2 & Hq1 & Hq2 & Hq3 & Hq4).
    exists t2, s2. simpl for_each. unfold bind at 1. rewrite Hrun, Hrun2.
    rewrite Hself in *. split; [done|]. split; [congruence|].
    split. { rewrite Htr2, Htr. simpl flat_map. by rewrite <- app_assoc. }
    split. { rewrite Hfile2, Hfile. simpl map. rewrite concat_empty_cons.
             by rewrite sapp_assoc. }
    unfold same_remote. split; [congruence|]. repeat split; congruence.
Qed.

Lemma _write_embeddings_run (B : Z) (s : St) :
  B <> 0 ->
  exists s',
    _write_embeddings str_value B s = (inr tt, s')
    /\ self s' = set_doc_map (enumerated (corpus (world s))) (self s)
    /\ trace (world s') =
         trace (world s) ++ pipeline_events str_value (model (self s)) (corpus (world s)) B
    /\ read_file TMP_FILE_PATH (world s') =
         read_file TMP_FILE_PATH (world s) +:+ staged_text str_value (model (self s)) (corpus (world s)) B
    /\ bucket (world s') = bucket (world s)
    /\ indexes (world s') = indexes (world s)
    /\ same_remote (world s) (world s').
Proof.
  intros HB. unfold _write_embeddings.
  destruct (int_true_div_nonzero (len (corpus (world s))) B HB) as (x & Hx & Hn).
  run. cbn [corpus add_event]. rewrite Hx, <- Hn. cbv beta iota.
  match goal with |- context [for_each _ _ _ ?st] => set (s0 := st) end.
  destruct (for_each_encode_batch (corpus (world s)) B
              (range 0 (n_batch (len (corpus (world s))) B)) 0 s0)
    as (t & s1 & Hrun & Hself & Htr & Hfile & Hb & Hi & Hr1 & Hr2 & Hr3).
  rewrite Hrun.
  eexists. split; [reflexivity|]. cbn [self world].
  subst s0. simpl in *. rewrite Hself, Htr, Hb, Hi. unfold same_remote. simpl.
  rewrite <- app_assoc. simpl. repeat split; auto.
Qed.

(** The staging file along a run: it exists after the first batch, and no
    other file is written. *)
Lemma encode_batch_files (passages : list Passage) (B i total : Z) (s : St) :
  exists total' s',
    encode_batch str_value passages B i total s = (inr total', s')
    /\ is_Some (files (world s') !! TMP_FILE_PATH)
    /\ (forall path, path <> TMP_FILE_PATH ->
        files (world s') !! path = files (world s) !! path).
Proof.
  unfold encode_batch, _write_embeddings_to_tmp_file. run.
  destruct (encode_corpus (model (self s))) as [f|]; simpl;
    destruct ((i mod 500 =? 0) && (0 <? i)); simpl;
    (do 2 eexists; split; [reflexivity|]; simpl; split;
     [rewrite lookup_insert_eq; eauto|intros path Hp; by rewrite lookup_insert_ne]).
Qed.

Lemma for_each_files (passages : list Passage) (B : Z) (batches : list Z) :
  forall (total : Z) (s : St),
  exists total' s',
    for_each batches total (encode_batch str_value passages B) s = (inr total', s')
    /\ (batches <> [] \/ is_Some (files (world s) !! TMP_FILE_PATH) ->
        is_Some (files (world s') !! TMP_FILE_PATH))
    /\ (batches = [] -> files (world s') = files (world s))
    /\ (forall path, path <> TMP_FILE_PATH ->
        files (world s') !! path = files (world s) !! path).
Proof.
  induction batches as [|i batches IH]; intros total s.
  - exists total, s. simpl. split; [done|]. split; [by intros [?|?]|done].
  - destruct (encode_batch_files passages B i total s) as (t1 & s1 & Hrun & Hex & Hoth).
    destruct (IH t1 s1) as (t2 & s2 & Hrun2 & Hex2 & _ & Hoth2).
    exists t2, s2. simpl for_each. unfold bind at 1. rewrite Hrun, Hrun2.
    split; [done|]. split; [intros _; apply Hex2; by right|]. split; [done|].
    intros path Hp. by rewrite Hoth2, Hoth.
Qed.

Lemma range_n_batch_nonempty {A} (l : list A) (B : Z) :
  0 < B <= 2 ^ 1074 -> l <> [] -> range 0 (n_batch (len l) B) <> [].
Proof.
  intros HB Hl Hnil.
  assert (Hlen : 0 < len l) by (destruct l; [done|unfold len; simpl; lia]).
  pose proof (n_batch_pos (len l) B Hlen HB) as Hpos.
  apply (f_equal (@length _)) in Hnil. unfold range in Hnil.
  rewrite length_seqZ in Hnil. simpl in Hnil. lia.
Qed.

Lemma _write_embeddings_files (B : Z) (s : St) :
  0 < B <= 2 ^ 1074 ->
  (corpus (world s) <> [] \/ is_Some (files (world s) !! TMP_FILE_PATH) ->
   is_Some (files (world (snd (_write_embeddings str_value B s))) !! TMP_FILE_PATH))
  /\ (corpus (world s) = [] ->
      files (world (snd (_write_embeddings str_value B s))) = files (world s))
  /\ (forall path, path <> TMP_FILE_PATH ->
      files (world (snd (_write_embeddings str_value B s))) !! path
      = files (world s) !! path).
Proof.
  intros HB. unfold _write_embeddings.
  destruct (int_true_div_nonzero (len (corpus (world s))) B ltac:(lia)) as (x & Hx & Hn).
  run. cbn [corpus add_event]. rewrite Hx, <- Hn. cbv beta iota.
  match goal with |- context [for_each _ _ _ ?st] => set (s0 := st) end.
  destruct (for_each_files (corpus (world s)) B
              (range 0 (n_batch (len (corpus (world s))) B)) 0 s0)
    as (t & s1 & Hrun & Hex & Hsame & Hoth).
  rewrite Hrun. simpl files. split; [|split].
  - intros [Hc|Hf]; apply Hex.
    + left. by apply range_n_batch_nonempty.
    + right. exact Hf.
  - intros Hc. rewrite Hsame; [done|].
    rewrite Hc. change (len (@nil Passage)) with 0. by rewrite n_batch_zero by lia.
  - intros path Hp. by rewrite Hoth.
Qed.



(** [_create_index] where there is a staging file to upload: the corpus
    is not empty, or the file exists already. *)
Lemma _create_index_run (s : St) :
  corpus (world s) <> [] \/ is_Some (files (world s) !! TMP_FILE_PATH) ->
  exists s',
    _create_index str_value s = (inr tt, s')
    /\ self s' = set_doc_map (enumerated (corpus (world s)))
                   (set_index (Some (created_index s)) (self s))
    /\ trace (world s') = trace (world s) ++ creation_events str_value s
    /\ indexes (world s') = indexes (world s) ++ [created_index s]
    /\ read_file TMP_FILE_PATH (world s') =
         read_file TMP_FILE_PATH (world s) +:+ staged_text str_value (model (self s)) (corpus (world s)) 512
    /\ bucket (world s') = <[TMP_FILE_PATH := read_file TMP_FILE_PATH (world s')]> (bucket (world s))
    /\ same_remote (world s) (world s').
Proof.
  intros Hfile.
  unfold _create_index, create_tree_ah_index, index_attr, _upload_embedding_file.
  run. cbn [index set_index].
  match goal with |- context [_write_embeddings _ _ ?st] => set (s0 := st) end.
  destruct (_write_embeddings_run 512 s0 ltac:(done))
    as (s1 & Hrun & Hself & Htr & Hfile1 & Hb & Hi & Hr1 & Hr2 & Hr3).
  destruct (_write_embeddings_files 512 s0 ltac:(split; [done|vm_compute; discriminate]))
    as (Hex & _ & _).
  rewrite Hrun in Hex |- *. destruct (Hex Hfile) as [content Hc]. clear Hex.
  run. cbn [snd] in Hc. cbn [files world add_log]. rewrite Hc. run.
  rewrite Hself. cbn [index set_doc_map set_index].
  eexists. split; [reflexivity|].
  subst s0. unfold read_file in *. simpl in *.
  rewrite Hc in Hfile1. simpl in Hfile1.
  rewrite Htr, Hb, Hi, Hc. simpl. unfold same_remote, creation_events. simpl.
  rewrite <- !app_assoc. simpl. repeat split; auto.
Qed.

(** [_create_index] where there is none: the corpus is empty and the file
    does not exist.  The index is created and bound and the pipeline runs
    without a batch; then the upload raises, before anything is sent. *)
Lemma _create_index_no_file (s : St) :
  corpus (world s) = [] -> files (world s) !! TMP_FILE_PATH = None ->
  exists s',
    _create_index str_value s = (inl (FileNotFoundError TMP_FILE_PATH), s')
    /\ self s' = set_doc_map (enumerated []) (set_index (Some (created_index s)) (self s))
    /\ trace (world s') = trace (world s) ++
         [EvCreateIndex (index_name (self s)) (dim (self s))
            "DOT_PRODUCT_DISTANCE" "SHARD_SIZE_SMALL" "STREAM_UPDATE";
          EvLoadPassages ["corpus.jsonl"]]
    /\ indexes (world s') = indexes (world s) ++ [created_index s]
    /\ files (world s') = files (world s)
    /\ bucket (world s') = bucket (world s)
    /\ same_remote (world s) (world s').
Proof.
  intros Hcorpus Hnone.
  unfold _create_index, create_tree_ah_index, index_attr, _upload_embedding_file.
  run. cbn [index set_index].
  match goal with |- context [_write_embeddings _ _ ?st] => set (s0 := st) end.
  destruct (_write_embeddings_run 512 s0 ltac:(done))
    as (s1 & Hrun & Hself & Htr & _ & Hb & Hi & Hr1 & Hr2 & Hr3).
  destruct (_write_embeddings_files 512 s0 ltac:(split; [done|vm_compute; discriminate]))
    as (_ & Hsame & _).
  rewrite Hrun in Hsame |- *. cbn [snd] in Hsame.
  specialize (Hsame Hcorpus). subst s0. simpl in Hsame, Htr, Hself, Hb, Hi, Hr1, Hr2, Hr3.
  run. cbn [files world add_log]. rewrite Hsame, Hnone.
  eexists. split; [reflexivity|]. simpl.
  rewrite Hself, Htr, Hb, Hi, Hsame, Hcorpus. unfold same_remote, pipeline_events. simpl.
  rewrite <- !app_assoc. simpl. repeat split; auto.
Qed.

Lemma filter_indexes_absent (s : St) :
  ~ index_listed (index_name (self s)) (world s) ->
  List.filter (fun i => String.eqb (display_name i) (index_name (self s)))
              (indexes (world s)) = [].
Proof. intros Hl. apply filter_nil_iff. intros i Hi Hd. apply Hl. by exists i. Qed.

Lemma load_index_absent (s : St) :
  ~ index_listed (index_name (self s)) (world s) ->
  corpus (world s) <> [] \/ is_Some (files (world s) !! TMP_FILE_PATH) ->
  exists s',
    load_index str_value s = (inr tt, s')
    /\ self s' = set_doc_map (enumerated (corpus (world s)))
                   (set_index (Some (created_index s)) (self s))
    /\ trace (world s') =
         trace (world s) ++ EvListIndexes ("display_name=" +:+ index_name (self s))
                         :: creation_events str_value s
    /\ indexes (world s') = indexes (world s) ++ [created_index s]
    /\ read_file TMP_FILE_PATH (world s') =
         read_file TMP_FILE_PATH (world s) +:+ staged_text str_value (model (self s)) (corpus (world s)) 512
    /\ bucket (world s') = <[TMP_FILE_PATH := read_file TMP_FILE_PATH (world s')]> (bucket (world s))
    /\ same_remote (world s) (world s').
Proof.
  intros Hl Hfile. pose proof (filter_indexes_absent s Hl) as Hnil.
  unfold load_index, _index_exists, list_indexes.
  run. cbn [indexes add_event]. rewrite Hnil. cbn [map].
  change (negb (len (@nil string) =? 0)) with false. cbv iota.
  match goal with |- context [_create_index _ ?st] => set (s0 := st) end.
  destruct (_create_index_run s0 Hfile)
    as (s1 & Hrun & Hself & Htr & Hi & Hfile1 & Hb & Hr1 & Hr2 & Hr3).
  exists s1. split; [done|]. subst s0. unfold read_file in *. simpl in *.
  rewrite Htr, <- app_assoc. simpl. unfold same_remote. repeat split; auto.
Qed.

Lemma load_index_absent_no_file (s : St) :
  ~ index_listed (index_name (self s)) (world s) ->
  corpus (world s) = [] -> files (world s) !! TMP_FILE_PATH = None ->
  exists s',
    load_index str_value s = (inl (FileNotFoundError TMP_FILE_PATH), s')
    /\ self s' = set_doc_map (enumerated []) (set_index (Some (created_index s)) (self s))
    /\ trace (world s') = trace (world s) ++
         [EvListIndexes ("display_name=" +:+ index_name (self s));
          EvCreateIndex (index_name (self s)) (dim (self s))
            "DOT_PRODUCT_DISTANCE" "SHARD_SIZE_SMALL" "STREAM_UPDATE";
          EvLoadPassages ["corpus.jsonl"]]
    /\ indexes (world s') = indexes (world s) ++ [created_index s]
    /\ files (world s') = files (world s)
    /\ bucket (world s') = bucket (world s)
    /\ same_remote (world s) (world s').
Proof.
  intros Hl Hcorpus Hnone. pose proof (filter_indexes_absent s Hl) as Hnil.
  unfold load_index, _index_exists, list_indexes.
  run. cbn [indexes add_event]. rewrite Hnil. cbn [map].
  change (negb (len (@nil string) =? 0)) with false. cbv iota.
  match goal with |- context [_create_index _ ?st] => set (s0 := st) end.
  destruct (_create_index_no_file s0 Hcorpus Hnone)
    as (s1 & Hrun & Hself & Htr & Hi & Hf & Hb & Hr1 & Hr2 & Hr3).
  exists s1. split; [done|]. subst s0. simpl in *.
  rewrite Htr, <- app_assoc. simpl. unfold same_remote. repeat split; auto.
Qed.

(** Whether there is a staging file to upload after the pipeline. *)
Lemma staging_file_dec (w : World) :
  (corpus w <> [] \/ is_Some (files w !! TMP_FILE_PATH))
  \/ (corpus w = [] /\ files w !! TMP_FILE_PATH = None).
Proof.
  destruct (corpus w) as [|p l]; [|left; left; done].
  destruct (files w !! TMP_FILE_PATH) as [c|]; [left; right; eauto|right; done].
Qed.

(** *** The sink *)

Lemma json_dumps_embedding_record (i : Z) (e : Embedding) :
  json_dumps (embedding_record str_value i e) = record_text str_value i e.
Proof.
  unfold embedding_record, record_text. cbn [json_dumps map fst snd String.concat].
  rewrite map_map. unfold json_dumps_str at 2. rewrite json_escape_str_int.
  change (json_dumps_str "id") with (quoted "id").
  change (json_dumps_str "embedding") with (quoted "embedding").
  change (fun x => json_dumps (JStr (str_value x)))
    with (fun v => quoted (json_escape (str_value v))).
  change (String dquote (str_int i +:+ str1 dquote)) with (quoted (str_int i)).
  rewrite !sapp_assoc. reflexivity.
Qed.

Lemma one_line_record_text (i : Z) (e : Embedding) :
  one_line (record_text str_value i e) = true.
Proof.
  unfold record_text. rewrite !one_line_app, !one_line_quoted.
  rewrite <- json_escape_str_int, one_line_escape.
  rewrite one_line_concat; [reflexivity|reflexivity|].
  apply Forall_forall. intros x Hx. apply list_elem_of_In, in_map_iff in Hx as (v & <- & _).
  by rewrite one_line_quoted, one_line_escape.
Qed.

(** C8: the sink appends to the staging file one line per pair of
    [zip(indices, embeddings)]; a line is the JSON object with the field
    [id], the decimal string of the index, and the field [embedding], the
    array of the components' texts, followed by the only newline of the
    line.  The file is only ever appended to: a second write of the same
    pairs, and a second run of the whole pipeline, leave both copies. *)
Theorem sink_appends_json_lines (embeddings : list Embedding) (indices : list Z) (s : St) :
  exists s1 s2 s3 s4,
    _write_embeddings_to_tmp_file str_value embeddings indices s = (inr tt, s1)
    /\ read_file TMP_FILE_PATH (world s1)
       = read_file TMP_FILE_PATH (world s)
         +:+ String.concat EmptyString
               (map (fun p => record_text str_value (fst p) (snd p) +:+ str1 newline)
                    (zip indices embeddings))
    /\ (forall i e, one_line (record_text str_value i e) = true)
    /\ _write_embeddings_to_tmp_file str_value embeddings indices s1 = (inr tt, s2)
    /\ read_file TMP_FILE_PATH (world s2)
       = read_file TMP_FILE_PATH (world s)
         +:+ lines_of (map (fun p => embedding_record str_value (fst p) (snd p))
                           (zip indices embeddings))
         +:+ lines_of (map (fun p => embedding_record str_value (fst p) (snd p))
                           (zip indices embeddings))
    /\ _write_embeddings str_value 512 s = (inr tt, s3)
    /\ _write_embeddings str_value 512 s3 = (inr tt, s4)
    /\ read_file TMP_FILE_PATH (world s4)
       = read_file TMP_FILE_PATH (world s)
         +:+ staged_text str_value (model (self s)) (corpus (world s)) 512
         +:+ staged_text str_value (model (self s)) (corpus (world s)) 512.
Proof.
  assert (Hsink : forall st : St,
    _write_embeddings_to_tmp_file str_value embeddings indices st
    = (inr tt, snd (_write_embeddings_to_tmp_file str_value embeddings indices st))
    /\ read_file TMP_FILE_PATH
         (world (snd (_write_embeddings_to_tmp_file str_value embeddings indices st)))
       = read_file TMP_FILE_PATH (world st)
         +:+ lines_of (map (fun p => embedding_record str_value (fst p) (snd p))
                           (zip indices embeddings))).
  { intros st. unfold _write_embeddings_to_tmp_file. run. split; [reflexivity|].
    unfold read_file at 1. simpl. by rewrite lookup_insert_eq. }
  destruct (Hsink s) as [Hr1 Hf1].
  destruct (Hsink (snd (_write_embeddings_to_tmp_file str_value embeddings indices s)))
    as [Hr2 Hf2].
  destruct (_write_embeddings_run 512 s ltac:(done))
    as (s3 & Hr3 & Hself3 & _ & Hf3 & _ & _ & _ & _ & Hc3).
  destruct (_write_embeddings_run 512 s3 ltac:(done)) as (s4 & Hr4 & _ & _ & Hf4 & _).
  eexists _, _, s3, s4.
  split; [exact Hr1|].
  split. { rewrite Hf1. f_equal. unfold lines_of. rewrite map_map. f_equal.
           apply map_ext. intros [i e]. unfold record_line.
           by rewrite json_dumps_embedding_record. }
  split; [apply one_line_record_text|].
  split; [exact Hr2|].
  split. { by rewrite Hf2, Hf1, sapp_assoc. }
  split; [exact Hr3|]. split; [exact Hr4|].
  rewrite Hf4, Hf3, Hself3, Hc3. simpl. by rewrite sapp_assoc.
Qed.

(** *** Arithmetic of the batch plan *)

Lemma length_slice {A} (l : list A) (lo hi : Z) :
  0 <= lo <= hi ->
  length (slice l lo hi) = Z.to_nat (Z.min hi (len l) - Z.min lo (len l)).
Proof.
  intros H. unfold slice, clamp_index, len.
  destruct (Z.ltb_spec lo 0); [lia|]. destruct (Z.ltb_spec hi 0); [lia|].
  rewrite length_take, length_drop. lia.
Qed.

Lemma fst_zip_take {A B} (l : list A) (k : list B) :
  map fst (zip l k) = take (length k) l.
Proof.
  revert k. induction l as [|a l IH]; intros [|b k]; simpl; try done.
  by rewrite IH.
Qed.

Lemma take_seqZ (n : nat) (a m : Z) :
  take n (seqZ a m) = seqZ a (Z.min (Z.of_nat n) m).
Proof.
  revert a m. induction n as [|n IH]; intros a m.
  - by rewrite (seqZ_nil a (Z.min _ _)) by lia.
  - destruct (Z.le_gt_cases m 0).
    + by rewrite !seqZ_nil by lia.
    + rewrite (seqZ_cons a m) by lia. rewrite (seqZ_cons a (Z.min _ _)) by lia.
      simpl. rewrite IH. do 2 f_equal. lia.
Qed.

Lemma concat_ranges (B N : Z) (k : nat) :
  0 < B -> 0 <= N ->
  concat (map (fun i => range (i * B) (Z.min ((i + 1) * B) N)) (seqZ 0 (Z.of_nat k)))
  = range 0 (Z.min (Z.of_nat k * B) N).
Proof.
  intros HB HN. induction k as [|k IH].
  - simpl. unfold range. by rewrite seqZ_nil by lia.
  - rewrite seqZ_S, map_app, concat_app, IH. simpl. rewrite app_nil_r.
    unfold range. rewrite !Z.sub_0_r, !Z.add_0_l.
    destruct (Z.le_gt_cases N (Z.of_nat k * B)).
    + rewrite (seqZ_nil (Z.of_nat k * B)) by lia. rewrite app_nil_r. f_equal. lia.
    + replace (Z.min (Z.of_nat (S k) * B) N)
        with (Z.min (Z.of_nat k * B) N + (Z.min ((Z.of_nat k + 1) * B) N - Z.of_nat k * B)) by lia.
      rewrite seqZ_app by lia. do 2 f_equal; lia.
Qed.

(** *** What the observations see of a run of the pipeline *)

Lemma record_id_embedding_record (i : Z) (e : Embedding) :
  record_id (embedding_record str_value i e) = Some (str_int i).
Proof. reflexivity. Qed.

Lemma encoded_batches_flat_map (m : Model) (passages : list Passage) (B : Z) (batches : list Z) :
  encoded_batches (flat_map (batch_events str_value m passages B) batches)
  = map (fun i => slice passages (i * B) ((i + 1) * B)) batches.
Proof.
  induction batches as [|i batches IH]; [done|].
  simpl. unfold encode_event. destruct (encode_corpus m); simpl; by rewrite <- IH.
Qed.

Lemma written_ids_flat_map (m : Model) (passages : list Passage) (B : Z) (batches : list Z) :
  written_ids (flat_map (batch_events str_value m passages B) batches)
  = map (fun i => map record_id (batch_records str_value m passages B i)) batches.
Proof.
  induction batches as [|i batches IH]; [done|].
  simpl. unfold encode_event. destruct (encode_corpus m); simpl; by rewrite <- IH.
Qed.

Lemma batch_record_ids (m : Model) (passages : list Passage) (B i : Z) :
  0 < B -> 0 <= i ->
  (forall batch, length (encoder m batch B) = length batch) ->
  map record_id (batch_records str_value m passages B i)
  = map (fun k => Some (str_int k)) (range (i * B) (Z.min ((i + 1) * B) (len passages))).
Proof.
  intros HB Hi Hlen. unfold batch_records.
  rewrite map_map.
  rewrite (map_ext _ (fun p => Some (str_int (fst p)))) by (intros []; apply record_id_embedding_record).
  rewrite <- (map_map fst (fun k => Some (str_int k))), fst_zip_take.
  rewrite Hlen, length_slice by nia.
  unfold range. rewrite take_seqZ. f_equal.
  destruct (Z.le_gt_cases (len passages) (i * B)).
  - rewrite !seqZ_nil; [done|lia|lia].
  - f_equal. lia.
Qed.

Lemma concat_map_map {A B C} (f : B -> C) (g : A -> list B) (l : list A) :
  concat (map (fun a => map f (g a)) l) = map f (concat (map g l)).
Proof. induction l as [|a l IH]; simpl; [done|]. by rewrite IH, map_app. Qed.

(** C4, as the code has it: the number of batches is [math.ceil] of a
    float quotient, and the ids of a batch are zipped with the embeddings
    the model returns.  For a corpus of N < 2^53 passages, a batch size
    0 < B < 2^1075 and a model that returns one embedding per passage, one
    run of [_write_embeddings] hands exactly ceil(N/B) batches to the
    model, batch [i] being [passages[i*B : (i+1)*B]]; the ids of the records
    written for batch [i] are the decimal strings of
    [i*B, min((i+1)*B, N)), and all ids together are those of [0, N) in
    order. *)
Theorem write_embeddings_batches_and_ids (B : Z) (s : St) :
  0 < B < 2 ^ 1075 ->
  len (corpus (world s)) < 2 ^ 53 ->
  (forall batch, length (encoder (model (self s)) batch B) = length batch) ->
  let passages := corpus (world s) in
  let N := len passages in
  exists evs s',
    _write_embeddings str_value B s = (inr tt, s')
    /\ trace (world s') = trace (world s) ++ evs
    /\ length (encoded_batches evs) = Z.to_nat (ceil_div N B)
    /\ encoded_batches evs
       = map (fun i => slice passages (i * B) ((i + 1) * B)) (range 0 (ceil_div N B))
    /\ written_ids evs
       = map (fun i => map (fun k => Some (str_int k))
                           (range (i * B) (Z.min ((i + 1) * B) N)))
             (range 0 (ceil_div N B))
    /\ concat (written_ids evs) = map (fun k => Some (str_int k)) (range 0 N)
    /\ NoDup (concat (written_ids evs)).
Proof.
  intros HB Hsmall Hlen passages N.
  destruct (_write_embeddings_run B s ltac:(lia)) as (s' & Hrun & _ & Htr & _).
  exists (pipeline_events str_value (model (self s)) passages B), s'.
  assert (HN : 0 <= N) by (unfold N, len; lia).
  assert (Hnb : n_batch (len passages) B = ceil_div N B).
  { apply n_batch_exact; [split; [exact HN|exact Hsmall]|exact HB]. }
  pose proof (ceil_div_bounds N B ltac:(lia)) as Hc.
  pose proof (ceil_div_nonneg N B ltac:(lia) HN) as Hn.
  assert (Hids : written_ids (pipeline_events str_value (model (self s)) passages B)
       = map (fun i => map (fun k => Some (str_int k))
                           (range (i * B) (Z.min ((i + 1) * B) N)))
             (range 0 (ceil_div N B))).
  { unfold pipeline_events. change (written_ids (?e :: ?l)) with (written_ids l).
    rewrite written_ids_flat_map, Hnb. apply map_ext_in. intros i Hi.
    apply batch_record_ids; [lia| |done].
    apply list_elem_of_In, elem_of_seqZ in Hi. lia. }
  assert (Hbs : encoded_batches (pipeline_events str_value (model (self s)) passages B)
       = map (fun i => slice passages (i * B) ((i + 1) * B)) (range 0 (ceil_div N B))).
  { unfold pipeline_events. change (encoded_batches (?e :: ?l)) with (encoded_batches l).
    rewrite <- Hnb. apply encoded_batches_flat_map. }
  split; [done|]. split; [done|].
  split. { rewrite Hbs, length_map. unfold range. rewrite length_seqZ. f_equal. lia. }
  split; [done|]. split; [done|].
  assert (Hall : concat (written_ids (pipeline_events str_value (model (self s)) passages B))
                 = map (fun k => Some (str_int k)) (range 0 N)).
  { rewrite Hids, concat_map_map. f_equal.
    unfold range at 2. rewrite Z.sub_0_r.
    rewrite <- (Z2Nat.id (ceil_div N B)) at 1 by done.
    rewrite concat_ranges by lia. rewrite Z2Nat.id by done. f_equal. lia. }
  split; [exact Hall|].
  rewrite Hall.
  assert (Hinj : Inj (=) (=) (fun k => Some (str_int k))).
  { intros a b [= E]. by apply str_int_inj. }
  apply (NoDup_fmap_2 _), NoDup_seqZ.
Qed.

(** *** Index provisioning *)

Lemma count_events_app (p : Event -> bool) (l k : list Event) :
  count_events p (l ++ k) = (count_events p l + count_events p k)%nat.
Proof. unfold count_events. by rewrite List.filter_app, length_app. Qed.

Lemma count_events_pipeline (p : Event -> bool) (m : Model) (passages : list Passage) (B : Z) :
  (forall files, p (EvLoadPassages files) = false) ->
  (forall b n, p (EvEncodeCorpus b n) = false) ->
  (forall b n, p (EvEncode b n) = false) ->
  (forall path rs, p (EvAppend path rs) = false) ->
  count_events p (pipeline_events str_value m passages B) = 0%nat.
Proof.
  intros H1 H2 H3 H4. unfold pipeline_events, count_events. simpl. rewrite H1.
  induction (range 0 (n_batch (len passages) B)) as [|i l IH]; [done|].
  simpl. unfold encode_event. destruct (encode_corpus m); rewrite ?H2, ?H3, H4; exact IH.
Qed.

Lemma count_events_none (p : Event -> bool) (evs : list Event) :
  Forall (fun ev => p ev = false) evs -> count_events p evs = 0%nat.
Proof.
  unfold count_events. induction 1 as [|ev evs Hev _ IH]; [done|].
  simpl. by rewrite Hev.
Qed.

Lemma pipeline_events_index_side (m : Model) (passages : list Passage) (B : Z) :
  Forall (fun ev => is_index_side ev = true) (pipeline_events str_value m passages B).
Proof.
  unfold pipeline_events. constructor; [done|].
  induction (range 0 (n_batch (len passages) B)) as [|i l IH]; [constructor|].
  simpl. constructor; [|constructor; [done|exact IH]].
  unfold encode_event. by destruct (encode_corpus m).
Qed.

Lemma creation_events_index_side (s : St) :
  Forall (fun ev => is_index_side ev = true)
         (EvListIndexes ("display_name=" +:+ index_name (self s))
          :: creation_events str_value s).
Proof.
  constructor; [done|]. unfold creation_events. constructor; [done|].
  apply Forall_app. split; [apply pipeline_events_index_side|by repeat constructor].
Qed.

Lemma index_side_no_deploy (evs : list Event) :
  Forall (fun ev => is_index_side ev = true) evs ->
  count_events is_deploy evs = 0%nat /\ count_events is_match evs = 0%nat.
Proof.
  intros H. split; apply count_events_none;
    (eapply Forall_impl; [exact H|]); intros ev Hev; by destruct ev.
Qed.

Lemma creation_events_counts (s : St) :
  let evs := EvListIndexes ("display_name=" +:+ index_name (self s))
             :: creation_events str_value s in
  count_events is_create evs = 1%nat
  /\ count_events is_upload evs = 1%nat
  /\ count_events is_update evs = 1%nat
  /\ count_events is_deploy evs = 0%nat.
Proof.
  assert (Hcount : forall p,
    (forall files, p (EvLoadPassages files) = false) ->
    (forall b n, p (EvEncodeCorpus b n) = false) ->
    (forall b n, p (EvEncode b n) = false) ->
    (forall path rs, p (EvAppend path rs) = false) ->
    count_events p (EvListIndexes ("display_name=" +:+ index_name (self s))
                    :: creation_events str_value s)
    = count_events p
        [EvListIndexes ("display_name=" +:+ index_name (self s));
         EvCreateIndex (index_name (self s)) (dim (self s))
           "DOT_PRODUCT_DISTANCE" "SHARD_SIZE_SMALL" "STREAM_UPDATE";
         EvUpload GCS_BUCKET_NAME TMP_FILE_PATH TMP_FILE_PATH;
         EvUpdateEmbeddings (resource_name (created_index s)) GCS_BUCKET_URI]).
  { intros p H1 H2 H3 H4. unfold creation_events.
    change (?a :: (?b ++ ?c)) with ([a] ++ b ++ c).
    rewrite !count_events_app, count_events_pipeline by done.
    change [?a; ?b; ?c; ?d] with ([a] ++ [b] ++ [c; d]).
    rewrite !count_events_app. lia. }
  simpl. rewrite !Hcount by done. auto.
Qed.

(** C9: the constructor names the index ["index_" + model_path] and the
    endpoint ["endpoint_" + model_path], where [model_path] is
    [model_name_as_path(model_name)]; nothing else enters the two names. *)
Theorem init_resource_names (dim : Z) (model_name : string) (model : Model) (w : World) :
  index_name (self (__init__ model_name_as_path dim model_name model w))
    = "index_" +:+ model_name_as_path model_name
  /\ endpoint_name (self (__init__ model_name_as_path dim model_name model w))
    = "endpoint_" +:+ model_name_as_path model_name.
Proof. split; reflexivity. Qed.

(** C7: when an index of the configured display name is listed,
    [load_index] issues the existence check and the bind and nothing else:
    no create, no model call, no write to the staging file, no upload; the
    handle it binds is that of the listed index. *)
Theorem load_index_present_binds_only (s : St) :
  index_listed (index_name (self s)) (world s) ->
  exists found s',
    load_index str_value s = (inr tt, s')
    /\ index (self s') = Some found
    /\ In found (indexes (world s))
    /\ display_name found = index_name (self s)
    /\ trace (world s') = trace (world s) ++
         [EvListIndexes ("display_name=" +:+ index_name (self s));
          EvGetIndex (index_name (self s))]
    /\ indexes (world s') = indexes (world s)
    /\ files (world s') = files (world s)
    /\ bucket (world s') = bucket (world s)
    /\ doc_map (self s') = doc_map (self s).
Proof.
  intros Hl.
  destruct (load_index_present s Hl)
    as (found & s' & Hrun & _ & Hin & Hd & Hself & Htr & Hi & _ & Hf & Hb & _).
  exists found, s'. rewrite Hself. simpl. auto 10.
Qed.

(** What [load_index] does when no index of the configured name is listed,
    in both cases of the upload: the index is created once and bound and
    [doc_map] is filled whether or not the upload then finds its file. *)
Lemma load_index_absent_outcome (s : St) :
  ~ index_listed (index_name (self s)) (world s) ->
  exists r evs s',
    load_index str_value s = (r, s')
    /\ self s' = set_doc_map (enumerated (corpus (world s)))
                   (set_index (Some (created_index s)) (self s))
    /\ trace (world s') = trace (world s) ++ evs
    /\ count_events is_create evs = 1%nat
    /\ Forall (fun ev => is_index_side ev = true) evs
    /\ indexes (world s') = indexes (world s) ++ [created_index s]
    /\ same_remote (world s) (world s')
    /\ ((corpus (world s) <> [] \/ is_Some (files (world s) !! TMP_FILE_PATH))
         /\ r = inr tt
        \/ corpus (world s) = [] /\ files (world s) !! TMP_FILE_PATH = None
           /\ r = inl (FileNotFoundError TMP_FILE_PATH)).
Proof.
  intros Hl. destruct (staging_file_dec (world s)) as [Hfile|[Hcorpus Hnone]].
  - destruct (load_index_absent s Hl Hfile) as (s' & Hrun & Hself & Htr & Hi & _ & _ & Hr).
    destruct (creation_events_counts s) as (Hc & _).
    eexists _, _, s'. split; [exact Hrun|]. split; [exact Hself|]. split; [exact Htr|].
    split; [exact Hc|]. split; [apply creation_events_index_side|]. auto.
  - destruct (load_index_absent_no_file s Hl Hcorpus Hnone)
      as (s' & Hrun & Hself & Htr & Hi & _ & _ & Hr).
    eexists _, _, s'. split; [exact Hrun|]. rewrite Hcorpus.
    split; [exact Hself|]. split; [exact Htr|].
    split; [reflexivity|]. split; [by repeat constructor|]. auto 10.
Qed.

(** C6, as the code has it: when no index of the configured display name
    is listed and there is a staging file to upload (the corpus is not
    empty, so that the pipeline creates the file, or the file exists
    already), [load_index] issues, after the existence check, exactly: one
    create of an index with the configured dimension, dot-product distance,
    small shards and streaming updates; the calls of the batching and sink
    pipeline; one upload of the staging file; one update of the index from
    the bucket.  It ends with the created index bound, and the blob holds
    the staged file. *)
Theorem load_index_absent_creates_once (s : St) :
  ~ index_listed (index_name (self s)) (world s) ->
  corpus (world s) <> [] \/ is_Some (files (world s) !! TMP_FILE_PATH) ->
  exists evs s',
    load_index str_value s = (inr tt, s')
    /\ trace (world s') = trace (world s) ++ evs
    /\ evs = [EvListIndexes ("display_name=" +:+ index_name (self s));
              EvCreateIndex (index_name (self s)) (dim (self s))
                "DOT_PRODUCT_DISTANCE" "SHARD_SIZE_SMALL" "STREAM_UPDATE"]
             ++ pipeline_events str_value (model (self s)) (corpus (world s)) 512
             ++ [EvUpload GCS_BUCKET_NAME TMP_FILE_PATH TMP_FILE_PATH;
                 EvUpdateEmbeddings (resource_name (created_index s)) GCS_BUCKET_URI]
    /\ count_events is_create evs = 1%nat
    /\ count_events is_upload evs = 1%nat
    /\ count_events is_update evs = 1%nat
    /\ index (self s') = Some (created_index s)
    /\ display_name (created_index s) = index_name (self s)
    /\ bucket (world s') !! TMP_FILE_PATH = Some (read_file TMP_FILE_PATH (world s')).
Proof.
  intros Hl Hfile.
  destruct (load_index_absent s Hl Hfile) as (s' & Hrun & Hself & Htr & Hi & _ & Hb & _).
  destruct (creation_events_counts s) as (Hc & Hu & Hd & _).
  eexists _, s'. split; [exact Hrun|]. split; [exact Htr|].
  split; [reflexivity|].
  rewrite Hself, Hb. simpl. rewrite lookup_insert_eq. auto 10.
Qed.

(** C5, as the code has it: [load_index] has no test of the held handle,
    so a second call is not skipped; it issues one more existence check
    and one more bind.  Still, of two calls in a row on a name the
    service did not know, only the first creates: the second finds the
    index the first created, rebinds that same handle and leaves the
    object, the listed indexes, the files and the bucket as they were.
    This holds also when the first call, having created the index, raises
    at the upload for want of a staging file. *)
Theorem load_index_twice_creates_once (s : St) :
  ~ index_listed (index_name (self s)) (world s) ->
  exists r1 evs1 evs2 s1 s2,
    load_index str_value s = (r1, s1)
    /\ (r1 = inr tt \/ r1 = inl (FileNotFoundError TMP_FILE_PATH))
    /\ (corpus (world s) <> [] \/ is_Some (files (world s) !! TMP_FILE_PATH) -> r1 = inr tt)
    /\ load_index str_value s1 = (inr tt, s2)
    /\ trace (world s1) = trace (world s) ++ evs1
    /\ trace (world s2) = trace (world s1) ++ evs2
    /\ count_events is_create (evs1 ++ evs2) = 1%nat
    /\ evs2 = [EvListIndexes ("display_name=" +:+ index_name (self s));
               EvGetIndex (index_name (self s))]
    /\ self s2 = self s1
    /\ indexes (world s2) = indexes (world s1)
    /\ files (world s2) = files (world s1)
    /\ bucket (world s2) = bucket (world s1).
Proof.
  intros Hl.
  destruct (load_index_absent_outcome s Hl)
    as (r1 & evs1 & s1 & Hrun1 & Hself1 & Htr1 & Hc1 & _ & Hi1 & _ & Hcase).
  assert (Hname : index_name (self s1) = index_name (self s)) by (by rewrite Hself1).
  assert (Hl1 : index_listed (index_name (self s1)) (world s1)).
  { exists (created_index s). rewrite Hi1, Hname. split; [|done].
    apply in_or_app. right. simpl. auto. }
  destruct (load_index_present s1 Hl1)
    as (found & s2 & Hrun2 & Hfind & _ & _ & Hself2 & Htr2 & Hi2 & _ & Hf2 & Hb2 & _).
  assert (Hfound : found = created_index s).
  { rewrite Hi1, Hname in Hfind. rewrite find_app_absent in Hfind; [congruence| |done].
    intros i Hi Hd. apply Hl. by exists i. }
  rewrite Hname in Htr2.
  exists r1, evs1,
         [EvListIndexes ("display_name=" +:+ index_name (self s));
          EvGetIndex (index_name (self s))], s1, s2.
  split; [done|].
  split. { destruct Hcase as [[_ ->]|(_ & _ & ->)]; auto. }
  split. { intros Hfile. destruct Hcase as [[_ ->]|(Hcorpus & Hnone & _)]; [done|].
           destruct Hfile as [Hne|[c Hc]]; [done|congruence]. }
  split; [done|]. split; [done|]. split; [exact Htr2|].
  split. { rewrite count_events_app, Hc1. reflexivity. }
  split; [done|].
  split. { rewrite Hself2, Hfound, Hself1. reflexivity. }
  auto.
Qed.

(** *** What a call leaves of the object *)

Section Keeps.
Variable R : VertexIndex -> VertexIndex -> Prop.
Context `{!PreOrder R}.

Lemma keeps_ret {A} (a : A) : keeps R (ret a : M A).
Proof. intros s. simpl. reflexivity. Qed.

Lemma keeps_raise {A} (e : exn) : keeps R (raise e : M A).
Proof. intros s. simpl. reflexivity. Qed.

Lemma keeps_get : keeps R (get : M St).
Proof. intros s. simpl. reflexivity. Qed.

Lemma keeps_modify_world (f : World -> World) : keeps R (modify_world f).
Proof. intros s. simpl. reflexivity. Qed.

Lemma keeps_emit (ev : Event) : keeps R (emit ev : M unit).
Proof. apply keeps_modify_world. Qed.

Lemma keeps_logger_info (msg : string) : keeps R (logger_info msg : M unit).
Proof. apply keeps_modify_world. Qed.

Lemma keeps_modify_self (f : VertexIndex -> VertexIndex) :
  (forall c, R c (f c)) -> keeps R (modify_self f : M unit).
Proof. intros Hf s. simpl. apply Hf. Qed.

Lemma keeps_bind {A B} (m : M A) (k : A -> M B) :
  keeps R m -> (forall a, keeps R (k a)) -> keeps R (bind m k).
Proof.
  intros Hm Hk s. unfold bind. specialize (Hm s).
  destruct (m s) as [[e|a] s']; simpl in *; [done|].
  etrans; [exact Hm|apply Hk].
Qed.

Lemma keeps_for_each {A T} (xs : list A) (body : A -> T -> M T) :
  (forall x acc, keeps R (body x acc)) -> forall acc, keeps R (for_each xs acc body).
Proof.
  intros Hbody. induction xs as [|x xs IH]; intros acc; simpl.
  - apply keeps_ret.
  - apply keeps_bind; [apply Hbody|apply IH].
Qed.

End Keeps.

Global Instance same_identity_preorder : PreOrder (@same_identity Passage Value).
Proof.
  split.
  - intros c. unfold same_identity. auto.
  - intros a b c (H1 & H2 & H3 & H4 & H5) (K1 & K2 & K3 & K4 & K5).
    unfold same_identity. repeat split; congruence.
Qed.

Global Instance same_binding_preorder : PreOrder (@same_binding Passage Value).
Proof.
  split.
  - intros c. unfold same_binding. auto.
  - intros a b c (H1 & H2) (K1 & K2). unfold same_binding. split; congruence.
Qed.

(** The bind rule at one state, for a first step that is only known to keep
    [R] there. *)
Lemma keeps_bind_at (R : VertexIndex -> VertexIndex -> Prop) `{!PreOrder R}
    {A B} (m : M A) (k : A -> M B) (s : St) :
  R (self s) (self (snd (m s))) -> (forall a, keeps R (k a)) ->
  R (self s) (self (snd (bind m k s))).
Proof.
  intros Hm Hk. unfold bind.
  destruct (m s) as [[e|a] s']; simpl in *; [done|].
  etrans; [exact Hm|apply Hk].
Qed.

(** One step of a frame proof: split a bind, close a primitive, or case on
    the scrutinee of a branch. *)
Ltac frame_setter :=
  intros ?; unfold same_identity, same_binding; simpl; auto 10.

Ltac frame_step :=
  match goal with
  | |- keeps ?R (bind _ _) => apply (keeps_bind R); [|intros ?]
  | |- keeps ?R (ret _) => apply (keeps_ret R)
  | |- keeps ?R (raise _) => apply (keeps_raise R)
  | |- keeps ?R get => apply (keeps_get R)
  | |- keeps ?R (emit _) => apply (keeps_emit R)
  | |- keeps ?R (logger_info _) => apply (keeps_logger_info R)
  | |- keeps ?R (modify_world _) => apply (keeps_modify_world R)
  | |- keeps ?R (for_each _ _ _) => apply (keeps_for_each R); intros ? ?
  | |- keeps ?R (modify_self _) => apply (keeps_modify_self R); frame_setter
  | |- keeps _ (match ?x with _ => _ end) => destruct x
  end.

Ltac frame := repeat frame_step.

Create HintDb frame discriminated.

Section ServiceFrames.
Variable R : VertexIndex -> VertexIndex -> Prop.
Context `{!PreOrder R}.

Lemma keeps_list_indexes name : keeps R (list_indexes name : M _).
Proof. unfold list_indexes. frame. Qed.
Lemma keeps_get_index name : keeps R (get_index name : M _).
Proof. unfold get_index. frame. Qed.
Lemma keeps_create_tree_ah_index name d a b c :
  keeps R (create_tree_ah_index name d a b c : M _).
Proof. unfold create_tree_ah_index. frame. Qed.
Lemma keeps_list_endpoints name : keeps R (list_endpoints name : M _).
Proof. unfold list_endpoints. frame. Qed.
Lemma keeps_get_endpoint name : keeps R (get_endpoint name : M _).
Proof. unfold get_endpoint. frame. Qed.
Lemma keeps_index_attr attr : keeps R (index_attr attr : M _).
Proof. unfold index_attr. frame. Qed.
Lemma keeps_endpoint_attr attr : keeps R (endpoint_attr attr : M _).
Proof. unfold endpoint_attr. frame. Qed.
Lemma keeps_getattr_doc : keeps R (getattr_doc : M _).
Proof. unfold getattr_doc. frame. Qed.
Lemma keeps_getitem d k : keeps R (getitem d k : M _).
Proof. unfold getitem. frame. Qed.
Lemma keeps__index_exists : keeps R (_index_exists : M _).
Proof. unfold _index_exists. frame. apply keeps_list_indexes. Qed.
Lemma keeps__endpoint_exists : keeps R (_endpoint_exists : M _).
Proof. unfold _endpoint_exists. frame. apply keeps_list_endpoints. Qed.
Lemma keeps__write_embeddings_to_tmp_file embeddings indices :
  keeps R (_write_embeddings_to_tmp_file str_value embeddings indices : M _).
Proof. unfold _write_embeddings_to_tmp_file. frame. Qed.
Lemma keeps__upload_embedding_file : keeps R (_upload_embedding_file : M _).
Proof. unfold _upload_embedding_file. frame. Qed.
Lemma keeps_encode_batch passages B i total :
  keeps R (encode_batch str_value passages B i total : M _).
Proof.
  unfold encode_batch. frame; apply keeps__write_embeddings_to_tmp_file.
Qed.
Lemma keeps_docs_of sorted_data : keeps R (docs_of sorted_data : M _).
Proof.
  induction sorted_data as [|x rest IH]; simpl; frame;
    [apply keeps_getattr_doc|apply keeps_getitem|apply IH].
Qed.

End ServiceFrames.

#[local] Hint Resolve keeps_list_indexes keeps_get_index keeps_create_tree_ah_index
  keeps_list_endpoints keeps_get_endpoint keeps_index_attr keeps_endpoint_attr
  keeps_getattr_doc keeps_getitem keeps__index_exists keeps__endpoint_exists
  keeps__write_embeddings_to_tmp_file keeps__upload_embedding_file
  keeps_encode_batch keeps_docs_of : frame.

(** The constructor's attributes and [doc] survive every method. *)
Lemma identity__write_embeddings B : keeps same_identity (_write_embeddings str_value B : M _).
Proof. unfold _write_embeddings. frame; auto with frame typeclass_instances. Qed.

Lemma identity__create_index : keeps same_identity (_create_index str_value : M _).
Proof.
  unfold _create_index. frame;
    auto using identity__write_embeddings with frame typeclass_instances.
Qed.

Lemma identity_load_index : keeps same_identity (load_index str_value : M _).
Proof.
  unfold load_index. frame;
    auto using identity__create_index with frame typeclass_instances.
Qed.

Lemma identity_load_endpoint : keeps same_identity (load_endpoint str_value : M _).
Proof.
  unfold load_endpoint. frame;
    auto using identity_load_index with frame typeclass_instances.
Qed.

Lemma identity_search_sorted_data q k :
  keeps same_identity (search_sorted_data str_value dist_ltb q k : M _).
Proof.
  unfold search_sorted_data. frame;
    auto using identity_load_endpoint with frame typeclass_instances.
Qed.

Lemma identity_search q k : keeps same_identity (search str_value dist_ltb q k : M _).
Proof.
  unfold search. frame;
    auto using identity_search_sorted_data with frame typeclass_instances.
Qed.

(** *** Endpoint provisioning *)

Lemma filter_endpoints_nil (name : string) (l : list MatchingEngineIndexEndpoint) :
  (forall e, In e l -> ep_display_name e <> name) ->
  List.filter (fun e => String.eqb (ep_display_name e) name) l = [].
Proof.
  induction l as [|a l IH]; simpl; [done|]. intros H.
  destruct (String.eqb_spec (ep_display_name a) name) as [E|E].
  - exfalso. apply (H a); auto.
  - apply IH. intros e He. apply H. auto.
Qed.

(** [load_index] in any state: it ends with an index bound that the
    service lists under the configured name, issues calls on the index side
    only and touches neither the endpoint handle nor the endpoint
    resources.  It returns, unless it has to create the index and finds no
    staging file to upload. *)
Lemma load_index_outcome (s : St) :
  exists r evs s',
    load_index str_value s = (r, s')
    /\ (exists i, index (self s') = Some i /\ In i (indexes (world s'))
                  /\ display_name i = index_name (self s))
    /\ index_name (self s') = index_name (self s)
    /\ endpoint (self s') = endpoint (self s)
    /\ endpoint_name (self s') = endpoint_name (self s)
    /\ endpoints (world s') = endpoints (world s)
    /\ trace (world s') = trace (world s) ++ evs
    /\ Forall (fun ev => is_index_side ev = true) evs
    /\ ((index_listed (index_name (self s)) (world s)
          \/ corpus (world s) <> [] \/ is_Some (files (world s) !! TMP_FILE_PATH))
         /\ r = inr tt
        \/ ~ index_listed (index_name (self s)) (world s)
           /\ corpus (world s) = [] /\ files (world s) !! TMP_FILE_PATH = None
           /\ r = inl (FileNotFoundError TMP_FILE_PATH)).
Proof.
  destruct (index_listed_dec (index_name (self s)) (world s)) as [Hl|Hl].
  - destruct (load_index_present s Hl)
      as (found & s' & Hrun & _ & Hin & Hd & Hself & Htr & Hi & He & _).
    eexists _, _, s'. split; [exact Hrun|]. rewrite Hself, Hi. simpl.
    split; [eauto|]. do 4 (split; [done|]). split; [exact Htr|].
    split; [by repeat constructor|]. auto.
  - destruct (load_index_absent_outcome s Hl)
      as (r & evs & s' & Hrun & Hself & Htr & _ & Hside & Hi & (He & _) & Hcase).
    exists r, evs, s'. split; [exact Hrun|]. rewrite Hself, Hi. simpl.
    split. { exists (created_index s). split; [done|]. split; [|done].
             apply in_or_app. right. simpl. auto. }
    do 3 (split; [done|]). split; [exact He|]. split; [exact Htr|].
    split; [exact Hside|].
    destruct Hcase as [[Hfile ->]|(Hcorpus & Hnone & ->)]; [left|right]; auto.
Qed.

(** The deploy path of [load_endpoint] on a client whose endpoint handle is
    still [None], where the index is there or can be provisioned: the log
    line before the deployment reads [self.endpoint.display_name], so the
    call raises and nothing is deployed. *)
Lemma load_endpoint_unbound_raises (s : St) :
  endpoint (self s) = None ->
  ~ endpoint_listed (endpoint_name (self s)) (world s) ->
  is_Some (index (self s)) \/ index_listed (index_name (self s)) (world s)
  \/ corpus (world s) <> [] \/ is_Some (files (world s) !! TMP_FILE_PATH) ->
  exists evs s',
    load_endpoint str_value s = (inl (AttributeError "NoneType" "display_name"), s')
    /\ endpoint (self s') = None
    /\ trace (world s') = trace (world s) ++ evs
    /\ count_events is_deploy evs = 0%nat.
Proof.
  intros He Hl Hprov.
  assert (Hfirst : exists evs s1,
    (match index (self s) with None => load_index str_value | Some _ => ret tt end) s
      = (inr tt, s1)
    /\ is_Some (index (self s1))
    /\ endpoint (self s1) = None
    /\ endpoint_name (self s1) = endpoint_name (self s)
    /\ endpoints (world s1) = endpoints (world s)
    /\ trace (world s1) = trace (world s) ++ evs
    /\ count_events is_deploy evs = 0%nat).
  { destruct (index (self s)) as [i|] eqn:Hi.
    - exists [], s. rewrite app_nil_r, Hi. eauto 10.
    - destruct (load_index_outcome s)
        as (r & evs & s1 & H1 & (i & H2 & _) & _ & H3 & H4 & H5 & H6 & H7 & Hcase).
      destruct Hcase as [[_ ->]|(Hnl & Hcorpus & Hnone & _)].
      + exists evs, s1. rewrite H3, H2. destruct (index_side_no_deploy evs H7). eauto 10.
      + exfalso. destruct Hprov as [[? ?]|[?|[?|[c Hc]]]]; try done; congruence. }
  destruct Hfirst as (evs & s1 & Hrun & [i Hi] & He1 & Hn1 & Hes1 & Htr1 & Hd1).
  unfold load_endpoint.
  match goal with |- context [bind get ?k s] => change (bind get k s) with (k s s) end.
  cbv beta. unfold bind at 1. rewrite Hrun.
  unfold _endpoint_exists, list_endpoints, index_attr, endpoint_attr. run.
  cbn [endpoints add_event]. rewrite Hn1, Hes1.
  rewrite filter_endpoints_nil by (intros e Hin Hd; apply Hl; by exists e).
  cbn [map]. change (negb (len (@nil string) =? 0)) with false. cbv beta iota.
  cbn [self world]. rewrite Hi. cbn [self world]. rewrite He1.
  eexists (evs ++ [_]), _. split; [reflexivity|]. simpl.
  rewrite He1, Htr1, <- app_assoc, count_events_app, Hd1. auto.
Qed.

(** *** The query client *)

Lemma reachable_doc_unset (s : St) :
  reachable str_value dist_ltb model_name_as_path s -> doc (self s) = None.
Proof.
  induction 1 as [dim name model w | s w _ IH | s _ IH | s _ IH | s q k _ IH]; simpl.
  - reflexivity.
  - exact IH.
  - destruct (identity_load_index s) as [-> _]. exact IH.
  - destruct (identity_load_endpoint s) as [-> _]. exact IH.
  - destruct (identity_search q k s) as [-> _]. exact IH.
Qed.

Lemma docs_of_doc_unset (sorted_data : list MatchNeighbor) (s : St) :
  doc (self s) = None ->
  docs_of sorted_data s
  = match sorted_data with
    | [] => (inr [], s)
    | _ :: _ => (inl (AttributeError "VertexIndex" "doc"), s)
    end.
Proof.
  intros Hdoc. destruct sorted_data as [|x rest]; [reflexivity|].
  simpl. unfold getattr_doc. run. by rewrite Hdoc.
Qed.

Lemma search_unfold (q : list (list Value)) (k : Z) (s : St) :
  search str_value dist_ltb q k s
  = match search_sorted_data str_value dist_ltb q k s with
    | (inl e, s1) => (inl e, s1)
    | (inr sorted_data, s1) => docs_of sorted_data s1
    end.
Proof. reflexivity. Qed.

Lemma insert_desc_perm (x : MatchNeighbor) (l : list MatchNeighbor) :
  insert_desc dist_ltb x l ≡ₚ x :: l.
Proof.
  induction l as [|y l IH]; [done|]. simpl.
  destruct (dist_ltb _ _); [|done]. rewrite IH. apply Permutation_swap.
Qed.

(** The model of [sorted] returns the candidates it was given, and in
    descending order of distance when [<] is asymmetric on them. *)
Lemma sorted_by_distance_desc_perm (l : list MatchNeighbor) :
  sorted_by_distance_desc dist_ltb l ≡ₚ l.
Proof.
  induction l as [|x l IH]; [done|]. simpl.
  by rewrite insert_desc_perm, IH.
Qed.

Lemma sorted_by_distance_desc_sorted (l : list MatchNeighbor) :
  (forall a b, dist_ltb a b = true -> dist_ltb b a = false) ->
  Sorted (fun a b => dist_ltb (distance a) (distance b) = false)
         (sorted_by_distance_desc dist_ltb l).
Proof.
  intros Hasym. induction l as [|x l IH]; simpl; [constructor|].
  induction IH as [|y l' Hs IHs Hhd]; simpl; [repeat constructor|].
  destruct (dist_ltb (distance x) (distance y)) eqn:E.
  - constructor; [exact IHs|].
    destruct l' as [|z l'']; simpl.
    + constructor. by apply Hasym.
    + inversion Hhd; subst.
      destruct (dist_ltb (distance x) (distance z)); constructor; [done|by apply Hasym].
  - repeat constructor; done.
Qed.

Lemma search_doc_unset (s : St) (q : list (list Value)) (k : Z) :
  doc (self s) = None ->
  (forall sorted_data s1,
     search_sorted_data str_value dist_ltb q k s = (inr sorted_data, s1) ->
     sorted_data <> [] ->
     search str_value dist_ltb q k s = (inl (AttributeError "VertexIndex" "doc"), s1))
  /\ (forall s1,
     search_sorted_data str_value dist_ltb q k s = (inr [], s1) ->
     search str_value dist_ltb q k s = (inr [], s1))
  /\ (forall docs s2, search str_value dist_ltb q k s = (inr docs, s2) -> docs = []).
Proof.
  intros Hdoc.
  assert (Hdoc1 : doc (self (snd (search_sorted_data str_value dist_ltb q k s))) = None).
  { destruct (identity_search_sorted_data q k s) as [-> _]. exact Hdoc. }
  rewrite search_unfold.
  destruct (search_sorted_data str_value dist_ltb q k s) as [[e|sorted_data] s1];
    simpl in Hdoc1.
  - split; [|split]; intros; discriminate.
  - rewrite (docs_of_doc_unset sorted_data s1 Hdoc1).
    split; [|split].
    + intros sd s1' [= <- <-] Hne. by destruct sorted_data.
    + intros s1' [= -> <-]. reflexivity.
    + intros docs s2. destruct sorted_data; intros [= <- <-]; reflexivity.
Qed.

(** C10, as the code has it: on a client built by the constructor and
    driven by its methods, a [search] that gets at least one candidate for
    the first query raises the [AttributeError] of the missing attribute
    [doc], whatever [doc_map] holds; no [search] returns a non-empty list.
    With no candidate the comprehension never reads [self.doc], and
    [search] returns the empty list. *)
Theorem search_reads_missing_doc (s : St) (q : list (list Value)) (k : Z) :
  reachable str_value dist_ltb model_name_as_path s ->
  (forall sorted_data s1,
     search_sorted_data str_value dist_ltb q k s = (inr sorted_data, s1) ->
     sorted_data <> [] ->
     search str_value dist_ltb q k s = (inl (AttributeError "VertexIndex" "doc"), s1))
  /\ (forall s1,
     search_sorted_data str_value dist_ltb q k s = (inr [], s1) ->
     search str_value dist_ltb q k s = (inr [], s1))
  /\ (forall docs s2, search str_value dist_ltb q k s = (inr docs, s2) -> docs = []).
Proof.
  intros Hreach. apply search_doc_unset. by apply reachable_doc_unset.
Qed.

(** With the index bound, [load_endpoint] and [search] leave the bound
    index and [doc_map] alone. *)
Lemma binding_load_endpoint (s : St) :
  is_Some (index (self s)) ->
  same_binding (self s) (self (snd (load_endpoint str_value s))).
Proof.
  intros [i Hi]. unfold load_endpoint.
  match goal with |- context [bind get ?k s] => change (bind get k s) with (k s s) end.
  cbv beta. rewrite Hi.
  apply (keeps_bind_at same_binding); [reflexivity|]. intros _.
  frame; auto with frame typeclass_instances.
Qed.

Lemma binding_search_sorted_data (s : St) (q : list (list Value)) (k : Z) :
  is_Some (index (self s)) ->
  same_binding (self s) (self (snd (search_sorted_data str_value dist_ltb q k s))).
Proof.
  intros Hi. unfold search_sorted_data.
  match goal with |- context [bind get ?k s] => change (bind get k s) with (k s s) end.
  cbv beta.
  apply (keeps_bind_at same_binding).
  - destruct (endpoint (self s)); [reflexivity|by apply binding_load_endpoint].
  - intros _. frame; auto with frame typeclass_instances.
Qed.

Lemma binding_search (s : St) (q : list (list Value)) (k : Z) :
  is_Some (index (self s)) ->
  same_binding (self s) (self (snd (search str_value dist_ltb q k s))).
Proof.
  intros Hi. unfold search.
  apply (keeps_bind_at same_binding); [by apply binding_search_sorted_data|].
  intros sorted_data. apply keeps_docs_of. apply _.
Qed.

Lemma searched_invariant (s1 s2 : St) :
  searched str_value dist_ltb s1 s2 ->
  is_Some (index (self s1)) ->
  is_Some (index (self s2))
  /\ doc_map (self s2) = doc_map (self s1)
  /\ doc (self s2) = doc (self s1).
Proof.
  intros Hs Hi. induction Hs as [|s' q k _ IH]; [done|].
  destruct IH as (Hi' & Hm & Hd).
  destruct (binding_search s' q k Hi') as [Hb1 Hb2].
  destruct (identity_search q k s') as [Hd' _].
  rewrite Hb1, Hb2, Hd'. done.
Qed.


End Properties.

(** ** The scenarios on the sample data *)

Lemma write_embeddings_batches_and_ids_scenario :
  0 < 4 < 2 ^ 1075
  /\ len (corpus (world Sample.fresh_empty)) < 2 ^ 53
  /\ (forall batch, length (encoder (model (self Sample.fresh_empty)) batch 4) = length batch)
  /\ exists evs s',
       _write_embeddings str_int 4 Sample.fresh_empty = (inr tt, s')
       /\ trace (world s') = trace (world Sample.fresh_empty) ++ evs
       /\ map length (encoded_batches evs) = [4; 4; 2]%nat
       /\ written_ids evs
          = [[Some "0"; Some "1"; Some "2"; Some "3"];
             [Some "4"; Some "5"; Some "6"; Some "7"];
             [Some "8"; Some "9"]].
Proof.
  assert (H0 : 0 < 4 < 2 ^ 1075) by (split; reflexivity).
  assert (HN : len (corpus (world Sample.fresh_empty)) < 2 ^ 53) by reflexivity.
  assert (H1 : forall batch,
             length (encoder (model (self Sample.fresh_empty)) batch 4) = length batch).
  { intros batch. apply length_map. }
  split; [exact H0|]. split; [exact HN|]. split; [exact H1|].
  destruct (write_embeddings_batches_and_ids str_int 4 Sample.fresh_empty H0 HN H1)
    as (evs & s' & Hrun & Htr & _ & Hb & Hids & _ & _).
  exists evs, s'. split; [exact Hrun|]. split; [exact Htr|].
  split; [rewrite Hb; reflexivity|rewrite Hids; reflexivity].
Defined.

(** C4, the claim as stated, fails: with a batch size of 2^1100 the float
    quotient [10 / B] is [0.0], so that the 10 passages of the corpus give
    no batch at all, where the ceiling of the quotient is 1; no record is
    written and the run reports 0 passages.  And with a batch size of 4
    and a model that returns one embedding for a whole batch, the ids
    written are 0, 4 and 8, not those of [0, 10).  (For a corpus of
    2^53 + 1 passages and batches of one, the number of batches the code
    computes is 2^53.) *)
Lemma write_embeddings_huge_batch_size_no_batch :
  0 < Sample.huge_batch_size
  /\ n_batch (2 ^ 53 + 1) 1 = 2 ^ 53
  /\ len (corpus (world Sample.fresh_empty)) = 10
  /\ ceil_div 10 Sample.huge_batch_size = 1
  /\ len (corpus (world Sample.lossy_client)) = 10
  /\ written_ids (trace (world (snd (_write_embeddings str_int 4 Sample.lossy_client))))
     = [[Some "0"]; [Some "4"]; [Some "8"]]
  /\ fst (_write_embeddings str_int Sample.huge_batch_size Sample.fresh_empty) = inr tt
  /\ encoded_batches
       (trace (world (snd (_write_embeddings str_int Sample.huge_batch_size
                             Sample.fresh_empty)))) = []
  /\ written_ids
       (trace (world (snd (_write_embeddings str_int Sample.huge_batch_size
                             Sample.fresh_empty)))) = []
  /\ logs (world (snd (_write_embeddings str_int Sample.huge_batch_size
                         Sample.fresh_empty))) = ["0 passages encoded."].
Proof. repeat split; vm_compute; reflexivity. Qed.

Lemma load_index_present_binds_only_witness :
  index_listed (index_name (self Sample.fresh_serving)) (world Sample.fresh_serving)
  /\ exists s',
       load_index str_int Sample.fresh_serving = (inr tt, s')
       /\ index (self s') = Some Sample.the_index
       /\ trace (world s')
          = [EvInit PROJECT_ID REGION;
             EvListIndexes "display_name=index_org_model";
             EvGetIndex "index_org_model"]
       /\ files (world s') = ∅
       /\ bucket (world s') = ∅.
Proof.
  assert (H : index_listed (index_name (self Sample.fresh_serving))
                (world Sample.fresh_serving)).
  { exists Sample.the_index. split; [left|]; reflexivity. }
  split; [exact H|].
  destruct (load_index_present_binds_only str_int Sample.fresh_serving H)
    as (found & s' & Hrun & Hi & Hin & _ & Htr & _ & Hf & Hb & _).
  exists s'. split; [exact Hrun|].
  split. { destruct Hin as [<-|[]]. exact Hi. }
  split; [exact Htr|]. split; [exact Hf|exact Hb].
Defined.

Lemma load_index_absent_creates_once_witness :
  ~ index_listed (index_name (self Sample.fresh_empty)) (world Sample.fresh_empty)
  /\ (corpus (world Sample.fresh_empty) <> []
      \/ is_Some (files (world Sample.fresh_empty) !! TMP_FILE_PATH))
  /\ exists evs s',
       load_index str_int Sample.fresh_empty = (inr tt, s')
       /\ trace (world s') = trace (world Sample.fresh_empty) ++ evs
       /\ count_events is_create evs = 1%nat
       /\ count_events is_upload evs = 1%nat
       /\ count_events is_update evs = 1%nat
       /\ index (self s') = Some (created_index Sample.fresh_empty).
Proof.
  assert (H : ~ index_listed (index_name (self Sample.fresh_empty))
                  (world Sample.fresh_empty)).
  { intros (i & [] & _). }
  assert (Hc : corpus (world Sample.fresh_empty) <> []
               \/ is_Some (files (world Sample.fresh_empty) !! TMP_FILE_PATH)).
  { left. discriminate. }
  split; [exact H|]. split; [exact Hc|].
  destruct (load_index_absent_creates_once str_int Sample.fresh_empty H Hc)
    as (evs & s' & Hrun & Htr & _ & Hc1 & Hu & Hd & Hi & _).
  exists evs, s'. auto 10.
Defined.

(** C6, the claim as stated, fails: on a new client whose corpus is empty,
    no staging file existing, [load_index] creates the index and runs the
    pipeline, which makes no batch and so never opens the staging file;
    the upload then raises [FileNotFoundError].  Nothing is uploaded and
    the index is not updated. *)
Lemma load_index_empty_corpus_raises :
  ~ index_listed (index_name (self Sample.fresh_no_corpus)) (world Sample.fresh_no_corpus)
  /\ corpus (world Sample.fresh_no_corpus) = []
  /\ files (world Sample.fresh_no_corpus) !! TMP_FILE_PATH = None
  /\ fst (load_index str_int Sample.fresh_no_corpus) = inl (FileNotFoundError "tmp.json")
  /\ trace (world (snd (load_index str_int Sample.fresh_no_corpus)))
     = [EvInit PROJECT_ID REGION;
        EvListIndexes "display_name=index_org_model";
        EvCreateIndex "index_org_model" 2
          "DOT_PRODUCT_DISTANCE" "SHARD_SIZE_SMALL" "STREAM_UPDATE";
        EvLoadPassages ["corpus.jsonl"]]
  /\ count_events is_upload (trace (world (snd (load_index str_int Sample.fresh_no_corpus))))
     = 0%nat
  /\ count_events is_update (trace (world (snd (load_index str_int Sample.fresh_no_corpus))))
     = 0%nat
  /\ bucket (world (snd (load_index str_int Sample.fresh_no_corpus))) !! TMP_FILE_PATH = None.
Proof.
  split. { intros (i & [] & _). }
  repeat split; vm_compute; reflexivity.
Qed.

Lemma load_index_twice_creates_once_witness :
  ~ index_listed (index_name (self Sample.fresh_empty)) (world Sample.fresh_empty)
  /\ exists evs1 evs2 s1 s2,
       load_index str_int Sample.fresh_empty = (inr tt, s1)
       /\ load_index str_int s1 = (inr tt, s2)
       /\ trace (world s2) = (trace (world Sample.fresh_empty) ++ evs1) ++ evs2
       /\ count_events is_create (evs1 ++ evs2) = 1%nat
       /\ evs2 = [EvListIndexes "display_name=index_org_model";
                  EvGetIndex "index_org_model"]
       /\ self s2 = self s1.
Proof.
  assert (H : ~ index_listed (index_name (self Sample.fresh_empty))
                  (world Sample.fresh_empty)).
  { intros (i & [] & _). }
  split; [exact H|].
  destruct (load_index_twice_creates_once str_int Sample.fresh_empty H)
    as (r1 & evs1 & evs2 & s1 & s2 & Hr1 & _ & Hret & Hr2 & Ht1 & Ht2 & Hc & He & Hs & _).
  rewrite (Hret ltac:(left; discriminate)) in Hr1.
  exists evs1, evs2, s1, s2. rewrite Ht2, Ht1. auto 10.
Defined.

(** C5, the claim as stated, fails: on a client that holds the index
    handle, a further [load_index] is not a no-op; it calls the service
    again (the existence check and the bind), which the trace records.
    And when the index is no longer listed, the client holding its handle
    all the same, the further call creates an index again. *)
Lemma load_index_held_handle_not_noop :
  is_Some (index (self Sample.loaded_once))
  /\ load_index str_int Sample.loaded_once <> (inr tt, Sample.loaded_once)
  /\ length (trace (world (snd (load_index str_int Sample.loaded_once))))
     = (length (trace (world Sample.loaded_once)) + 2)%nat
  /\ is_Some (index (self Sample.held_unlisted))
  /\ count_events is_create (trace (world Sample.held_unlisted)) = 0%nat
  /\ count_events is_create
       (trace (world (snd (load_index str_int Sample.held_unlisted)))) = 1%nat.
Proof.
  split; [|split; [|split; [|split; [|split]]]].
  - vm_compute. eauto.
  - intros H.
    apply (f_equal (fun r => length (trace (world (snd r))))) in H.
    vm_compute in H. discriminate H.
  - vm_compute. reflexivity.
  - vm_compute. eauto.
  - reflexivity.
  - vm_compute. reflexivity.
Qed.

(** C2 on a new client, the service knowing no endpoint of that name:
    [load_endpoint] creates the index, then raises on
    [self.endpoint.display_name]; no deployment is issued and the endpoint
    handle stays [None]. *)
Lemma load_endpoint_fresh_client_raises :
  index (self Sample.fresh_empty) = None
  /\ fst (load_endpoint str_int Sample.fresh_empty)
     = inl (AttributeError "NoneType" "display_name")
  /\ is_Some (index (self (snd (load_endpoint str_int Sample.fresh_empty))))
  /\ endpoint (self (snd (load_endpoint str_int Sample.fresh_empty))) = None
  /\ count_events is_deploy (trace (world (snd (load_endpoint str_int Sample.fresh_empty))))
     = 0%nat.
Proof.
  split; [reflexivity|]. split; [vm_compute; reflexivity|].
  split; [vm_compute; eauto|]. split; vm_compute; reflexivity.
Qed.

(** C1 on a client that has created its index (so [doc_map] maps 3 and 8
    to their passages) and whose endpoint exists: the service returns two
    neighbours, [search] sorts them by descending distance and then raises
    on [self.doc] instead of returning the two passages, whether the ids
    come back as integers or as strings. *)
Lemma search_raises_on_populated_client :
  doc_map (self (Sample.created_client Sample.int_neighbors)) !! KInt 3 = Some "p3"
  /\ doc_map (self (Sample.created_client Sample.int_neighbors)) !! KInt 8 = Some "p8"
  /\ fst (search_sorted_data str_int Z.ltb [[1; 0]] 2
            (Sample.created_client Sample.int_neighbors))
     = inr [mkNeighbor (KInt 8) 9; mkNeighbor (KInt 3) 5]
  /\ fst (search str_int Z.ltb [[1; 0]] 2 (Sample.created_client Sample.int_neighbors))
     = inl (AttributeError "VertexIndex" "doc")
  /\ fst (search str_int Z.ltb [[1; 0]] 2 (Sample.created_client Sample.two_neighbors))
     = inl (AttributeError "VertexIndex" "doc").
Proof. repeat split; vm_compute; reflexivity. Qed.

Lemma search_reads_missing_doc_witness :
  reachable str_int Z.ltb Sample.name_as_path (Sample.created_client Sample.two_neighbors)
  /\ fst (search_sorted_data str_int Z.ltb [[1; 0]] 2
            (Sample.created_client Sample.two_neighbors))
     = inr [mkNeighbor (KStr "8") 9; mkNeighbor (KStr "3") 5]
  /\ search str_int Z.ltb [[1; 0]] 2 (Sample.created_client Sample.two_neighbors)
     = (inl (AttributeError "VertexIndex" "doc"),
        snd (search_sorted_data str_int Z.ltb [[1; 0]] 2
               (Sample.created_client Sample.two_neighbors))).
Proof.
  assert (H : reachable str_int Z.ltb Sample.name_as_path
                (Sample.created_client Sample.two_neighbors)).
  { apply reach_load_index, reach_init. }
  assert (Hfst : fst (search_sorted_data str_int Z.ltb [[1; 0]] 2
                        (Sample.created_client Sample.two_neighbors))
                 = inr [mkNeighbor (KStr "8") 9; mkNeighbor (KStr "3") 5]).
  { vm_compute. reflexivity. }
  split; [exact H|]. split; [exact Hfst|].
  destruct (search_reads_missing_doc str_int Z.ltb Sample.name_as_path
              (Sample.created_client Sample.two_neighbors) [[1; 0]] 2 H) as (Hraise & _).
  apply (Hraise [mkNeighbor (KStr "8") 9; mkNeighbor (KStr "3") 5]); [|discriminate].
  rewrite <- Hfst. apply surjective_pairing.
Defined.

(** C10, the claim as stated, fails: on a client whose [doc_map] is filled,
    a [search] for which the service has no candidate reaches the mapping
    step and returns the empty list; it does not raise. *)
Lemma search_without_candidates_returns :
  reachable str_int Z.ltb Sample.name_as_path (Sample.created_client Sample.no_neighbors)
  /\ doc_map (self (Sample.created_client Sample.no_neighbors)) !! KInt 0 = Some "p0"
  /\ fst (search_sorted_data str_int Z.ltb [[1; 0]] 1
            (Sample.created_client Sample.no_neighbors)) = inr []
  /\ fst (search str_int Z.ltb [[1; 0]] 1 (Sample.created_client Sample.no_neighbors))
     = inr []
  /\ (forall e, fst (search str_int Z.ltb [[1; 0]] 1
                       (Sample.created_client Sample.no_neighbors)) <> inl e).
Proof.
  split; [apply reach_load_index, reach_init|].
  split; [vm_compute; reflexivity|].
  split; [vm_compute; reflexivity|].
  assert (H : fst (search str_int Z.ltb [[1; 0]] 1
                     (Sample.created_client Sample.no_neighbors)) = inr []).
  { vm_compute. reflexivity. }
  split; [exact H|]. intros e. rewrite H. discriminate.
Qed.



(** * Further properties of the client *)

Section MoreProperties.
Context {Passage Value Distance : Type}.
Variable str_value : Value -> string.
Variable dist_ltb : Distance -> Distance -> bool.

Local Abbreviation St := (@St Passage Value Distance).
Local Abbreviation World := (@World Passage Value Distance).
Local Abbreviation Model := (@Model Passage Value).
Local Abbreviation Event := (@Event Passage Value).
Local Abbreviation MatchNeighbor := (@MatchNeighbor Distance).
Local Abbreviation Embedding := (@Embedding Value).
Local Abbreviation M := (@M Passage Value Distance).

(** Runs the monad's plumbing and the projections of built states;
    [exec_with] also uses equations on the handles along the way. *)
Ltac exec_with Hi He :=
  repeat (progress (cbn [self world endpoint index set_endpoint set_index];
                    rewrite ?Hi, ?He; cbv beta iota)).

Ltac exec :=
  cbv beta iota zeta delta
    [bind ret raise get put emit logger_info modify_self modify_world];
  cbn [self world].

(** ** The batcher at its edges *)

Lemma _write_embeddings_zero_run (s : St) :
  exists s',
    _write_embeddings str_value 0 s = (inl ZeroDivisionError, s')
    /\ doc_map (self s') = enumerated (corpus (world s))
    /\ trace (world s') = trace (world s) ++ [EvLoadPassages ["corpus.jsonl"]]
    /\ files (world s') = files (world s)
    /\ logs (world s') = logs (world s).
Proof.
  unfold _write_embeddings. exec. eexists. split; [reflexivity|]. simpl. auto.
Qed.

(** X1: a batch size of 0 makes [_write_embeddings] raise
    [ZeroDivisionError], after it has read the corpus and replaced
    [doc_map]: the model is not called, nothing is written or logged. *)
Theorem write_embeddings_zero_batch_size (s : St) :
  exists s',
    _write_embeddings str_value 0 s = (inl ZeroDivisionError, s')
    /\ doc_map (self s') = enumerated (corpus (world s))
    /\ trace (world s') = trace (world s) ++ [EvLoadPassages ["corpus.jsonl"]]
    /\ count_events is_encode (trace (world s')) = count_events is_encode (trace (world s))
    /\ count_events is_encode_corpus (trace (world s'))
       = count_events is_encode_corpus (trace (world s))
    /\ files (world s') = files (world s)
    /\ logs (world s') = logs (world s).
Proof.
  destruct (_write_embeddings_zero_run s) as (s' & Hrun & Hd & Htr & Hf & Hl).
  exists s'. rewrite Htr, !(count_events_app _ (trace (world s))). simpl.
  rewrite !Nat.add_0_r. auto 10.
Qed.

(** X2: a negative batch size gives no batch at all:
    [_write_embeddings] returns normally, having replaced [doc_map] and
    logged that 0 passages were encoded; the model is not called and the
    staging file is not opened. *)
Theorem write_embeddings_negative_batch_size (B : Z) (s : St) :
  B < 0 ->
  exists s',
    _write_embeddings str_value B s = (inr tt, s')
    /\ doc_map (self s') = enumerated (corpus (world s))
    /\ trace (world s') = trace (world s) ++ [EvLoadPassages ["corpus.jsonl"]]
    /\ files (world s') = files (world s)
    /\ logs (world s') = logs (world s) ++ ["0 passages encoded."].
Proof.
  intros HB. unfold _write_embeddings.
  destruct (int_true_div_nonzero (len (corpus (world s))) B ltac:(lia)) as (x & Hx & Hnb).
  assert (Hn : range 0 (math_ceil x) = []).
  { unfold range. apply seqZ_nil. rewrite <- Hnb.
    pose proof (n_batch_nonpos (len (corpus (world s))) B). unfold len in *. lia. }
  exec. cbn [corpus add_event]. rewrite Hx. cbv beta iota. rewrite Hn. simpl for_each. exec.
  eexists. split; [reflexivity|]. simpl. auto.
Qed.

(** ** The mapping from ids to passages *)

Lemma dict_of_enumerated_lookup (l : list Passage) :
  forall (m : gmap pykey Passage) (a : Z) (k : pykey),
  foldl (fun m kv => <[fst kv := snd kv]> m) m
        (map (fun p => (KInt (fst p), snd p)) (zip (seqZ a (len l)) l)) !! k
  = match k with
    | KInt i => if decide (a <= i < a + len l) then l !! Z.to_nat (i - a) else m !! k
    | KStr _ => m !! k
    end.
Proof.
  induction l as [|x l IH]; intros m a k.
  - simpl. destruct k as [i|id]; [|done]. unfold len. simpl.
    destruct (decide _); [lia|done].
  - unfold len in *. rewrite seqZ_cons by (simpl; lia).
    replace (Z.pred (Z.of_nat (length (x :: l)))) with (Z.of_nat (length l)) by (simpl; lia).
    simpl foldl. rewrite IH. destruct k as [i|id].
    + destruct (decide (Z.succ a <= i < Z.succ a + Z.of_nat (length l))) as [H|H].
      * destruct (decide _) as [_|H']; [|simpl in H'; lia].
        replace (Z.to_nat (i - a)) with (S (Z.to_nat (i - Z.succ a))) by lia. done.
      * destruct (decide (i = a)) as [->|Hne].
        -- rewrite lookup_insert_eq.
           destruct (decide _) as [_|H']; [|simpl in H'; lia].
           by rewrite Z.sub_diag.
        -- rewrite lookup_insert_ne by congruence.
           destruct (decide _) as [H'|_]; [simpl in H'; lia|done].
    + by rewrite lookup_insert_ne.
Qed.

Lemma enumerated_lookup (l : list Passage) (k : pykey) :
  enumerated l !! k
  = match k with
    | KInt i => if decide (0 <= i) then l !! Z.to_nat i else None
    | KStr _ => None
    end.
Proof.
  unfold enumerated, dict_of_items, enumerate.
  rewrite dict_of_enumerated_lookup. destruct k as [i|id]; [|done].
  rewrite Z.sub_0_r, lookup_empty.
  destruct (decide (0 <= i < 0 + len l)) as [H|H]; destruct (decide (0 <= i)) as [H'|H'];
    try done; try lia.
  symmetry. apply lookup_ge_None. unfold len in H. lia.
Qed.

Lemma doc_map_after_write_embeddings (B : Z) (s : St) :
  doc_map (self (snd (_write_embeddings str_value B s))) = enumerated (corpus (world s)).
Proof.
  destruct (Z.eq_dec B 0) as [->|HB].
  - destruct (_write_embeddings_zero_run s) as (s' & Hrun & H & _).
    rewrite Hrun. exact H.
  - destruct (_write_embeddings_run str_value B s HB) as (s' & Hrun & Hself & _).
    rewrite Hrun. simpl. by rewrite Hself.
Qed.

(** X3: whatever the batch size, after [_write_embeddings] the mapping
    [doc_map] is the corpus indexed by position and nothing else: the
    integer [i] maps to [passages[i]], an integer outside [0, N) is no key,
    and no string is a key (so neither is the decimal string written as the
    [id] of a staged record).  Earlier entries of [doc_map] are gone. *)
Theorem write_embeddings_doc_map_lookup (B : Z) (s : St) :
  (forall i : nat,
     doc_map (self (snd (_write_embeddings str_value B s))) !! KInt (Z.of_nat i)
     = corpus (world s) !! i)
  /\ (forall z : Z,
     z < 0 \/ len (corpus (world s)) <= z ->
     doc_map (self (snd (_write_embeddings str_value B s))) !! KInt z = None)
  /\ (forall id : string,
     doc_map (self (snd (_write_embeddings str_value B s))) !! KStr id = None).
Proof.
  rewrite doc_map_after_write_embeddings. split; [|split].
  - intros i. rewrite enumerated_lookup.
    destruct (decide _); [|lia]. by rewrite Nat2Z.id.
  - intros z Hz. rewrite enumerated_lookup.
    destruct (decide _); [|done]. apply lookup_ge_None. unfold len in Hz. lia.
  - intros id. by rewrite enumerated_lookup.
Qed.

(** ** The sink at its edges *)

Lemma length_zip_min {A B} (l : list A) (k : list B) :
  length (zip l k) = Nat.min (length l) (length k).
Proof.
  revert k. induction l as [|a l IH]; intros [|b k]; simpl; try done.
  by rewrite IH.
Qed.

(** X4: the sink writes one record per pair of [zip(indices, embeddings)],
    so as many as the shorter of the two lists; the surplus of the longer
    one is dropped without an error.  With no pair the content of the
    staging file is unchanged, but the file exists afterwards.  No other
    file, nothing in the bucket and nothing of the object is touched, and
    the call never raises. *)
Theorem sink_writes_shorter_of_both (embeddings : list Embedding) (indices : list Z) (s : St) :
  exists records s',
    _write_embeddings_to_tmp_file str_value embeddings indices s = (inr tt, s')
    /\ trace (world s') = trace (world s) ++ [EvAppend TMP_FILE_PATH records]
    /\ length records = Nat.min (length indices) (length embeddings)
    /\ files (world s') !! TMP_FILE_PATH
       = Some (read_file TMP_FILE_PATH (world s) +:+ lines_of records)
    /\ (records = [] -> read_file TMP_FILE_PATH (world s') = read_file TMP_FILE_PATH (world s))
    /\ (forall path, path <> TMP_FILE_PATH -> files (world s') !! path = files (world s) !! path)
    /\ bucket (world s') = bucket (world s)
    /\ self s' = self s.
Proof.
  unfold _write_embeddings_to_tmp_file. exec.
  eexists _, _. split; [reflexivity|]. simpl.
  split; [done|]. split; [by rewrite length_map, length_zip_min|].
  split; [by rewrite lookup_insert_eq|].
  split.
  { intros Hnil. unfold read_file at 1. simpl. rewrite lookup_insert_eq. simpl.
    apply (f_equal (@length _)) in Hnil. rewrite length_map in Hnil.
    destruct (zip indices embeddings); [|done]. simpl. apply sapp_nil_r. }
  split; [|done].
  intros path Hne. by rewrite lookup_insert_ne.
Qed.

(** ** The batches as a partition of the corpus *)

Lemma slice_nonneg {A} (l : list A) (lo hi : Z) :
  0 <= lo <= hi ->
  slice l lo hi = take (Z.to_nat (hi - lo)) (drop (Z.to_nat lo) l).
Proof.
  intros H. unfold slice, clamp_index.
  destruct (Z.ltb_spec lo 0); [lia|]. destruct (Z.ltb_spec hi 0); [lia|].
  destruct (Z.le_gt_cases (Z.of_nat (length l)) lo) as [Hlo|Hlo].
  - rewrite !drop_ge by lia. by rewrite !take_nil.
  - rewrite (Z.min_l lo) by lia.
    destruct (Z.le_gt_cases (Z.of_nat (length l)) hi) as [Hhi|Hhi].
    + rewrite (Z.min_r hi) by lia.
      rewrite !take_ge; [done|rewrite length_drop; lia|rewrite length_drop; lia].
    + by rewrite (Z.min_l hi) by lia.
Qed.

Lemma concat_slices {A} (l : list A) (B : Z) (k : nat) :
  0 < B ->
  concat (map (fun i => slice l (i * B) ((i + 1) * B)) (seqZ 0 (Z.of_nat k)))
  = take (Z.to_nat (Z.of_nat k * B)) l.
Proof.
  intros HB. induction k as [|k IH].
  - done.
  - rewrite seqZ_S, map_app, concat_app, IH. simpl. rewrite app_nil_r, Z.add_0_l.
    rewrite slice_nonneg by nia.
    rewrite take_take_drop. f_equal. nia.
Qed.

Lemma concat_all_slices {A} (l : list A) (B : Z) :
  0 < B ->
  concat (map (fun i => slice l (i * B) ((i + 1) * B)) (range 0 (ceil_div (len l) B))) = l.
Proof.
  intros HB.
  pose proof (ceil_div_bounds (len l) B HB) as Hc.
  assert (Hn : 0 <= ceil_div (len l) B) by (apply ceil_div_nonneg; unfold len; lia).
  unfold range. rewrite Z.sub_0_r.
  rewrite <- (Z2Nat.id (ceil_div (len l) B)) at 1 by done.
  rewrite concat_slices by done. rewrite Z2Nat.id by done.
  apply take_ge. unfold len in *. lia.
Qed.

(** X5: for a batch size 0 < B < 2^1075 and a corpus of fewer than 2^53
    passages (where the float quotient gives the exact number of batches),
    the batches handed to the model are a partition of the corpus in
    order: concatenated in call order they are the corpus, so every passage
    is encoded exactly once; every batch but possibly the last has exactly
    B passages, and no batch is empty. *)
Theorem write_embeddings_batches_partition (B : Z) (s : St) :
  0 < B < 2 ^ 1075 ->
  len (corpus (world s)) < 2 ^ 53 ->
  exists evs s',
    _write_embeddings str_value B s = (inr tt, s')
    /\ trace (world s') = trace (world s) ++ evs
    /\ concat (encoded_batches evs) = corpus (world s)
    /\ Forall (fun batch => (0 < length batch)%nat /\ Z.of_nat (length batch) <= B)
              (encoded_batches evs)
    /\ (forall i batch,
          encoded_batches evs !! i = Some batch ->
          (S i < length (encoded_batches evs))%nat ->
          Z.of_nat (length batch) = B).
Proof.
  intros HB Hsmall.
  destruct (_write_embeddings_run str_value B s ltac:(lia)) as (s' & Hrun & _ & Htr & _).
  exists (pipeline_events str_value (model (self s)) (corpus (world s)) B), s'.
  set (passages := corpus (world s)) in *.
  assert (Hnb : n_batch (len passages) B = ceil_div (len passages) B).
  { apply n_batch_exact; [split; [unfold len; lia|exact Hsmall]|exact HB]. }
  assert (Hbs : encoded_batches (pipeline_events str_value (model (self s)) passages B)
       = map (fun i => slice passages (i * B) ((i + 1) * B))
             (range 0 (ceil_div (len passages) B))).
  { unfold pipeline_events. change (encoded_batches (?e :: ?l)) with (encoded_batches l).
    rewrite <- Hnb. apply encoded_batches_flat_map. }
  pose proof (ceil_div_bounds (len passages) B ltac:(lia)) as Hc.
  assert (Hn : 0 <= ceil_div (len passages) B) by (apply ceil_div_nonneg; unfold len; lia).
  split; [done|]. split; [done|]. rewrite Hbs.
  split; [apply concat_all_slices; lia|].
  split.
  - apply Forall_forall. intros batch Hin.
    apply list_elem_of_In, in_map_iff in Hin as (i & <- & Hi).
    apply list_elem_of_In, elem_of_seqZ in Hi.
    rewrite length_slice by nia. unfold len in *. nia.
  - intros i batch Hlook Hlt.
    rewrite length_map in Hlt. unfold range in Hlt, Hlook. rewrite length_seqZ in Hlt.
    rewrite list_lookup_fmap in Hlook.
    rewrite lookup_seqZ_lt in Hlook by lia. simpl in Hlook. injection Hlook as <-.
    rewrite length_slice by nia. unfold len in *. nia.
Qed.

(** ** Ids and encoders *)

Lemma batch_record_ids_any_model (m : Model) (passages : list Passage) (B i : Z) :
  0 <= B ->
  map record_id (batch_records str_value m passages B i)
  = map (fun k => Some (str_int k))
        (range (i * B)
               (i * B + Z.min B (len (encoder m (slice passages (i * B) ((i + 1) * B)) B)))).
Proof.
  intros HB. unfold batch_records.
  rewrite map_map.
  rewrite (map_ext _ (fun p => Some (str_int (fst p))))
    by (intros []; apply record_id_embedding_record).
  rewrite <- (map_map fst (fun k => Some (str_int k))), fst_zip_take.
  unfold range, len. rewrite take_seqZ. do 2 f_equal. lia.
Qed.

(** X6: the ids of a batch are tied to its position, not to a running
    count: for B > 0, batch [i] of the [math.ceil(N / B)] batches writes the
    ids [i*B, i*B + 1, ...], as many as the model returned embeddings for
    it, and at most B.  A model that returns fewer embeddings than passages
    leaves a gap in the ids before the next batch; embeddings beyond the
    B-th are dropped. *)
Theorem write_embeddings_ids_follow_batch_position (B : Z) (s : St) :
  0 < B ->
  exists evs s',
    _write_embeddings str_value B s = (inr tt, s')
    /\ trace (world s') = trace (world s) ++ evs
    /\ written_ids evs
       = map (fun i =>
                map (fun k => Some (str_int k))
                    (range (i * B)
                       (i * B + Z.min B (len (encoder (model (self s))
                                                 (slice (corpus (world s)) (i * B) ((i + 1) * B))
                                                 B)))))
             (range 0 (n_batch (len (corpus (world s))) B))
    /\ (B < 2 ^ 1075 -> len (corpus (world s)) < 2 ^ 53 ->
        n_batch (len (corpus (world s))) B = ceil_div (len (corpus (world s))) B).
Proof.
  intros HB.
  destruct (_write_embeddings_run str_value B s ltac:(lia)) as (s' & Hrun & _ & Htr & _).
  exists (pipeline_events str_value (model (self s)) (corpus (world s)) B), s'.
  split; [done|]. split; [done|]. split.
  - unfold pipeline_events. change (written_ids (?e :: ?l)) with (written_ids l).
    rewrite written_ids_flat_map. apply map_ext. intros i.
    apply batch_record_ids_any_model. lia.
  - intros HB' Hsmall. apply n_batch_exact; [split; [unfold len; lia|exact Hsmall]|lia].
Qed.

Lemma count_events_batches (p : Event -> bool) (m : Model) (passages : list Passage)
    (B : Z) (batches : list Z) (b : bool) :
  (forall batch, p (encode_event m batch B) = b) ->
  (forall path rs, p (EvAppend path rs) = false) ->
  count_events p (flat_map (batch_events str_value m passages B) batches)
  = if b then length batches else 0%nat.
Proof.
  intros He Ha. unfold count_events.
  induction batches as [|i batches IH]; [by destruct b|].
  simpl. rewrite He, Ha. destruct b; simpl in *; by rewrite IH.
Qed.

(** X7: [_write_embeddings] calls one encoder only.  A model that has
    [encode_corpus] is never asked to [encode], a model without it is asked
    to [encode] once per batch; either way there is one call for each of
    the [math.ceil(N / B)] batches, and every call is given the batch size
    that cut the batches. *)
Theorem write_embeddings_prefers_encode_corpus (B : Z) (s : St) :
  B <> 0 ->
  exists evs s',
    _write_embeddings str_value B s = (inr tt, s')
    /\ trace (world s') = trace (world s) ++ evs
    /\ (is_Some (encode_corpus (model (self s))) ->
        count_events is_encode evs = 0%nat
        /\ count_events is_encode_corpus evs
           = Z.to_nat (n_batch (len (corpus (world s))) B))
    /\ (encode_corpus (model (self s)) = None ->
        count_events is_encode_corpus evs = 0%nat
        /\ count_events is_encode evs
           = Z.to_nat (n_batch (len (corpus (world s))) B))
    /\ Forall (fun ev => match ev with
                         | EvEncode _ size | EvEncodeCorpus _ size => size = B
                         | _ => True
                         end) evs.
Proof.
  intros HB.
  destruct (_write_embeddings_run str_value B s HB) as (s' & Hrun & _ & Htr & _).
  exists (pipeline_events str_value (model (self s)) (corpus (world s)) B), s'.
  split; [done|]. split; [done|].
  assert (Hlen : length (range 0 (n_batch (len (corpus (world s))) B))
                 = Z.to_nat (n_batch (len (corpus (world s))) B)).
  { unfold range. rewrite length_seqZ. f_equal. lia. }
  unfold pipeline_events.
  change (count_events ?p (EvLoadPassages ?f :: ?l)) with (count_events p l).
  split; [|split].
  - intros [f Hf].
    rewrite (count_events_batches is_encode _ _ _ _ false),
            (count_events_batches is_encode_corpus _ _ _ _ true);
      try done; intros batch; unfold encode_event; by rewrite Hf.
  - intros Hf.
    rewrite (count_events_batches is_encode_corpus _ _ _ _ false),
            (count_events_batches is_encode _ _ _ _ true);
      try done; intros batch; unfold encode_event; by rewrite Hf.
  - constructor; [done|]. clear Hlen.
    induction (range 0 (n_batch (len (corpus (world s))) B)) as [|i l IH]; [constructor|].
    simpl. constructor; [|constructor; [done|exact IH]].
    unfold encode_event. by destruct (encode_corpus (model (self s))).
Qed.

(** ** The log of a run of the batcher *)

Lemma encode_batch_total_and_log (passages : list Passage) (B i total : Z) (s : St) :
  exists s1,
    encode_batch str_value passages B i total s
    = (inr (total + len (encoder (model (self s)) (slice passages (i * B) ((i + 1) * B)) B)),
       s1)
    /\ self s1 = self s
    /\ logs (world s1)
       = logs (world s)
         ++ (if logs_progress i
             then [progress_line
                     (total + len (encoder (model (self s))
                                     (slice passages (i * B) ((i + 1) * B)) B))]
             else []).
Proof.
  unfold encode_batch, _write_embeddings_to_tmp_file, encoder, logs_progress, progress_line.
  exec.
  destruct (encode_corpus (model (self s))) as [f|]; simpl;
    destruct ((i mod 500 =? 0) && (0 <? i)); simpl;
    (eexists; split; [reflexivity|]; simpl; by rewrite ?app_nil_r).
Qed.

Lemma for_each_total_and_log (passages : list Passage) (B : Z) (k : nat) :
  0 < B ->
  forall (a total : Z) (s : St),
  (forall batch, length (encoder (model (self s)) batch B) = length batch) ->
  0 <= a ->
  total = Z.min (a * B) (len passages) ->
  exists s1,
    for_each (seqZ a (Z.of_nat k)) total (encode_batch str_value passages B) s
    = (inr (Z.min ((a + Z.of_nat k) * B) (len passages)), s1)
    /\ self s1 = self s
    /\ logs (world s1)
       = logs (world s)
         ++ map (fun i => progress_line (Z.min ((i + 1) * B) (len passages)))
                (List.filter logs_progress (seqZ a (Z.of_nat k))).
Proof.
  intros HB. induction k as [|k IH]; intros a total s Hlen Ha Ht.
  - exists s. simpl. rewrite app_nil_r, Z.add_0_r, Ht. done.
  - rewrite seqZ_cons by lia.
    replace (Z.pred (Z.of_nat (S k))) with (Z.of_nat k) by lia.
    destruct (encode_batch_total_and_log passages B a total s) as (s1 & Hrun & Hself & Hlog).
    assert (Htot : total + len (encoder (model (self s))
                                  (slice passages (a * B) ((a + 1) * B)) B)
                   = Z.min (Z.succ a * B) (len passages)).
    { unfold len at 1. rewrite Hlen, length_slice by nia. unfold len in *. nia. }
    rewrite Htot in Hrun, Hlog.
    destruct (IH (Z.succ a) (Z.min (Z.succ a * B) (len passages)) s1)
      as (s2 & Hrun2 & Hself2 & Hlog2); [by rewrite Hself|lia|done|].
    exists s2. simpl for_each. unfold bind at 1. rewrite Hrun, Hrun2.
    split; [do 2 f_equal; lia|]. split; [congruence|].
    rewrite Hlog2, Hlog. simpl List.filter.
    destruct (logs_progress a); simpl; rewrite <- app_assoc; [|done].
    simpl. done.
Qed.

Lemma no_progress_below_501 (n : Z) :
  n <= 500 -> List.filter logs_progress (seqZ 0 n) = [].
Proof.
  intros Hn.
  destruct (List.filter logs_progress (seqZ 0 n)) as [|i l] eqn:E; [done|].
  assert (Hin : In i (List.filter logs_progress (seqZ 0 n))) by (rewrite E; simpl; auto).
  apply filter_In in Hin as [Hin Hp].
  apply list_elem_of_In, elem_of_seqZ in Hin.
  unfold logs_progress in Hp. apply andb_true_iff in Hp as [Hm Hpos].
  apply Z.eqb_eq in Hm. apply Z.ltb_lt in Hpos.
  apply Z.mod_divide in Hm; [|lia]. destruct Hm as [q Hq]. lia.
Qed.

(** X8: the log of a run of [_write_embeddings], for 0 < B < 2^1075, a
    corpus of fewer than 2^53 passages and a model that returns one
    embedding per passage: one progress line after each batch whose index
    is a positive multiple of 500, giving the number of passages encoded
    so far, [min((i+1)*B, N)], and then the final line with the total N.
    With at most 500 batches the final line is the only one. *)
Theorem write_embeddings_log_lines (B : Z) (s : St) :
  0 < B < 2 ^ 1075 ->
  len (corpus (world s)) < 2 ^ 53 ->
  (forall batch, length (encoder (model (self s)) batch B) = length batch) ->
  exists s',
    _write_embeddings str_value B s = (inr tt, s')
    /\ logs (world s')
       = logs (world s)
         ++ map (fun i => progress_line (Z.min ((i + 1) * B) (len (corpus (world s)))))
                (List.filter logs_progress (range 0 (ceil_div (len (corpus (world s))) B)))
         ++ [str_int (len (corpus (world s))) +:+ " passages encoded."]
    /\ (ceil_div (len (corpus (world s))) B <= 500 ->
        logs (world s')
        = logs (world s) ++ [str_int (len (corpus (world s))) +:+ " passages encoded."]).
Proof.
  intros HB Hsmall Hlen.
  assert (HB0 : 0 < B) by lia.
  set (N := len (corpus (world s))).
  assert (Hnb : n_batch N B = ceil_div N B).
  { apply n_batch_exact; [split; [unfold N, len; lia|exact Hsmall]|exact HB]. }
  pose proof (ceil_div_bounds N B HB0) as Hc.
  assert (Hn : 0 <= ceil_div N B) by (apply ceil_div_nonneg; unfold N, len; lia).
  assert (Hrun : exists s',
    _write_embeddings str_value B s = (inr tt, s')
    /\ logs (world s')
       = logs (world s)
         ++ map (fun i => progress_line (Z.min ((i + 1) * B) N))
                (List.filter logs_progress (range 0 (ceil_div N B)))
         ++ [str_int N +:+ " passages encoded."]).
  { unfold _write_embeddings.
    destruct (int_true_div_nonzero N B ltac:(lia)) as (x & Hx & Hmc).
    exec. cbn [corpus add_event]. fold N. rewrite Hx, <- Hmc, Hnb. cbv beta iota.
    match goal with |- context [for_each _ _ _ ?st] => set (s0 := st) end.
    unfold range. rewrite Z.sub_0_r. rewrite <- (Z2Nat.id (ceil_div N B)) by done.
    destruct (for_each_total_and_log (corpus (world s)) B (Z.to_nat (ceil_div N B)) HB0 0 0 s0)
      as (s1 & Hfor & Hself & Hlog); [exact Hlen|lia|unfold len; lia|].
    fold N in Hfor, Hlog. rewrite Hfor.
    eexists. split; [reflexivity|]. simpl. rewrite Hlog. subst s0. simpl.
    rewrite <- app_assoc.
    replace (Z.min ((0 + Z.of_nat (Z.to_nat (ceil_div N B))) * B) N) with N
      by (rewrite Z2Nat.id by done; lia).
    done. }
  destruct Hrun as (s' & Hrun & Hlog). exists s'.
  split; [exact Hrun|]. split; [exact Hlog|].
  intros H500. rewrite Hlog. unfold range. rewrite Z.sub_0_r.
  by rewrite no_progress_below_501.
Qed.

(** ** Provisioning *)

(** X9: whichever branch [load_index] takes, it ends with [self.index]
    bound to an index that the service lists under the configured display
    name, and it changes neither the names, nor the endpoint handle, nor
    the endpoint resources.  It returns normally, except in one case: no
    index of that name listed, an empty corpus and no staging file; there
    it raises the [FileNotFoundError] of the upload, after it has created
    and bound the index. *)
Theorem load_index_binds_listed_index (s : St) :
  exists r i s',
    load_index str_value s = (r, s')
    /\ (r = inr tt \/ r = inl (FileNotFoundError TMP_FILE_PATH))
    /\ (r = inl (FileNotFoundError TMP_FILE_PATH) <->
        ~ index_listed (index_name (self s)) (world s)
        /\ corpus (world s) = [] /\ files (world s) !! TMP_FILE_PATH = None)
    /\ index (self s') = Some i
    /\ In i (indexes (world s'))
    /\ display_name i = index_name (self s')
    /\ index_name (self s') = index_name (self s)
    /\ endpoint_name (self s') = endpoint_name (self s)
    /\ endpoint (self s') = endpoint (self s)
    /\ endpoints (world s') = endpoints (world s).
Proof.
  destruct (load_index_outcome str_value s)
    as (r & evs & s' & Hrun & (i & Hi & Hin & Hd) & Hn & He & Hen & Hes & _ & _ & Hcase).
  exists r, i, s'. split; [exact Hrun|].
  split. { destruct Hcase as [[_ ->]|(_ & _ & _ & ->)]; auto. }
  split.
  { destruct Hcase as [[Hok ->]|(Hl & Hcorpus & Hnone & ->)]; [|done].
    split; [done|]. intros (Hl & Hcorpus & Hnone).
    destruct Hok as [?|[?|[c Hc]]]; [done|done|congruence]. }
  rewrite Hn. auto 10.
Qed.

Lemma find_endpoint_listed (name : string) (l : list MatchingEngineIndexEndpoint) :
  (exists e, In e l /\ ep_display_name e = name) ->
  exists found rest,
    List.find (fun e => String.eqb (ep_display_name e) name) l = Some found
    /\ List.filter (fun e => String.eqb (ep_display_name e) name) l = found :: rest
    /\ In found l /\ ep_display_name found = name.
Proof.
  induction l as [|a l IH]; simpl.
  - intros (e & [] & _).
  - intros (e & He & Hn).
    destruct (String.eqb_spec (ep_display_name a) name) as [E|E].
    + eauto 10.
    + destruct He as [->|He]; [done|].
      destruct IH as (f & r & Hf & Hfl & Hin & Hd); [eauto|]. eauto 10.
Qed.

(** The three ways [load_endpoint] can go once the index handle is held. *)
Lemma load_endpoint_index_held (s : St) (i : MatchingEngineIndex) :
  index (self s) = Some i ->
  exists r evs s',
    load_endpoint str_value s = (r, s')
    /\ trace (world s') = trace (world s) ++ evs
    /\ indexes (world s') = indexes (world s)
    /\ endpoints (world s') = endpoints (world s)
    /\ files (world s') = files (world s)
    /\ bucket (world s') = bucket (world s)
    /\ index (self s') = Some i
    /\ doc_map (self s') = doc_map (self s)
    /\ ((exists found,
           endpoint_listed (endpoint_name (self s)) (world s)
           /\ r = inr tt
           /\ In found (endpoints (world s))
           /\ ep_display_name found = endpoint_name (self s)
           /\ endpoint (self s') = Some found
           /\ evs = [EvListEndpoints ("display_name=" +:+ endpoint_name (self s));
                     EvGetEndpoint (endpoint_name (self s))])
        \/ (exists e,
           ~ endpoint_listed (endpoint_name (self s)) (world s)
           /\ endpoint (self s) = Some e
           /\ r = inr tt
           /\ endpoint (self s') = Some e
           /\ evs = [EvListEndpoints ("display_name=" +:+ endpoint_name (self s));
                     EvDeployIndex (ep_resource_name e) (Some i)
                       (index_name (self s)) (index_name (self s)) MACHINE_TYPE 1 1])
        \/ (~ endpoint_listed (endpoint_name (self s)) (world s)
           /\ endpoint (self s) = None
           /\ r = inl (AttributeError "NoneType" "display_name")
           /\ endpoint (self s') = None
           /\ evs = [EvListEndpoints ("display_name=" +:+ endpoint_name (self s))])).
Proof.
  intros Hi. unfold load_endpoint.
  match goal with |- context [bind get ?k s] => change (bind get k s) with (k s s) end.
  cbv beta. rewrite Hi.
  unfold _endpoint_exists, list_endpoints, get_endpoint, index_attr, endpoint_attr. exec.
  cbn [endpoints add_event].
  destruct (List.filter (fun e => String.eqb (ep_display_name e) (endpoint_name (self s)))
              (endpoints (world s))) as [|x xs] eqn:Hfilter.
  - assert (Hl : ~ endpoint_listed (endpoint_name (self s)) (world s)).
    { intros Hl. destruct (find_endpoint_listed _ _ Hl) as (f & r & _ & Hf & _). congruence. }
    cbn [map]. change (negb (len (@nil string) =? 0)) with false. cbv beta iota.
    destruct (endpoint (self s)) as [e|] eqn:He.
    + exec_with Hi He.
      eexists _, _, _. split; [reflexivity|]. simpl. rewrite <- app_assoc. simpl.
      do 7 (split; [done|]). right. left. exists e. auto 10.
    + exec_with Hi He.
      eexists _, _, _. split; [reflexivity|]. simpl.
      do 7 (split; [done|]). right. right. auto 10.
  - assert (Hl : endpoint_listed (endpoint_name (self s)) (world s)).
    { exists x. assert (Hx : In x (x :: xs)) by (simpl; auto).
      rewrite <- Hfilter in Hx. apply filter_In in Hx as [Hin Heq].
      split; [done|]. by apply String.eqb_eq. }
    destruct (find_endpoint_listed _ _ Hl) as (found & rest & Hfind & _ & Hin & Hd).
    cbn [map length]. unfold len. cbn [length].
    change (negb (Z.of_nat (S (length (map ep_resource_name xs))) =? 0)) with true.
    cbv beta iota. cbn [self world endpoints add_event]. rewrite Hfind.
    cbn [self world endpoint set_endpoint].
    eexists _, _, _. split; [reflexivity|]. simpl. rewrite <- app_assoc. simpl.
    do 7 (split; [done|]). left. exists found. auto 10.
Qed.

Lemma load_endpoint_after_load_index (s s1 : St) :
  index (self s) = None ->
  load_index str_value s = (inr tt, s1) ->
  is_Some (index (self s1)) ->
  load_endpoint str_value s = load_endpoint str_value s1.
Proof.
  intros Hi Hrun [i Hi1]. unfold load_endpoint.
  match goal with |- context [bind get ?k s] => change (bind get k s) with (k s s) end.
  match goal with |- context [bind get ?k s1] => change (bind get k s1) with (k s1 s1) end.
  cbv beta. rewrite Hi, Hi1. unfold bind at 1. rewrite Hrun. reflexivity.
Qed.

(** X10: when an endpoint of the configured display name is listed, and
    the index is held, listed or can be created (there is a staging file
    to upload), [load_endpoint] ends with that listed endpoint bound and
    the index bound, and deploys nothing.  It runs [load_index] first only
    if the index handle was not held; with the index handle held its calls
    are exactly the existence check and the bind of the endpoint, which it
    issues also when the endpoint handle was held already. *)
Theorem load_endpoint_listed_binds (s : St) :
  endpoint_listed (endpoint_name (self s)) (world s) ->
  is_Some (index (self s)) \/ index_listed (index_name (self s)) (world s)
  \/ corpus (world s) <> [] \/ is_Some (files (world s) !! TMP_FILE_PATH) ->
  exists found evs s',
    load_endpoint str_value s = (inr tt, s')
    /\ endpoint (self s') = Some found
    /\ In found (endpoints (world s))
    /\ ep_display_name found = endpoint_name (self s)
    /\ is_Some (index (self s'))
    /\ trace (world s') = trace (world s) ++ evs
    /\ count_events is_deploy evs = 0%nat
    /\ (is_Some (index (self s)) ->
        evs = [EvListEndpoints ("display_name=" +:+ endpoint_name (self s));
               EvGetEndpoint (endpoint_name (self s))]).
Proof.
  intros Hl Hprov. destruct (index (self s)) as [i|] eqn:Hi.
  - destruct (load_endpoint_index_held s i Hi)
      as (r & evs & s' & Hrun & Htr & _ & _ & _ & _ & Hi' & _ & Hcase).
    destruct Hcase as [(found & _ & -> & Hin & Hd & He & ->)|[(e & Hn & _)|(Hn & _)]];
      [|done|done].
    eexists found, _, s'. rewrite Hi'.
    split; [done|]. split; [done|]. split; [done|]. split; [done|].
    split; [eauto|]. split; [exact Htr|]. split; reflexivity || done.
  - destruct (load_index_outcome str_value s)
      as (r1 & evs1 & s1 & Hrun1 & (i & Hi1 & _) & _ & _ & Hn1 & Hes1 & Htr1 & Hside & Hcase1).
    assert (r1 = inr tt) as ->.
    { destruct Hcase1 as [[_ ->]|(Hnl & Hcorpus & Hnone & _)]; [done|].
      destruct Hprov as [[? ?]|[?|[?|[c Hc]]]]; try done; congruence. }
    destruct (index_side_no_deploy evs1 Hside) as [Hd1 _].
    rewrite (load_endpoint_after_load_index s s1 Hi Hrun1) by eauto.
    destruct (load_endpoint_index_held s1 i Hi1)
      as (r & evs & s' & Hrun & Htr & _ & _ & _ & _ & Hi' & _ & Hcase).
    assert (Hl1 : endpoint_listed (endpoint_name (self s1)) (world s1)).
    { destruct Hl as (e & Hin & Hd). exists e. by rewrite Hn1, Hes1. }
    destruct Hcase as [(found & _ & -> & Hin & Hd & He & ->)|[(e & Hn & _)|(Hn & _)]];
      [|done|done].
    eexists found, (evs1 ++ _), s'. rewrite Hi', Htr, Htr1, <- app_assoc.
    rewrite Hes1, Hn1 in *. rewrite count_events_app, Hd1.
    split; [done|]. split; [done|]. split; [done|]. split; [done|].
    split; [eauto|]. split; [done|]. split; [done|]. by intros [? ?].
Qed.

(** X11: the deploy path of [load_endpoint] as the code has it: with the
    index handle and an endpoint handle held and no endpoint of the
    configured name listed, it issues one [deploy_index] on the held
    endpoint, for the held index, with the index name as deployed-index id
    and as display name, the fixed machine type and 1 to 1 replicas.  No
    endpoint resource is created, and the handle stays the one held. *)
Theorem load_endpoint_held_handle_deploys
    (s : St) (i : MatchingEngineIndex) (e : MatchingEngineIndexEndpoint) :
  index (self s) = Some i ->
  endpoint (self s) = Some e ->
  ~ endpoint_listed (endpoint_name (self s)) (world s) ->
  exists s',
    load_endpoint str_value s = (inr tt, s')
    /\ trace (world s')
       = trace (world s)
         ++ [EvListEndpoints ("display_name=" +:+ endpoint_name (self s));
             EvDeployIndex (ep_resource_name e) (Some i)
               (index_name (self s)) (index_name (self s)) MACHINE_TYPE 1 1]
    /\ endpoint (self s') = Some e
    /\ index (self s') = Some i
    /\ endpoints (world s') = endpoints (world s).
Proof.
  intros Hi He Hn.
  destruct (load_endpoint_index_held s i Hi)
    as (r & evs & s' & Hrun & Htr & _ & Hes & _ & _ & Hi' & _ & Hcase).
  destruct Hcase as [(found & Hl & _)|[(e' & _ & He' & -> & He'' & ->)|(_ & He' & _)]];
    [done| |congruence].
  assert (e' = e) as -> by congruence.
  exists s'. auto 10.
Qed.

(** X12: with the index handle held, [load_endpoint] never goes back to
    the index: whatever its outcome, it issues no call on the index
    resource, the model, the staging file or the bucket, and leaves the
    bound index, [doc_map], the listed indexes, the files and the bucket as
    they were. *)
Theorem load_endpoint_held_index_skips_loader (s : St) :
  is_Some (index (self s)) ->
  exists evs,
    trace (world (snd (load_endpoint str_value s))) = trace (world s) ++ evs
    /\ count_events is_index_side evs = 0%nat
    /\ index (self (snd (load_endpoint str_value s))) = index (self s)
    /\ doc_map (self (snd (load_endpoint str_value s))) = doc_map (self s)
    /\ indexes (world (snd (load_endpoint str_value s))) = indexes (world s)
    /\ files (world (snd (load_endpoint str_value s))) = files (world s)
    /\ bucket (world (snd (load_endpoint str_value s))) = bucket (world s).
Proof.
  intros [i Hi].
  destruct (load_endpoint_index_held s i Hi)
    as (r & evs & s' & Hrun & Htr & His & _ & Hf & Hb & Hi' & Hm & Hcase).
  rewrite Hrun. simpl. exists evs. rewrite Hi, Hi'.
  split; [done|]. split; [|done].
  destruct Hcase as [(found & _ & _ & _ & _ & _ & ->)|[(e & _ & _ & _ & _ & ->)|(_ & _ & _ & _ & ->)]];
    reflexivity.
Qed.

(** ** Queries *)

Lemma docs_of_state (sorted_data : list MatchNeighbor) (s : St) :
  snd (docs_of sorted_data s) = s.
Proof.
  induction sorted_data as [|x rest IH]; [done|].
  simpl. unfold getattr_doc, getitem. exec.
  destruct (doc (self s)) as [d|]; [|done].
  destruct (d !! neighbor_id x) as [p|]; [|done].
  specialize IH. destruct (docs_of rest s) as [[e|ps] s']; simpl in *; by subst.
Qed.

Lemma search_state (q : list (list Value)) (k : Z) (s : St) :
  snd (search str_value dist_ltb q k s)
  = snd (search_sorted_data str_value dist_ltb q k s).
Proof.
  unfold search, bind.
  destruct (search_sorted_data str_value dist_ltb q k s) as [[e|sd] s1]; [done|].
  apply docs_of_state.
Qed.

Lemma search_sorted_data_endpoint_held
    (s : St) (e : MatchingEngineIndexEndpoint) (q : list (list Value)) (k : Z) :
  endpoint (self s) = Some e ->
  search_sorted_data str_value dist_ltb q k s
  = (match match_backend (world s) (index_name (self s)) q k with
     | [] => inl IndexError
     | first :: _ => inr (sorted_by_distance_desc dist_ltb first)
     end,
     mkSt (self s)
          (add_event (EvMatch (ep_resource_name e) (index_name (self s)) q k) (world s))).
Proof.
  intros He. unfold search_sorted_data.
  match goal with |- context [bind get ?f s] => change (bind get f s) with (f s s) end.
  cbv beta. rewrite He. unfold endpoint_attr. exec. rewrite He. exec.
  cbn [match_backend add_event].
  by destruct (match_backend (world s) (index_name (self s)) q k).
Qed.

(** X13: on a client that holds an endpoint handle, the whole effect of
    [search], whatever it returns or raises, is one match call on that
    endpoint, with the index name as deployed-index id, the queries as
    given and [topk] as number of neighbours: no existence check, no
    provisioning, and the object is left as it was. *)
Theorem search_held_endpoint_only_matches
    (s : St) (e : MatchingEngineIndexEndpoint) (q : list (list Value)) (k : Z) :
  endpoint (self s) = Some e ->
  self (snd (search str_value dist_ltb q k s)) = self s
  /\ world (snd (search str_value dist_ltb q k s))
     = add_event (EvMatch (ep_resource_name e) (index_name (self s)) q k) (world s)
  /\ trace (world (snd (search str_value dist_ltb q k s)))
     = trace (world s) ++ [EvMatch (ep_resource_name e) (index_name (self s)) q k].
Proof.
  intros He. rewrite search_state, (search_sorted_data_endpoint_held s e q k He). done.
Qed.

(** X14: if the service answers the match call with no list at all (as it
    does for no query), [search] raises [IndexError] on [response[0]],
    after the match call and before any lookup. *)
Theorem search_empty_response_raises
    (s : St) (e : MatchingEngineIndexEndpoint) (q : list (list Value)) (k : Z) :
  endpoint (self s) = Some e ->
  match_backend (world s) (index_name (self s)) q k = [] ->
  fst (search str_value dist_ltb q k s) = inl IndexError
  /\ trace (world (snd (search str_value dist_ltb q k s)))
     = trace (world s) ++ [EvMatch (ep_resource_name e) (index_name (self s)) q k].
Proof.
  intros He Hresp. split.
  - unfold search, bind. rewrite (search_sorted_data_endpoint_held s e q k He), Hresp. done.
  - rewrite search_state, (search_sorted_data_endpoint_held s e q k He). done.
Qed.

Lemma sorted_by_distance_desc_fixed (l : list MatchNeighbor) :
  Sorted (fun a b => dist_ltb (distance a) (distance b) = false) l ->
  sorted_by_distance_desc dist_ltb l = l.
Proof.
  induction 1 as [|x l Hs IH Hhd]; [done|].
  simpl. rewrite IH. destruct Hhd as [|y l' Hxy]; [done|].
  simpl. by rewrite Hxy.
Qed.

(** X15: the candidates [search] goes on with are those of the first
    query only, all of them however many [topk] was, each once; they are in
    descending order of distance when [<] is asymmetric on the distances,
    and candidates that the service returned already in that order (ties
    included) keep the order they came in. *)
Theorem search_candidates_sorted_descending
    (s : St) (e : MatchingEngineIndexEndpoint) (q : list (list Value)) (k : Z)
    (first : list MatchNeighbor) (others : list (list MatchNeighbor)) :
  endpoint (self s) = Some e ->
  match_backend (world s) (index_name (self s)) q k = first :: others ->
  exists sorted_data,
    fst (search_sorted_data str_value dist_ltb q k s) = inr sorted_data
    /\ sorted_data ≡ₚ first
    /\ length sorted_data = length first
    /\ ((forall a b, dist_ltb a b = true -> dist_ltb b a = false) ->
        Sorted (fun a b => dist_ltb (distance a) (distance b) = false) sorted_data)
    /\ (Sorted (fun a b => dist_ltb (distance a) (distance b) = false) first ->
        sorted_data = first).
Proof.
  intros He Hresp. exists (sorted_by_distance_desc dist_ltb first).
  rewrite (search_sorted_data_endpoint_held s e q k He), Hresp.
  split; [done|]. split; [apply sorted_by_distance_desc_perm|].
  split; [by rewrite (sorted_by_distance_desc_perm dist_ltb first)|].
  split; [apply sorted_by_distance_desc_sorted|apply sorted_by_distance_desc_fixed].
Qed.

Lemma search_sorted_data_after_load_endpoint
    (s s1 : St) (q : list (list Value)) (k : Z) :
  endpoint (self s) = None ->
  load_endpoint str_value s = (inr tt, s1) ->
  is_Some (endpoint (self s1)) ->
  search_sorted_data str_value dist_ltb q k s
  = search_sorted_data str_value dist_ltb q k s1.
Proof.
  intros He Hrun [e He1]. unfold search_sorted_data.
  match goal with |- context [bind get ?f s] => change (bind get f s) with (f s s) end.
  match goal with |- context [bind get ?f s1] => change (bind get f s1) with (f s1 s1) end.
  cbv beta. rewrite He, He1. unfold bind at 1. rewrite Hrun. reflexivity.
Qed.

(** X16: provisioning is lazy and kept.  The first [search] of a new
    client whose index and endpoint are both listed issues exactly five
    calls in this order: the existence check and the bind of the index,
    the existence check and the bind of the endpoint, the match call.  It
    leaves both handles bound, so that any further [search] issues the
    match call alone. *)
Theorem first_search_binds_then_matches (s : St) (q q' : list (list Value)) (k k' : Z) :
  index (self s) = None ->
  endpoint (self s) = None ->
  index_listed (index_name (self s)) (world s) ->
  endpoint_listed (endpoint_name (self s)) (world s) ->
  exists found,
    In found (endpoints (world s))
    /\ ep_display_name found = endpoint_name (self s)
    /\ trace (world (snd (search str_value dist_ltb q k s)))
       = trace (world s)
         ++ [EvListIndexes ("display_name=" +:+ index_name (self s));
             EvGetIndex (index_name (self s));
             EvListEndpoints ("display_name=" +:+ endpoint_name (self s));
             EvGetEndpoint (endpoint_name (self s));
             EvMatch (ep_resource_name found) (index_name (self s)) q k]
    /\ is_Some (index (self (snd (search str_value dist_ltb q k s))))
    /\ endpoint (self (snd (search str_value dist_ltb q k s))) = Some found
    /\ trace (world (snd (search str_value dist_ltb q' k'
                            (snd (search str_value dist_ltb q k s)))))
       = trace (world (snd (search str_value dist_ltb q k s)))
         ++ [EvMatch (ep_resource_name found) (index_name (self s)) q' k'].
Proof.
  intros Hi He Hli Hle.
  destruct (load_index_present str_value s Hli)
    as (fi & s1 & Hrun1 & _ & _ & _ & Hself1 & Htr1 & _ & Hes1 & _).
  assert (Hi1 : index (self s1) = Some fi) by (by rewrite Hself1).
  assert (Hn1 : endpoint_name (self s1) = endpoint_name (self s)) by (by rewrite Hself1).
  assert (Hx1 : index_name (self s1) = index_name (self s)) by (by rewrite Hself1).
  destruct (load_endpoint_index_held s1 fi Hi1)
    as (r & evs & s2 & Hrun2 & Htr2 & _ & _ & _ & _ & Hi2 & _ & Hcase).
  assert (Hle1 : endpoint_listed (endpoint_name (self s1)) (world s1)).
  { destruct Hle as (e & Hin & Hd). exists e. by rewrite Hn1, Hes1. }
  destruct Hcase as [(found & _ & -> & Hin & Hd & He2 & ->)|[(e & Hn & _)|(Hn & _)]];
    [|done|done].
  rewrite <- (load_endpoint_after_load_index s s1 Hi Hrun1) in Hrun2 by eauto.
  assert (Hx2 : index_name (self s2) = index_name (self s)).
  { rewrite <- Hx1. pose proof (identity_load_endpoint str_value s1) as Hid.
    rewrite <- (load_endpoint_after_load_index s s1 Hi Hrun1) in Hid by eauto.
    rewrite Hrun2 in Hid. simpl in Hid. destruct Hid as (_ & Hid & _).
    by rewrite Hid, Hx1. }
  exists found. rewrite Hes1, Hn1 in *.
  split; [done|]. split; [done|].
  assert (Hs : snd (search str_value dist_ltb q k s)
               = mkSt (self s2)
                   (add_event (EvMatch (ep_resource_name found) (index_name (self s)) q k)
                              (world s2))).
  { rewrite search_state.
    rewrite (search_sorted_data_after_load_endpoint s s2 q k He Hrun2) by eauto.
    rewrite (search_sorted_data_endpoint_held s2 found q k He2), Hx2. done. }
  rewrite Hs. simpl. rewrite Htr2, Htr1, <- !app_assoc, ?Hx1, Hi2. simpl.
  split; [done|]. split; [eauto|]. split; [done|].
  rewrite search_state.
  rewrite (search_sorted_data_endpoint_held _ found q' k') by exact He2.
  simpl. rewrite Htr2, Htr1, <- !app_assoc, ?Hx1, ?Hx2. done.
Qed.

(** ** A query before the endpoint exists *)

(** X18: a [search] on a client that holds no endpoint handle, while no
    endpoint of the configured name is listed, never reaches the service's
    match call: it goes through [load_endpoint], which raises before
    deploying.  What it raises is the [AttributeError] of
    [None.display_name], except where the index has to be created first and
    there is no staging file to upload (no index held or listed, an empty
    corpus, no file): there it is the [FileNotFoundError] of the upload.
    The endpoint handle is still [None] afterwards, and the endpoint still
    not listed. *)
Theorem search_without_endpoint_never_matches
    (s : St) (q : list (list Value)) (k : Z) :
  endpoint (self s) = None ->
  ~ endpoint_listed (endpoint_name (self s)) (world s) ->
  exists e evs s',
    search str_value dist_ltb q k s = (inl e, s')
    /\ (e = AttributeError "NoneType" "display_name"
        \/ e = FileNotFoundError TMP_FILE_PATH)
    /\ (e = FileNotFoundError TMP_FILE_PATH <->
        index (self s) = None
        /\ ~ index_listed (index_name (self s)) (world s)
        /\ corpus (world s) = [] /\ files (world s) !! TMP_FILE_PATH = None)
    /\ trace (world s') = trace (world s) ++ evs
    /\ count_events is_match evs = 0%nat
    /\ count_events is_deploy evs = 0%nat
    /\ endpoint (self s') = None
    /\ ~ endpoint_listed (endpoint_name (self s')) (world s').
Proof.
  intros He Hn.
  assert (Hle : exists e evs s',
    load_endpoint str_value s = (inl e, s')
    /\ (e = AttributeError "NoneType" "display_name"
        \/ e = FileNotFoundError TMP_FILE_PATH)
    /\ (e = FileNotFoundError TMP_FILE_PATH <->
        index (self s) = None
        /\ ~ index_listed (index_name (self s)) (world s)
        /\ corpus (world s) = [] /\ files (world s) !! TMP_FILE_PATH = None)
    /\ trace (world s') = trace (world s) ++ evs
    /\ Forall (fun ev => is_match ev = false /\ is_deploy ev = false) evs
    /\ endpoint (self s') = None
    /\ endpoint_name (self s') = endpoint_name (self s)
    /\ endpoints (world s') = endpoints (world s)).
  { assert (Hheld : forall (s1 : St) i,
      index (self s1) = Some i -> endpoint (self s1) = None ->
      ~ endpoint_listed (endpoint_name (self s1)) (world s1) ->
      exists s',
        load_endpoint str_value s1 = (inl (AttributeError "NoneType" "display_name"), s')
        /\ trace (world s')
           = trace (world s1)
             ++ [EvListEndpoints ("display_name=" +:+ endpoint_name (self s1))]
        /\ endpoint (self s') = None
        /\ endpoint_name (self s') = endpoint_name (self s1)
        /\ endpoints (world s') = endpoints (world s1)).
    { intros s1 i Hi1 He1 Hn1.
      destruct (load_endpoint_index_held s1 i Hi1)
        as (r & evs & s' & Hrun & Htr & _ & Hes & _ & _ & _ & _ & Hcase).
      pose proof (identity_load_endpoint str_value s1) as Hid.
      rewrite Hrun in Hid. simpl in Hid. destruct Hid as (_ & _ & Hname & _).
      destruct Hcase as [(f & Hl & _)|[(e & _ & He' & _)|(_ & _ & -> & He' & ->)]];
        [done|congruence|].
      exists s'. auto 10. }
    assert (Hweak : forall evs : list Event,
      Forall (fun ev => is_index_side ev = true) evs ->
      Forall (fun ev => is_match ev = false /\ is_deploy ev = false) evs).
    { intros evs Hside. eapply Forall_impl; [exact Hside|]. intros ev Hev. by destruct ev. }
    destruct (index (self s)) as [i|] eqn:Hi.
    - destruct (Hheld s i Hi He Hn) as (s' & Hrun & Htr & He' & Hname & Hes).
      eexists _, _, s'. split; [exact Hrun|]. split; [by left|].
      split. { split; [done|]. by intros (? & _). }
      split; [exact Htr|]. split; [by repeat constructor|]. auto.
    - destruct (load_index_outcome str_value s)
        as (r1 & evs1 & s1 & Hrun1 & (i & Hi1 & _) & _ & He1 & Hn1 & Hes1 & Htr1 & Hside
            & Hcase1).
      destruct Hcase1 as [[Hok ->]|(Hnl & Hcorpus & Hnone & ->)].
      + rewrite (load_endpoint_after_load_index s s1 Hi Hrun1) by eauto.
        destruct (Hheld s1 i Hi1) as (s' & Hrun & Htr & He' & Hname & Hes).
        { by rewrite He1. }
        { intros (e & Hin & Hd). apply Hn. exists e. by rewrite <- Hes1, <- Hn1. }
        eexists _, (evs1 ++ _), s'. split; [exact Hrun|]. split; [by left|].
        split. { split; [done|]. intros (_ & Hnl & Hcorpus & Hnone).
                 destruct Hok as [?|[?|[c Hc]]]; [done|done|congruence]. }
        split; [by rewrite Htr, Htr1, <- app_assoc|].
        split; [|rewrite Hname, Hes; auto].
        apply Forall_app. split; [by apply Hweak|by repeat constructor].
      + exists (FileNotFoundError TMP_FILE_PATH), evs1, s1.
        split. { unfold load_endpoint.
                 match goal with |- context [bind get ?f s] =>
                   change (bind get f s) with (f s s) end.
                 cbv beta. rewrite Hi. unfold bind at 1. by rewrite Hrun1. }
        split; [by right|]. split; [done|]. split; [exact Htr1|].
        split; [by apply Hweak|]. rewrite He1. auto. }
  destruct Hle as (e & evs & s' & Hrun & Hwhich & Hiff & Htr & Hall & He' & Hname & Hes).
  exists e, evs, s'.
  split.
  { assert (Hssd : search_sorted_data str_value dist_ltb q k s = (inl e, s')).
    { unfold search_sorted_data.
      match goal with |- context [bind get ?f s] => change (bind get f s) with (f s s) end.
      cbv beta. rewrite He. unfold bind at 1. rewrite Hrun. reflexivity. }
    unfold search. unfold bind at 1. by rewrite Hssd. }
  split; [exact Hwhich|]. split; [exact Hiff|]. split; [exact Htr|].
  split; [apply count_events_none; eapply Forall_impl; [exact Hall|]; by intros ev []|].
  split; [apply count_events_none; eapply Forall_impl; [exact Hall|]; by intros ev []|].
  split; [exact He'|].
  intros (e0 & Hin & Hd). apply Hn. exists e0. by rewrite <- Hes, <- Hname.
Qed.

(** ** What is staged is what is uploaded *)

Lemma _create_index_files (s : St) :
  corpus (world s) <> [] \/ is_Some (files (world s) !! TMP_FILE_PATH) ->
  is_Some (files (world (snd (_create_index str_value s))) !! TMP_FILE_PATH)
  /\ (forall path, path <> TMP_FILE_PATH ->
      files (world (snd (_create_index str_value s))) !! path = files (world s) !! path).
Proof.
  intros Hfile.
  unfold _create_index, create_tree_ah_index, index_attr, _upload_embedding_file.
  exec. cbn [index set_index].
  match goal with |- context [_write_embeddings _ _ ?st] => set (s0 := st) end.
  destruct (_write_embeddings_run str_value 512 s0 ltac:(done)) as (s1 & Hrun & Hself & _).
  destruct (_write_embeddings_files str_value 512 s0
              ltac:(split; [done|vm_compute; discriminate])) as (Hex & _ & Hoth).
  rewrite Hrun in *. destruct (Hex Hfile) as [content Hc]. clear Hex.
  exec. cbn [snd] in Hc, Hoth. cbn [files world add_log]. rewrite Hc. exec.
  rewrite Hself. cbn [index set_doc_map set_index]. exec.
  simpl in *. split; [eauto|done].
Qed.

Lemma load_index_absent_files (s : St) :
  ~ index_listed (index_name (self s)) (world s) ->
  corpus (world s) <> [] \/ is_Some (files (world s) !! TMP_FILE_PATH) ->
  is_Some (files (world (snd (load_index str_value s))) !! TMP_FILE_PATH)
  /\ (forall path, path <> TMP_FILE_PATH ->
      files (world (snd (load_index str_value s))) !! path = files (world s) !! path).
Proof.
  intros Hl Hfile. pose proof (filter_indexes_absent s Hl) as Hnil.
  unfold load_index, _index_exists, list_indexes.
  exec. cbn [indexes add_event]. rewrite Hnil. cbn [map].
  change (negb (len (@nil string) =? 0)) with false. cbv iota.
  match goal with |- context [_create_index _ ?st] => set (s0 := st) end.
  destruct (_create_index_files s0 Hfile) as [Hex Hoth]. subst s0. simpl in *. done.
Qed.

(** X17: when [load_index] creates the index, what it uploads is the whole
    staging file as it is after the run: whatever the file held before
    (the records of an earlier run, if the file was not cleared) followed
    by the records of this run.  The blob [tmp.json] of the bucket is
    replaced by that content; no other blob and no other file changes.
    (The corpus is not empty or the file exists already, so that there is a
    file to upload.) *)
Theorem load_index_uploads_whole_staging_file (s : St) :
  ~ index_listed (index_name (self s)) (world s) ->
  corpus (world s) <> [] \/ is_Some (files (world s) !! TMP_FILE_PATH) ->
  exists s',
    load_index str_value s = (inr tt, s')
    /\ files (world s') !! TMP_FILE_PATH
       = Some (read_file TMP_FILE_PATH (world s)
               +:+ staged_text str_value (model (self s)) (corpus (world s)) 512)
    /\ bucket (world s') !! TMP_FILE_PATH
       = Some (read_file TMP_FILE_PATH (world s)
               +:+ staged_text str_value (model (self s)) (corpus (world s)) 512)
    /\ (forall blob, blob <> TMP_FILE_PATH ->
        bucket (world s') !! blob = bucket (world s) !! blob)
    /\ (forall path, path <> TMP_FILE_PATH ->
        files (world s') !! path = files (world s) !! path).
Proof.
  intros Hl Hfile.
  destruct (load_index_absent str_value s Hl Hfile) as (s' & Hrun & _ & _ & _ & Hread & Hb & _).
  destruct (load_index_absent_files s Hl Hfile) as [Hex Hoth].
  rewrite Hrun in Hex, Hoth. simpl in Hex, Hoth.
  exists s'. split; [done|].
  split.
  { destruct Hex as [content Hc].
    unfold read_file in Hread at 1. rewrite Hc in Hread. simpl in Hread.
    by rewrite Hc, Hread. }
  rewrite Hb, Hread.
  split; [by rewrite lookup_insert_eq|].
  split; [|done]. intros blob Hne. by rewrite lookup_insert_ne.
Qed.

End MoreProperties.

(** ** Scenarios for the further properties *)

Lemma write_embeddings_negative_batch_size_witness :
  -4 < 0
  /\ exists s',
       _write_embeddings str_int (-4) Sample.fresh_empty = (inr tt, s')
       /\ trace (world s')
          = [EvInit PROJECT_ID REGION; EvLoadPassages ["corpus.jsonl"]]
       /\ files (world s') = ∅
       /\ logs (world s') = ["0 passages encoded."].
Proof.
  assert (H : -4 < 0) by lia. split; [exact H|].
  destruct (write_embeddings_negative_batch_size str_int (-4) Sample.fresh_empty H)
    as (s' & Hrun & _ & Htr & Hf & Hl).
  exists s'. auto.
Defined.

Lemma write_embeddings_batches_partition_witness :
  0 < 4 < 2 ^ 1075
  /\ len (corpus (world Sample.fresh_empty)) < 2 ^ 53
  /\ exists evs s',
       _write_embeddings str_int 4 Sample.fresh_empty = (inr tt, s')
       /\ trace (world s') = trace (world Sample.fresh_empty) ++ evs
       /\ concat (encoded_batches evs) = Sample.corpus10.
Proof.
  assert (H : 0 < 4 < 2 ^ 1075) by (split; reflexivity).
  assert (HN : len (corpus (world Sample.fresh_empty)) < 2 ^ 53) by reflexivity.
  split; [exact H|]. split; [exact HN|].
  destruct (write_embeddings_batches_partition str_int 4 Sample.fresh_empty H HN)
    as (evs & s' & Hrun & Htr & Hc & _).
  exists evs, s'. auto.
Defined.

Lemma write_embeddings_ids_follow_batch_position_witness :
  0 < 4
  /\ exists evs s',
       _write_embeddings str_int 4 Sample.lossy_client = (inr tt, s')
       /\ trace (world s') = trace (world Sample.lossy_client) ++ evs
       /\ written_ids evs = [[Some "0"]; [Some "4"]; [Some "8"]].
Proof.
  assert (H : 0 < 4) by lia. split; [exact H|].
  destruct (write_embeddings_ids_follow_batch_position str_int 4 Sample.lossy_client H)
    as (evs & s' & Hrun & Htr & Hids & _).
  exists evs, s'. split; [exact Hrun|]. split; [exact Htr|].
  rewrite Hids. reflexivity.
Defined.

Lemma write_embeddings_prefers_encode_corpus_witness :
  4 <> 0
  /\ is_Some (encode_corpus (model (self Sample.corpus_client)))
  /\ exists evs s',
       _write_embeddings str_int 4 Sample.corpus_client = (inr tt, s')
       /\ trace (world s') = trace (world Sample.corpus_client) ++ evs
       /\ count_events is_encode evs = 0%nat
       /\ count_events is_encode_corpus evs = 3%nat.
Proof.
  assert (H : 4 <> 0) by lia.
  assert (Hm : is_Some (encode_corpus (model (self Sample.corpus_client)))) by (simpl; eauto).
  split; [exact H|]. split; [exact Hm|].
  destruct (write_embeddings_prefers_encode_corpus str_int 4 Sample.corpus_client H)
    as (evs & s' & Hrun & Htr & Hsome & _).
  destruct (Hsome Hm) as [H0 H3].
  exists evs, s'. auto.
Defined.

Lemma write_embeddings_log_lines_witness :
  0 < 4 < 2 ^ 1075
  /\ len (corpus (world Sample.fresh_empty)) < 2 ^ 53
  /\ (forall batch,
        length (encoder (model (self Sample.fresh_empty)) batch 4) = length batch)
  /\ ceil_div (len (corpus (world Sample.fresh_empty))) 4 <= 500
  /\ exists s',
       _write_embeddings str_int 4 Sample.fresh_empty = (inr tt, s')
       /\ logs (world s') = ["10 passages encoded."].
Proof.
  assert (H0 : 0 < 4 < 2 ^ 1075) by (split; reflexivity).
  assert (HN : len (corpus (world Sample.fresh_empty)) < 2 ^ 53) by reflexivity.
  assert (H1 : forall batch,
             length (encoder (model (self Sample.fresh_empty)) batch 4) = length batch).
  { intros batch. apply length_map. }
  assert (H2 : ceil_div (len (corpus (world Sample.fresh_empty))) 4 <= 500).
  { vm_compute. discriminate. }
  split; [exact H0|]. split; [exact HN|]. split; [exact H1|]. split; [exact H2|].
  destruct (write_embeddings_log_lines str_int 4 Sample.fresh_empty H0 HN H1)
    as (s' & Hrun & _ & Hlog).
  exists s'. split; [exact Hrun|]. exact (Hlog H2).
Defined.

Lemma load_endpoint_listed_binds_witness :
  endpoint_listed (endpoint_name (self Sample.fresh_serving)) (world Sample.fresh_serving)
  /\ index_listed (index_name (self Sample.fresh_serving)) (world Sample.fresh_serving)
  /\ exists s',
       load_endpoint str_int Sample.fresh_serving = (inr tt, s')
       /\ endpoint (self s') = Some Sample.the_endpoint
       /\ is_Some (index (self s')).
Proof.
  assert (H : endpoint_listed (endpoint_name (self Sample.fresh_serving))
                (world Sample.fresh_serving)).
  { exists Sample.the_endpoint. split; [left|]; reflexivity. }
  assert (Hi0 : index_listed (index_name (self Sample.fresh_serving))
                  (world Sample.fresh_serving)).
  { exists Sample.the_index. split; [left|]; reflexivity. }
  split; [exact H|]. split; [exact Hi0|].
  destruct (load_endpoint_listed_binds str_int Sample.fresh_serving H
              (or_intror (or_introl Hi0)))
    as (found & evs & s' & Hrun & He & Hin & _ & Hi & _).
  exists s'. split; [exact Hrun|]. split; [|exact Hi].
  destruct Hin as [<-|[]]. exact He.
Defined.

Lemma load_endpoint_held_handle_deploys_witness :
  index (self Sample.held_endpoint_unlisted) = Some Sample.the_index
  /\ endpoint (self Sample.held_endpoint_unlisted) = Some Sample.the_endpoint
  /\ ~ endpoint_listed (endpoint_name (self Sample.held_endpoint_unlisted))
         (world Sample.held_endpoint_unlisted)
  /\ exists s',
       load_endpoint str_int Sample.held_endpoint_unlisted = (inr tt, s')
       /\ trace (world s')
          = [EvListEndpoints "display_name=endpoint_org_model";
             EvDeployIndex "indexEndpoints/3" (Some Sample.the_index)
               "index_org_model" "index_org_model" "e2-standard-16" 1 1]
       /\ endpoints (world s') = [].
Proof.
  assert (Hi : index (self Sample.held_endpoint_unlisted) = Some Sample.the_index)
    by (vm_compute; reflexivity).
  assert (He : endpoint (self Sample.held_endpoint_unlisted) = Some Sample.the_endpoint)
    by (vm_compute; reflexivity).
  assert (Hn : ~ endpoint_listed (endpoint_name (self Sample.held_endpoint_unlisted))
                   (world Sample.held_endpoint_unlisted)).
  { intros (e & [] & _). }
  split; [exact Hi|]. split; [exact He|]. split; [exact Hn|].
  destruct (load_endpoint_held_handle_deploys str_int Sample.held_endpoint_unlisted
              _ _ Hi He Hn) as (s' & Hrun & Htr & _ & _ & Hes).
  exists s'. split; [exact Hrun|]. split; [|exact Hes].
  rewrite Htr. vm_compute. reflexivity.
Defined.

Lemma load_endpoint_held_index_skips_loader_witness :
  is_Some (index (self Sample.bound_client))
  /\ exists evs,
       trace (world (snd (load_endpoint str_int Sample.bound_client)))
       = trace (world Sample.bound_client) ++ evs
       /\ count_events is_index_side evs = 0%nat.
Proof.
  assert (H : is_Some (index (self Sample.bound_client))) by (vm_compute; eauto).
  split; [exact H|].
  destruct (load_endpoint_held_index_skips_loader str_int Sample.bound_client H)
    as (evs & Htr & Hc & _).
  exists evs. auto.
Defined.

Lemma search_held_endpoint_only_matches_witness :
  endpoint (self (Sample.serving_client Sample.two_neighbors)) = Some Sample.the_endpoint
  /\ self (snd (search str_int Z.ltb [[1; 0]] 2 (Sample.serving_client Sample.two_neighbors)))
     = self (Sample.serving_client Sample.two_neighbors)
  /\ trace (world (snd (search str_int Z.ltb [[1; 0]] 2
                          (Sample.serving_client Sample.two_neighbors))))
     = trace (world (Sample.serving_client Sample.two_neighbors))
       ++ [EvMatch "indexEndpoints/3" "index_org_model" [[1; 0]] 2].
Proof.
  assert (H : endpoint (self (Sample.serving_client Sample.two_neighbors))
              = Some Sample.the_endpoint) by (vm_compute; reflexivity).
  split; [exact H|].
  destruct (search_held_endpoint_only_matches str_int Z.ltb
              (Sample.serving_client Sample.two_neighbors) _ [[1; 0]] 2 H)
    as (Hs & _ & Htr).
  split; [exact Hs|]. rewrite Htr. vm_compute. reflexivity.
Defined.

Lemma search_empty_response_raises_witness :
  endpoint (self (Sample.serving_client Sample.no_response)) = Some Sample.the_endpoint
  /\ match_backend (world (Sample.serving_client Sample.no_response))
       (index_name (self (Sample.serving_client Sample.no_response))) [] 2 = []
  /\ fst (search str_int Z.ltb [] 2 (Sample.serving_client Sample.no_response))
     = inl IndexError.
Proof.
  assert (H : endpoint (self (Sample.serving_client Sample.no_response))
              = Some Sample.the_endpoint) by (vm_compute; reflexivity).
  assert (Hr : match_backend (world (Sample.serving_client Sample.no_response))
                 (index_name (self (Sample.serving_client Sample.no_response))) [] 2 = [])
    by (vm_compute; reflexivity).
  split; [exact H|]. split; [exact Hr|].
  exact (proj1 (search_empty_response_raises str_int Z.ltb
                  (Sample.serving_client Sample.no_response) _ [] 2 H Hr)).
Defined.

Lemma search_candidates_sorted_descending_witness :
  endpoint (self (Sample.serving_client Sample.tied_neighbors)) = Some Sample.the_endpoint
  /\ (forall a b, Z.ltb a b = true -> Z.ltb b a = false)
  /\ exists sorted_data,
       fst (search_sorted_data str_int Z.ltb [[1; 0]; [0; 1]] 2
              (Sample.serving_client Sample.tied_neighbors)) = inr sorted_data
       /\ sorted_data
          = [mkNeighbor (KStr "2") 9; mkNeighbor (KStr "1") 4; mkNeighbor (KStr "3") 4]
       /\ Sorted (fun a b => Z.ltb (distance a) (distance b) = false) sorted_data.
Proof.
  assert (H : endpoint (self (Sample.serving_client Sample.tied_neighbors))
              = Some Sample.the_endpoint) by (vm_compute; reflexivity).
  assert (Hasym : forall a b, Z.ltb a b = true -> Z.ltb b a = false).
  { intros a b Hab. apply Z.ltb_lt in Hab. apply Z.ltb_ge. lia. }
  split; [exact H|]. split; [exact Hasym|].
  destruct (search_candidates_sorted_descending str_int Z.ltb
              (Sample.serving_client Sample.tied_neighbors) _ [[1; 0]; [0; 1]] 2
              [mkNeighbor (KStr "1") 4; mkNeighbor (KStr "2") 9; mkNeighbor (KStr "3") 4]
              [[mkNeighbor (KStr "5") 1]] H)
    as (sd & Hfst & _ & _ & Hsorted & _); [vm_compute; reflexivity|].
  exists sd. split; [exact Hfst|]. split; [|exact (Hsorted Hasym)].
  assert (E : inr sd = (inr [mkNeighbor (KStr "2") 9; mkNeighbor (KStr "1") 4;
                             mkNeighbor (KStr "3") 4] : exn + list (@MatchNeighbor Z))).
  { rewrite <- Hfst. vm_compute. reflexivity. }
  by injection E.
Defined.

Lemma first_search_binds_then_matches_witness :
  index (self Sample.fresh_serving) = None
  /\ endpoint (self Sample.fresh_serving) = None
  /\ index_listed (index_name (self Sample.fresh_serving)) (world Sample.fresh_serving)
  /\ endpoint_listed (endpoint_name (self Sample.fresh_serving)) (world Sample.fresh_serving)
  /\ trace (world (snd (search str_int Z.ltb [[1; 0]] 2 Sample.fresh_serving)))
     = [EvInit PROJECT_ID REGION;
        EvListIndexes "display_name=index_org_model";
        EvGetIndex "index_org_model";
        EvListEndpoints "display_name=endpoint_org_model";
        EvGetEndpoint "endpoint_org_model";
        EvMatch "indexEndpoints/3" "index_org_model" [[1; 0]] 2].
Proof.
  assert (Hli : index_listed (index_name (self Sample.fresh_serving))
                  (world Sample.fresh_serving)).
  { exists Sample.the_index. split; [left|]; reflexivity. }
  assert (Hle : endpoint_listed (endpoint_name (self Sample.fresh_serving))
                  (world Sample.fresh_serving)).
  { exists Sample.the_endpoint. split; [left|]; reflexivity. }
  split; [reflexivity|]. split; [reflexivity|]. split; [exact Hli|]. split; [exact Hle|].
  destruct (first_search_binds_then_matches str_int Z.ltb Sample.fresh_serving
              [[1; 0]] [[1; 0]] 2 2 eq_refl eq_refl Hli Hle)
    as (found & Hin & _ & Htr & _).
  destruct Hin as [<-|[]]. exact Htr.
Defined.

Lemma load_index_uploads_whole_staging_file_witness :
  ~ index_listed (index_name (self Sample.fresh_empty)) (world Sample.fresh_empty)
  /\ (corpus (world Sample.fresh_empty) <> []
      \/ is_Some (files (world Sample.fresh_empty) !! TMP_FILE_PATH))
  /\ exists s',
       load_index str_int Sample.fresh_empty = (inr tt, s')
       /\ bucket (world s') !! TMP_FILE_PATH = files (world s') !! TMP_FILE_PATH
       /\ is_Some (files (world s') !! TMP_FILE_PATH).
Proof.
  assert (H : ~ index_listed (index_name (self Sample.fresh_empty))
                  (world Sample.fresh_empty)).
  { intros (i & [] & _). }
  assert (Hc : corpus (world Sample.fresh_empty) <> []
               \/ is_Some (files (world Sample.fresh_empty) !! TMP_FILE_PATH)).
  { left. discriminate. }
  split; [exact H|]. split; [exact Hc|].
  destruct (load_index_uploads_whole_staging_file str_int Sample.fresh_empty H Hc)
    as (s' & Hrun & Hf & Hb & _).
  exists s'. split; [exact Hrun|]. rewrite Hb, Hf. eauto.
Defined.

Lemma search_without_endpoint_never_matches_witness :
  endpoint (self Sample.fresh_empty) = None
  /\ ~ endpoint_listed (endpoint_name (self Sample.fresh_empty)) (world Sample.fresh_empty)
  /\ fst (search str_int Z.ltb [[1; 0]] 2 Sample.fresh_empty)
     = inl (AttributeError "NoneType" "display_name")
  /\ count_events is_match
       (trace (world (snd (search str_int Z.ltb [[1; 0]] 2 Sample.fresh_empty)))) = 0%nat.
Proof.
  assert (Hn : ~ endpoint_listed (endpoint_name (self Sample.fresh_empty))
                   (world Sample.fresh_empty)).
  { intros (e & [] & _). }
  split; [reflexivity|]. split; [exact Hn|].
  destruct (search_without_endpoint_never_matches str_int Z.ltb Sample.fresh_empty
              [[1; 0]] 2 eq_refl Hn)
    as (e & evs & s' & Hrun & Hwhich & Hiff & Htr & Hm & _).
  rewrite Hrun. simpl. split.
  - destruct Hwhich as [->| ->]; [reflexivity|].
    destruct (proj1 Hiff eq_refl) as (_ & _ & Hcorpus & _). discriminate Hcorpus.
  - rewrite Htr. exact Hm.
Defined.
